(** * Bank statement report viewer: schema detection, name resolution, rendering

    A shallow embedding of [streamlit_app.py].  The uploaded document is a
    parsed JSON value; the functions of the script are total functions into
    an error type whose failures are the exceptions the interpreter raises
    ([AttributeError] for a method that the receiver does not have, and so
    on).  The script itself is a function from the outcome of the upload to
    the list of interface calls it makes. *)

From Stdlib Require Import String Ascii List ZArith NArith Bool Lia.
From Stdlib Require Import SpecFloat DecimalString.
From Stdlib Require Import Decimal DecimalFacts DecimalPos DecimalZ.
Import ListNotations.

Open Scope list_scope.
Open Scope string_scope.

(** ** Values

    What [json.load] produces.  A [dict] keeps its insertion order and is
    an association list whose first binding of a key is the one that
    counts; a [float] is an IEEE-754 binary64 datum in the representation
    of the standard library ([S754_finite s m e] is [(-1)^s * m * 2^e]).
    A [str] is a [string] that holds its UTF-8 encoding, one [ascii] per
    byte. *)

#[warnings="-register-all"]
Inductive value : Type :=
| VNone
| VBool (b : bool)
| VInt (z : Z)
| VFloat (f : spec_float)
| VStr (s : string)
| VList (l : list value)
| VDict (kvs : list (string * value)).

(** ** Exceptions and the error monad *)

Inductive exn : Type :=
| AttributeError
| TypeError
| KeyError
| IndexError
| ValueError
| OverflowError
| RecursionError.

Inductive result (A : Type) : Type :=
| Ok (a : A)
| Raise (e : exn).

Arguments Ok {A} a.
Arguments Raise {A} e.

Definition bind {A B : Type} (m : result A) (k : A -> result B) : result B :=
  match m with
  | Ok a => k a
  | Raise e => Raise e
  end.

Notation "x <- m ;; k" := (bind m (fun x => k))
  (at level 61, m at next level, right associativity).

Definition returns {A : Type} (m : result A) : bool :=
  match m with Ok _ => true | Raise _ => false end.

(** ** Strings

    A [str] is modelled by its UTF-8 encoding, one [ascii] per byte.
    Equality, concatenation, [startswith], the substring test and the
    replacement of a blank by an underscore are the same on the bytes as
    on the characters; the functions of this module follow the encoded
    characters. *)

Module Str.

Definition byte (c : ascii) : nat := nat_of_ascii c.

(** The white space of [str.strip], by the length of its encoding:
    U+0009 to U+000D and U+001C to U+0020; U+0085 and U+00A0; U+1680,
    U+2000 to U+200A, U+2028, U+2029, U+202F, U+205F and U+3000. *)
Definition space1 (c : ascii) : bool :=
  let n := byte c in
  ((9 <=? n)%nat && (n <=? 13)%nat) || ((28 <=? n)%nat && (n <=? 32)%nat).

Definition space2 (c1 c2 : ascii) : bool :=
  (byte c1 =? 194)%nat && ((byte c2 =? 133)%nat || (byte c2 =? 160)%nat).

Definition space3 (c1 c2 c3 : ascii) : bool :=
  let x := byte c1 in
  let y := byte c2 in
  let z := byte c3 in
  ((x =? 225)%nat && (y =? 154)%nat && (z =? 128)%nat)
  || ((x =? 226)%nat && (y =? 128)%nat
      && (((128 <=? z)%nat && (z <=? 138)%nat)
          || (z =? 168)%nat || (z =? 169)%nat || (z =? 175)%nat))
  || ((x =? 226)%nat && (y =? 129)%nat && (z =? 159)%nat)
  || ((x =? 227)%nat && (y =? 128)%nat && (z =? 128)%nat).

(** The text after one white space character, if the text starts with
    one. *)
Definition after_space (s : string) : option string :=
  match s with
  | String c1 (String c2 (String c3 r3 as r2) as r1) =>
      if space1 c1 then Some r1
      else if space2 c1 c2 then Some r2
      else if space3 c1 c2 c3 then Some r3
      else None
  | String c1 (String c2 EmptyString as r1) =>
      if space1 c1 then Some r1
      else if space2 c1 c2 then Some EmptyString
      else None
  | String c1 EmptyString => if space1 c1 then Some EmptyString else None
  | EmptyString => None
  end.

Fixpoint lstrip (s : string) : string :=
  match s with
  | EmptyString => EmptyString
  | String c1 r1 =>
      if space1 c1 then lstrip r1
      else
        match r1 with
        | EmptyString => s
        | String c2 r2 =>
            if space2 c1 c2 then lstrip r2
            else
              match r2 with
              | EmptyString => s
              | String c3 r3 => if space3 c1 c2 c3 then lstrip r3 else s
              end
        end
  end.

(** Nothing but white space. *)
Definition blank (s : string) : bool := String.eqb (lstrip s) EmptyString.

Fixpoint rstrip (s : string) : string :=
  match s with
  | EmptyString => EmptyString
  | String c rest => if blank s then EmptyString else String c (rstrip rest)
  end.

Definition strip (s : string) : string := rstrip (lstrip s).

Definition lower_char (c : ascii) : ascii :=
  let n := byte c in
  if (65 <=? n)%nat && (n <=? 90)%nat then ascii_of_nat (n + 32) else c.

(** U+212A KELVIN SIGN *)
Definition kelvin (c1 c2 c3 : ascii) : bool :=
  (byte c1 =? 226)%nat && (byte c2 =? 132)%nat && (byte c3 =? 170)%nat.

(** [str.lower] as far as an ASCII word can tell: the letters A to Z and
    the Kelvin sign, which is the one character outside ASCII whose lower
    case is in ASCII (the letter k), are put in lower case; every other
    character is left as it is.  The result is an ASCII word exactly when
    that of [str.lower] is, and then it is the same word; the script
    compares the lower case with ASCII words and does nothing else with
    it. *)
Fixpoint lower (s : string) : string :=
  match s with
  | EmptyString => EmptyString
  | String c rest =>
      match rest with
      | String c2 (String c3 rest') =>
          if kelvin c c2 c3 then String "k" (lower rest')
          else String (lower_char c) (lower rest)
      | _ => String (lower_char c) (lower rest)
      end
  end.

(** [s.replace(a, b)] for single ASCII characters [a] and [b]. *)
Fixpoint replace (a b : ascii) (s : string) : string :=
  match s with
  | EmptyString => EmptyString
  | String c rest => String (if Ascii.eqb c a then b else c) (replace a b rest)
  end.

(** The bytes 80 to BF continue a character. *)
Definition continues (c : ascii) : bool :=
  (128 <=? byte c)%nat && (byte c <=? 191)%nat.

Fixpoint continuation (s : string) : string :=
  match s with
  | EmptyString => EmptyString
  | String c rest =>
      if continues c then String c (continuation rest) else EmptyString
  end.

(** The characters of a text, each with its bytes. *)
Fixpoint chars (s : string) : list string :=
  match s with
  | EmptyString => []
  | String c rest =>
      if continues c then chars rest
      else String c (continuation rest) :: chars rest
  end.

End Str.

(** ** Built-in operations of the language, as far as the script uses them *)

Module Py.

Fixpoint assoc (k : string) (kvs : list (string * value)) : option value :=
  match kvs with
  | [] => None
  | (k', v) :: rest => if String.eqb k k' then Some v else assoc k rest
  end.

(** [v.get(k, dflt)]: only a [dict] has the method. *)
Definition get (v : value) (k : string) (dflt : value) : result value :=
  match v with
  | VDict kvs => Ok (match assoc k kvs with Some x => x | None => dflt end)
  | _ => Raise AttributeError
  end.

(** Truth value testing: [None], [False], zero, and the empty string,
    list and dict are false; everything else (a NaN too) is true. *)
Definition truthy (v : value) : bool :=
  match v with
  | VNone => false
  | VBool b => b
  | VInt z => negb (Z.eqb z 0)
  | VFloat (S754_zero _) => false
  | VFloat _ => true
  | VStr s => negb (String.eqb s "")
  | VList l => match l with [] => false | _ :: _ => true end
  | VDict kvs => match kvs with [] => false | _ :: _ => true end
  end.

(** [v.startswith(p)]: only a [str] has the method. *)
Definition startswith (v : value) (p : string) : result bool :=
  match v with
  | VStr s => Ok (String.prefix p s)
  | _ => Raise AttributeError
  end.

(** [v[0]].  The keys of a parsed document are strings, so the integer
    key is never in a [dict]. *)
Definition item0 (v : value) : result value :=
  match v with
  | VList [] => Raise IndexError
  | VList (x :: _) => Ok x
  | VStr EmptyString => Raise IndexError
  | VStr (String c rest) => Ok (VStr (String c (Str.continuation rest)))
  | VDict _ => Raise KeyError
  | _ => Raise TypeError
  end.

(** [needle in s] on strings. *)
Fixpoint contains (needle s : string) : bool :=
  String.prefix needle s
  || match s with
     | EmptyString => false
     | String _ rest => contains needle rest
     end.

Definition is_str (needle : string) (v : value) : bool :=
  match v with VStr s => String.eqb s needle | _ => false end.

(** [needle in v] for a string [needle]: key membership in a [dict],
    element membership in a [list], substring test in a [str]. *)
Definition contains_str (needle : string) (v : value) : result bool :=
  match v with
  | VDict kvs => Ok (match assoc needle kvs with Some _ => true | None => false end)
  | VList l => Ok (existsb (is_str needle) l)
  | VStr s => Ok (contains needle s)
  | _ => Raise TypeError
  end.

End Py.

(** ** Schema detection *)

Definition detect_schema_version (data : value) : result string :=
  report_info <- Py.get data "report_info" (VDict []) ;;
  schema_version <- Py.get report_info "schema_version" (VStr "") ;;
  five <- Py.startswith schema_version "5." ;;
  if five then Ok "5.0" else
  recurring <- Py.get data "recurring_payments" VNone ;;
  v5_fields <- (if Py.truthy recurring then Ok true
                else financing <- Py.get data "non_bank_financing" VNone ;;
                     Ok (Py.truthy financing)) ;;
  if v5_fields then Ok "5.0" else
  accounts <- Py.get data "accounts" (VList []) ;;
  intraday <- (if Py.truthy accounts then
                 first_account <- Py.item0 accounts ;;
                 monthly <- Py.get first_account "monthly_summary" (VList []) ;;
                 if Py.truthy monthly then
                   first_month <- Py.item0 monthly ;;
                   Py.contains_str "highest_intraday" first_month
                 else Ok false
               else Ok false) ;;
  if intraday then Ok "5.0" else Ok "4.0".

(** ** Company name resolver *)

Definition blocklist : list string :=
  ["unknown"; "n/a"; "na"; "company"; "-"; "null"].

Definition blocked (s : string) : bool :=
  existsb (String.eqb s) blocklist.

(** One turn of the loop over the candidates: [Some s] when the
    candidate is returned. *)
Definition usable (c : value) : option string :=
  match c with
  | VStr raw =>
      let s := Str.strip raw in
      if negb (String.eqb s "") && negb (blocked (Str.lower s))
      then Some s else None
  | _ => None
  end.

Fixpoint first_usable (candidates : list value) (default : string) : string :=
  match candidates with
  | [] => default
  | c :: rest =>
      match usable c with
      | Some s => s
      | None => first_usable rest default
      end
  end.

Definition resolve_company_name (data : value) (default : string)
  : result string :=
  match data with
  | VDict _ =>
      info <- Py.get data "report_info" (VDict []) ;;
      let r := if Py.truthy info then info else VDict [] in
      c1 <- Py.get r "company_name" VNone ;;
      c2 <- Py.get r "company" VNone ;;
      c3 <- Py.get r "entity_name" VNone ;;
      c4 <- Py.get data "company_name" VNone ;;
      c5 <- Py.get data "company" VNone ;;
      c6 <- Py.get data "entity_name" VNone ;;
      Ok (first_usable [c1; c2; c3; c4; c5; c6] default)
  | _ => Ok default
  end.

(** ** Formatting of numbers *)

Module Fmt.

Definition decimal (z : Z) : string := NilZero.string_of_int (Z.to_int z).

(** The integer nearest to [m / 2^k], ties to the even one. *)
Definition nearest_even (m k : Z) : Z :=
  let q := (m / 2 ^ k)%Z in
  let r := (m mod 2 ^ k)%Z in
  let half := (2 ^ (k - 1))%Z in
  if (r <? half)%Z then q
  else if (half <? r)%Z then (q + 1)%Z
  else if Z.even q then q else (q + 1)%Z.

(** The conversion of an [int] to a [float], which keeps 53 significant
    bits (ties to even) and fails from [2^1024] on.  The result is an
    integer again and is given as such. *)
Definition int_to_float (z : Z) : result Z :=
  let a := Z.abs z in
  let drop := (Z.log2 a + 1 - 53)%Z in
  let r := if (drop <=? 0)%Z then a
           else (nearest_even a drop * 2 ^ drop)%Z in
  if (2 ^ 1024 <=? r)%Z then Raise OverflowError else Ok (Z.sgn z * r)%Z.

Definition sign (s : bool) : string := if s then "-" else "".

(** The digits of a finite float printed with no fractional digit. *)
Definition integral (m : positive) (e : Z) : Z :=
  if (0 <=? e)%Z then (Zpos m * 2 ^ e)%Z else nearest_even (Zpos m) (- e).

(** [format(v, ".0f")]. *)
Definition fixed0 (v : value) : result string :=
  match v with
  | VInt z => d <- int_to_float z ;; Ok (decimal d)
  | VBool b => Ok (if b then "1" else "0")
  | VFloat (S754_zero s) => Ok (sign s ++ "0")
  | VFloat (S754_infinity s) => Ok (sign s ++ "inf")
  | VFloat S754_nan => Ok "nan"
  | VFloat (S754_finite s m e) => Ok (sign s ++ decimal (integral m e))
  | VStr _ => Raise ValueError
  | VNone | VList _ | VDict _ => Raise TypeError
  end.

End Fmt.

Definition nl : string := String (ascii_of_nat 10) EmptyString.
Definition dq : string := String (ascii_of_nat 34) EmptyString.

(** ** The characters of a text

    The code points of a [str] behind its bytes.  A surrogate (U+D800 to
    U+DFFF) is a character of a [str] like any other and has the three
    bytes that the error handler [surrogatepass] gives it. *)

Module Utf8.

Definition code (c : ascii) : N := N_of_ascii c.

(** The six bits of a byte that continues a character. *)
Definition tail (c : ascii) : option N :=
  let n := code c in
  if (128 <=? n)%N && (n <=? 191)%N then Some (n - 128)%N else None.

(** The first character of a text and the text after it; [None] at the
    end of the text and where the bytes are no character: a byte that
    cannot start one, a missing continuation, an encoding longer than
    needed, a code point beyond U+10FFFF. *)
Definition next (s : string) : option (N * string) :=
  match s with
  | EmptyString => None
  | String c1 r1 =>
      let b1 := code c1 in
      if (b1 <? 128)%N then Some (b1, r1)
      else if (b1 <? 194)%N then None
      else if (b1 <? 224)%N then
        match r1 with
        | String c2 r2 =>
            match tail c2 with
            | Some t2 => Some ((b1 - 192) * 64 + t2, r2)%N
            | None => None
            end
        | EmptyString => None
        end
      else if (b1 <? 240)%N then
        match r1 with
        | String c2 (String c3 r3) =>
            match tail c2, tail c3 with
            | Some t2, Some t3 =>
                let n := ((b1 - 224) * 4096 + t2 * 64 + t3)%N in
                if (n <? 2048)%N then None else Some (n, r3)
            | _, _ => None
            end
        | _ => None
        end
      else if (b1 <? 245)%N then
        match r1 with
        | String c2 (String c3 (String c4 r4)) =>
            match tail c2, tail c3, tail c4 with
            | Some t2, Some t3, Some t4 =>
                let n := ((b1 - 240) * 262144 + t2 * 4096 + t3 * 64 + t4)%N in
                if (n <? 65536)%N || (1114111 <? n)%N then None else Some (n, r4)
            | _, _, _ => None
            end
        | _ => None
        end
      else None
  end.

(** [chr(n)] *)
Definition encode (n : N) : string :=
  if (n <? 128)%N then String (ascii_of_N n) ""
  else if (n <? 2048)%N then
    String (ascii_of_N (192 + n / 64))
      (String (ascii_of_N (128 + n mod 64)) "")
  else if (n <? 65536)%N then
    String (ascii_of_N (224 + n / 4096))
      (String (ascii_of_N (128 + (n / 64) mod 64))
         (String (ascii_of_N (128 + n mod 64)) ""))
  else
    String (ascii_of_N (240 + n / 262144))
      (String (ascii_of_N (128 + (n / 4096) mod 64))
         (String (ascii_of_N (128 + (n / 64) mod 64))
            (String (ascii_of_N (128 + n mod 64)) ""))).

(** [ord(ch)] for a text of one character. *)
Definition ord (ch : string) : N :=
  match next ch with
  | Some (n, _) => n
  | None => 0
  end.

(** The code points of a text, in order. *)
Definition codes (s : string) : list N := map ord (Str.chars s).

Definition text (ns : list N) : string := String.concat "" (map encode ns).

Definition is_surrogate (n : N) : bool := (55296 <=? n)%N && (n <=? 57343)%N.

Definition is_high (n : N) : bool := (55296 <=? n)%N && (n <=? 56319)%N.

Definition is_low (n : N) : bool := (56320 <=? n)%N && (n <=? 57343)%N.

(** The code points: up to U+10FFFF. *)
Definition valid (n : N) : Prop := (n < 1114112)%N.

(** A text that does not start in the middle of a character. *)
Definition clean (s : string) : Prop := Str.continuation s = "".

(** A lead surrogate right before a trail surrogate, as two characters. *)
Fixpoint split_pair (ns : list N) : bool :=
  match ns with
  | [] => false
  | a :: rest =>
      match rest with
      | b :: _ => (is_high a && is_low b) || split_pair rest
      | [] => false
      end
  end.

End Utf8.

(** ** The JSON library

    Modelled from the library's documentation.  [json.dumps] with an
    indentation and [json.loads], with the C scanner and encoder, which
    are the ones in use: the digits of a number and of a [\u] escape are ASCII
    digits.  The text of an upload is taken as UTF-8, with or without a
    byte order mark, which the library skips; the library also reads
    UTF-16 and UTF-32, which gives no other documents.  Every failure of the decoder is a
    [ValueError]: the parse errors and, for bytes that are not UTF-8, the
    error of the decoding that precedes the scan; here the bytes are
    checked where the scan meets them, outside a string as no token and
    inside a string character by character.  [RecursionError] stands for
    a scan that runs out of the fuel it is given, which the scan started
    by [loads] never does; the library has no such bound but that of the
    interpreter's stack, which is not modelled.  The
    limit that some versions put on the digits of an integer is not
    modelled either.

    The shortest decimal text of a [float] and the conversion of a
    decimal text to a [float] are parameters. *)

Module Json.

Section Codec.

Variable float_repr : spec_float -> string.
Variable parse_float : string -> spec_float.

Definition backslash : string := String (ascii_of_nat 92) EmptyString.

(** *** The encoder *)

Definition hex_digit (n : N) : ascii :=
  if (n <? 10)%N then ascii_of_N (48 + n) else ascii_of_N (87 + n).

(** [format(n, "04x")] *)
Definition hex4 (n : N) : string :=
  String (hex_digit (n / 4096))
    (String (hex_digit ((n / 256) mod 16))
       (String (hex_digit ((n / 16) mod 16))
          (String (hex_digit (n mod 16)) ""))).

(** What the encoder puts for one character: itself from the blank to
    the tilde, except for the quote and the backslash; a short escape
    where there is one; otherwise [\uXXXX], twice for a character beyond
    U+FFFF, which is given as a pair of surrogates. *)
Definition escape (n : N) : string :=
  if (n =? 34)%N then backslash ++ dq
  else if (n =? 92)%N then backslash ++ backslash
  else if (n =? 10)%N then backslash ++ "n"
  else if (n =? 13)%N then backslash ++ "r"
  else if (n =? 9)%N then backslash ++ "t"
  else if (n =? 12)%N then backslash ++ "f"
  else if (n =? 8)%N then backslash ++ "b"
  else if (32 <=? n)%N && (n <=? 126)%N then String (ascii_of_N n) ""
  else if (n <? 65536)%N then backslash ++ "u" ++ hex4 n
  else
    let v := (n - 65536)%N in
    backslash ++ "u" ++ hex4 (55296 + v / 1024)
    ++ backslash ++ "u" ++ hex4 (56320 + v mod 1024).

Definition encode_basestring_ascii (s : string) : string :=
  dq ++ String.concat "" (map escape (Utf8.codes s)) ++ dq.

Definition floatstr (f : spec_float) : string :=
  match f with
  | S754_nan => "NaN"
  | S754_infinity false => "Infinity"
  | S754_infinity true => "-Infinity"
  | _ => float_repr f
  end.

Fixpoint spaces (n : nat) : string :=
  match n with
  | O => ""
  | S n' => String " " (spaces n')
  end.

Definition newline_indent (indent level : nat) : string :=
  nl ++ spaces (indent * level).

Fixpoint iterencode (indent level : nat) (v : value) : string :=
  match v with
  | VNone => "null"
  | VBool b => if b then "true" else "false"
  | VInt z => Fmt.decimal z
  | VFloat f => floatstr f
  | VStr s => encode_basestring_ascii s
  | VList l =>
      match l with
      | [] => "[]"
      | _ :: _ =>
          "[" ++ newline_indent indent (S level)
          ++ String.concat ("," ++ newline_indent indent (S level))
               (map (iterencode indent (S level)) l)
          ++ newline_indent indent level ++ "]"
      end
  | VDict kvs =>
      match kvs with
      | [] => "{}"
      | _ :: _ =>
          "{" ++ newline_indent indent (S level)
          ++ String.concat ("," ++ newline_indent indent (S level))
               (map (fun kv : string * value => let (k, x) := kv in
                       encode_basestring_ascii k ++ ": "
                       ++ iterencode indent (S level) x) kvs)
          ++ newline_indent indent level ++ "}"
      end
  end.

(** [json.dumps(v, indent=indent)] on a parsed document. *)
Definition dumps (indent : nat) (v : value) : string := iterencode indent 0 v.

(** *** The decoder *)

Definition is_ws (c : ascii) : bool :=
  let n := Str.byte c in
  (n =? 32)%nat || (n =? 9)%nat || (n =? 10)%nat || (n =? 13)%nat.

Fixpoint skip_ws (s : string) : string :=
  match s with
  | EmptyString => EmptyString
  | String c rest => if is_ws c then skip_ws rest else s
  end.

Definition is_quote (c : ascii) : bool := (Str.byte c =? 34)%nat.

Definition is_digit (c : ascii) : bool :=
  (48 <=? Str.byte c)%nat && (Str.byte c <=? 57)%nat.

(** The digits at the start of a text and the text after them. *)
Fixpoint digits (s : string) : string * string :=
  match s with
  | EmptyString => (EmptyString, EmptyString)
  | String c rest =>
      if is_digit c then let (ds, r) := digits rest in (String c ds, r)
      else (EmptyString, s)
  end.

(** The three groups of the number pattern: a whole part, which is a
    zero or starts with another digit, behind an optional minus sign; a
    point with digits; an exponent with an optional sign and digits.  A
    group that does not match in full is left out. *)
Definition integer (s : string) : option (string * string) :=
  let (sign, r) :=
    match s with
    | String c r => if Ascii.eqb c "-" then ("-", r) else ("", s)
    | EmptyString => ("", s)
    end in
  match r with
  | EmptyString => None
  | String c r' =>
      if Ascii.eqb c "0" then Some (sign ++ "0", r')
      else if is_digit c then let (ds, r'') := digits r' in Some (sign ++ String c ds, r'')
      else None
  end.

Definition fraction (s : string) : string * string :=
  match s with
  | EmptyString => ("", s)
  | String c r =>
      if Ascii.eqb c "." then
        match digits r with
        | (EmptyString, _) => ("", s)
        | (ds, r') => (String c ds, r')
        end
      else ("", s)
  end.

Definition exponent (s : string) : string * string :=
  match s with
  | EmptyString => ("", s)
  | String c r =>
      if Ascii.eqb c "e" || Ascii.eqb c "E" then
        let (sign, r1) :=
          match r with
          | String c' r1 =>
              if Ascii.eqb c' "+" || Ascii.eqb c' "-" then (String c' "", r1)
              else ("", r)
          | EmptyString => ("", r)
          end in
        match digits r1 with
        | (EmptyString, _) => ("", s)
        | (ds, r2) => (String c (sign ++ ds), r2)
        end
      else ("", s)
  end.

(** [int(s)] on the first group of the pattern. *)
Definition parse_int (s : string) : Z :=
  match NilZero.int_of_string s with
  | Some d => Z.of_int d
  | None => 0%Z
  end.

Definition match_number (s : string) : option (value * string) :=
  match integer s with
  | None => None
  | Some (whole, r) =>
      let (frac, r1) := fraction r in
      let (exp, r2) := exponent r1 in
      Some (if String.eqb frac "" && String.eqb exp ""
            then VInt (parse_int whole)
            else VFloat (parse_float (whole ++ frac ++ exp)), r2)
  end.

Definition hex_value (c : ascii) : option N :=
  let n := Utf8.code c in
  if (48 <=? n)%N && (n <=? 57)%N then Some (n - 48)%N
  else if (97 <=? n)%N && (n <=? 102)%N then Some (n - 87)%N
  else if (65 <=? n)%N && (n <=? 70)%N then Some (n - 55)%N
  else None.

(** The four hexadecimal digits of a [\u] escape. *)
Definition read_hex4 (s : string) : option (N * string) :=
  match s with
  | String c1 (String c2 (String c3 (String c4 rest))) =>
      match hex_value c1, hex_value c2, hex_value c3, hex_value c4 with
      | Some a, Some b, Some c, Some d =>
          Some (a * 4096 + b * 256 + c * 16 + d, rest)%N
      | _, _, _, _ => None
      end
  | _ => None
  end.

(** The characters of the short escapes. *)
Definition unescape (c : ascii) : option N :=
  let n := Str.byte c in
  if (n =? 34)%nat then Some 34%N
  else if (n =? 92)%nat then Some 92%N
  else if (n =? 47)%nat then Some 47%N
  else if (n =? 98)%nat then Some 8%N
  else if (n =? 102)%nat then Some 12%N
  else if (n =? 110)%nat then Some 10%N
  else if (n =? 114)%nat then Some 13%N
  else if (n =? 116)%nat then Some 9%N
  else None.

(** The text behind the two characters that open a [\u] escape. *)
Definition escape_u (s : string) : option string :=
  match s with
  | String b (String u rest) =>
      if (Str.byte b =? 92)%nat && Ascii.eqb u "u" then Some rest else None
  | _ => None
  end.

(** The character of a pair of surrogates. *)
Definition join_pair (high low : N) : N :=
  (65536 + (high - 55296) * 1024 + (low - 56320))%N.

(** [scanstring], from behind the opening quote: the text of the string
    and the text after the closing quote.  [scan] stands for the rounds
    that follow the character at hand. *)
Definition scanned (scan : string -> result (string * string)) (n : N)
  (rest : string) : result (string * string) :=
  x <- scan rest ;; Ok (Utf8.encode n ++ fst x, snd x).

(** Behind [\u]: four digits; the escape of a lead surrogate that is
    followed by the escape of a trail surrogate gives one character. *)
Definition scan_unicode (scan : string -> result (string * string))
  (s : string) : result (string * string) :=
  match read_hex4 s with
  | None => Raise ValueError
  | Some (uni, rest) =>
      match (if Utf8.is_high uni then escape_u rest else None) with
      | Some rest' =>
          match read_hex4 rest' with
          | None => Raise ValueError
          | Some (uni2, rest2) =>
              if Utf8.is_low uni2
              then scanned scan (join_pair uni uni2) rest2
              else scanned scan uni rest
          end
      | None => scanned scan uni rest
      end
  end.

(** Behind a backslash. *)
Definition scan_escape (scan : string -> result (string * string))
  (s : string) : result (string * string) :=
  match s with
  | EmptyString => Raise ValueError
  | String e rest =>
      if Ascii.eqb e "u" then scan_unicode scan rest
      else
        match unescape e with
        | Some n => scanned scan n rest
        | None => Raise ValueError
        end
  end.

(** One character of the string: the closing quote, an escape, or the
    character itself, which is no control character. *)
Definition scan_char (scan : string -> result (string * string)) (s : string) :
  result (string * string) :=
  match Utf8.next s with
  | None => Raise ValueError
  | Some (n, rest) =>
      if (n =? 34)%N then Ok ("", rest)
      else if (n =? 92)%N then scan_escape scan rest
      else if (n <? 32)%N then Raise ValueError
      else scanned scan n rest
  end.

Fixpoint scanstring (fuel : nat) (s : string) : result (string * string) :=
  match fuel with
  | O => Raise RecursionError
  | S fuel' => scan_char (scanstring fuel') s
  end.

(** [dict(pairs)]: a key that comes again keeps its place and takes the
    later value. *)
Fixpoint update (k : string) (v : value) (kvs : list (string * value)) :
  list (string * value) :=
  match kvs with
  | [] => [(k, v)]
  | (k', v') :: rest =>
      if String.eqb k k' then (k, v) :: rest else (k', v') :: update k v rest
  end.

Definition dict (pairs : list (string * value)) : list (string * value) :=
  fold_left (fun acc kv => update (fst kv) (snd kv) acc) pairs [].

Definition after (n : nat) (s : string) : string :=
  String.substring n (String.length s - n) s.

(** The elements of an array, from its first element, with [scan] for
    a value. *)
Fixpoint elements (scan : string -> result (value * string)) (k : nat)
  (s : string) : result (list value * string) :=
  match k with
  | O => Raise RecursionError
  | S k' =>
      x <- scan s ;;
      match skip_ws (snd x) with
      | EmptyString => Raise ValueError
      | String c r =>
          if Ascii.eqb c "]" then Ok ([fst x], r)
          else if Ascii.eqb c "," then
            xs <- elements scan k' (skip_ws r) ;; Ok (fst x :: fst xs, snd xs)
          else Raise ValueError
      end
  end.

(** The members of an object, from behind the opening quote of its
    first key. *)
Fixpoint members (scan : string -> result (value * string))
  (string_at : string -> result (string * string)) (k : nat) (s : string) :
  result (list (string * value) * string) :=
  match k with
  | O => Raise RecursionError
  | S k' =>
      key <- string_at s ;;
      match skip_ws (snd key) with
      | EmptyString => Raise ValueError
      | String colon r =>
          if Ascii.eqb colon ":" then
            x <- scan (skip_ws r) ;;
            match skip_ws (snd x) with
            | EmptyString => Raise ValueError
            | String c r' =>
                if Ascii.eqb c "}" then Ok ([(fst key, fst x)], r')
                else if Ascii.eqb c "," then
                  match skip_ws r' with
                  | EmptyString => Raise ValueError
                  | String q r'' =>
                      if is_quote q then
                        xs <- members scan string_at k' r'' ;;
                        Ok ((fst key, fst x) :: fst xs, snd xs)
                      else Raise ValueError
                  end
                else Raise ValueError
            end
          else Raise ValueError
      end
  end.

(** A value at the start of the text and the text after it, with [scan]
    for the values inside it. *)
Definition scan_value (fuel : nat) (scan : string -> result (value * string))
  (s : string) : result (value * string) :=
  match s with
  | EmptyString => Raise ValueError
  | String c rest =>
      if is_quote c then
        x <- scanstring fuel rest ;; Ok (VStr (fst x), snd x)
      else if Ascii.eqb c "{" then
        match skip_ws rest with
        | EmptyString => Raise ValueError
        | String c' r =>
            if Ascii.eqb c' "}" then Ok (VDict [], r)
            else if is_quote c' then
              xs <- members scan (scanstring fuel) fuel r ;;
              Ok (VDict (dict (fst xs)), snd xs)
            else Raise ValueError
        end
      else if Ascii.eqb c "[" then
        match skip_ws rest with
        | EmptyString => Raise ValueError
        | String c' r =>
            if Ascii.eqb c' "]" then Ok (VList [], r)
            else xs <- elements scan fuel (String c' r) ;; Ok (VList (fst xs), snd xs)
        end
      else if String.prefix "null" s then Ok (VNone, after 4 s)
      else if String.prefix "true" s then Ok (VBool true, after 4 s)
      else if String.prefix "false" s then Ok (VBool false, after 5 s)
      else
        match match_number s with
        | Some x => Ok x
        | None =>
            if String.prefix "NaN" s then Ok (VFloat S754_nan, after 3 s)
            else if String.prefix "Infinity" s
            then Ok (VFloat (S754_infinity false), after 8 s)
            else if String.prefix "-Infinity" s
            then Ok (VFloat (S754_infinity true), after 9 s)
            else Raise ValueError
        end
  end.

(** [scan_once] *)
Fixpoint scan_once (fuel : nat) (s : string) : result (value * string) :=
  match fuel with
  | O => Raise RecursionError
  | S fuel' => scan_value fuel' (scan_once fuel') s
  end.

(** The byte order mark of UTF-8. *)
Definition bom : string :=
  String (ascii_of_nat 239) (String (ascii_of_nat 187) (String (ascii_of_nat 191) "")).

(** [json.loads(text)] on the bytes of an upload: one value, white space
    around it and nothing else. *)
Definition loads (text : string) : result value :=
  let body := if String.prefix bom text then after 3 text else text in
  x <- scan_once (S (String.length body)) (skip_ws body) ;;
  match skip_ws (snd x) with
  | EmptyString => Ok (fst x)
  | String _ _ => Raise ValueError
  end.

End Codec.

(** *** Documents and texts, for the facts about the two functions *)

(** What may follow a number: nothing that a number could go on with. *)
Definition stops (s : string) : bool :=
  match s with
  | EmptyString => true
  | String c _ =>
      negb (is_digit c || Ascii.eqb c "." || Ascii.eqb c "e"
            || Ascii.eqb c "E" || Ascii.eqb c "+" || Ascii.eqb c "-")
  end.

(** A text that the number pattern takes in full, with a fraction or an
    exponent. *)
Definition float_literal (s : string) : bool :=
  match integer s with
  | None => false
  | Some (_, r) =>
      let (frac, r1) := fraction r in
      let (exp, r2) := exponent r1 in
      String.eqb r2 "" && negb (String.eqb frac "" && String.eqb exp "")
  end.

Definition is_finite (f : spec_float) : bool :=
  match f with
  | S754_zero _ | S754_finite _ _ _ => true
  | _ => false
  end.

(** No character of the text is a surrogate. *)
Definition no_surrogate (s : string) : bool :=
  forallb (fun n => negb (Utf8.is_surrogate n)) (Utf8.codes s).

(** No lead surrogate of the text is right before a trail surrogate. *)
Definition pairs_joined (s : string) : bool :=
  negb (Utf8.split_pair (Utf8.codes s)).

Fixpoint all_strings (P : string -> bool) (v : value) : bool :=
  match v with
  | VStr s => P s
  | VList l => forallb (all_strings P) l
  | VDict kvs =>
      forallb (fun kv : string * value => let (k, x) := kv in
                 P k && all_strings P x) kvs
  | _ => true
  end.

(** No string of the document, key or value, has a lead surrogate right
    before a trail surrogate as two characters. *)
Definition joined (d : value) : bool := all_strings pairs_joined d.

(** The bytes are the encoding of a sequence of code points. *)
Definition is_text (s : string) : Prop :=
  exists ns, s = Utf8.text ns /\ Forall Utf8.valid ns.

Section Documents.

Variable float_repr : spec_float -> string.
Variable parse_float : string -> spec_float.

(** The text of a finite float is a number with a fraction or an
    exponent, and it is read back as the same float. *)
Definition float_kept (f : spec_float) : Prop :=
  is_finite f = true ->
  float_literal (float_repr f) = true /\ parse_float (float_repr f) = f.

(** What the decoder can return: the strings are texts, the keys of a
    mapping differ, the floats are kept. *)
Fixpoint well_formed (v : value) : Prop :=
  match v with
  | VFloat f => float_kept f
  | VStr s => is_text s
  | VList l => fold_right and True (map well_formed l)
  | VDict kvs =>
      NoDup (map fst kvs)
      /\ fold_right and True
           (map (fun kv : string * value => let (k, x) := kv in
                   is_text k /\ well_formed x) kvs)
  | _ => True
  end.

Definition wf_member (kv : string * value) : Prop :=
  is_text (fst kv) /\ well_formed (snd kv).

End Documents.

(** The fuel that the scan of a value's text needs. *)
Fixpoint size (v : value) : nat :=
  match v with
  | VStr s => 2 + List.length (Utf8.codes s)
  | VList l => 1 + list_sum (map size l)
  | VDict kvs =>
      1 + list_sum (map (fun kv : string * value => let (k, x) := kv in
                           2 + List.length (Utf8.codes k) + size x) kvs)
  | _ => 1
  end.

(** What the text of a value can start with. *)
Definition value_head (c : ascii) : bool :=
  is_quote c || Ascii.eqb c "{" || Ascii.eqb c "[" || Ascii.eqb c "n"
  || Ascii.eqb c "t" || Ascii.eqb c "f" || Ascii.eqb c "N" || Ascii.eqb c "I"
  || Ascii.eqb c "-" || is_digit c.

Definition number_head (c : ascii) : bool := Ascii.eqb c "-" || is_digit c.

Definition opens (s : string) : bool :=
  match s with
  | EmptyString => false
  | String c _ => value_head c
  end.

(** What follows the escape of a lead surrogate is not the escape of a
    trail surrogate. *)
Definition ahead_ok (n : N) (rest : string) : Prop :=
  Utf8.is_high n = true ->
  match escape_u rest with
  | Some rest' =>
      exists uni rest2, read_hex4 rest' = Some (uni, rest2) /\ Utf8.is_low uni = false
  | None => True
  end.

Definition escapes (ns : list N) : string := String.concat "" (map escape ns).

(** A value that [scan] reads back from its text [enc]. *)
Definition reads (scan : string -> result (value * string))
  (enc : value -> string) (x : value) : Prop :=
  opens (enc x) = true
  /\ forall rest, stops rest = true -> scan (enc x ++ rest) = Ok (x, rest).

(** The text of a key behind its opening quote. *)
Definition key_tail (k : string) : string := escapes (Utf8.codes k) ++ dq.

Definition member (enc : value -> string) (kv : string * value) : string :=
  let (k, x) := kv in encode_basestring_ascii k ++ ": " ++ enc x.

Definition reads_key (string_at : string -> result (string * string))
  (k : string) : Prop :=
  forall rest, string_at (key_tail k ++ rest) = Ok (k, rest).

(** What a scanner leaves of its text is a proper suffix of it. *)
Definition leaves (s r : string) : Prop :=
  exists p, s = p ++ r /\ (1 <= String.length p)%nat.

(** The decoder is written with a bound on its calls, which stands for
    the recursion of the source; a result is [fuelled] when the bound
    was not reached. *)
Definition fuelled {A : Type} (m : result A) : Prop := m <> Raise RecursionError.

(** The text starts with the escape of a trail surrogate. *)
Definition low_ahead (s : string) : bool :=
  match escape_u s with
  | Some rest =>
      match read_hex4 rest with
      | Some (uni, _) => Utf8.is_low uni
      | None => false
      end
  | None => false
  end.

Definition head_low (ns : list N) : bool :=
  match ns with
  | n :: _ => Utf8.is_low n
  | [] => false
  end.

(** What the string scanner returns on a text without surrogates: a
    text whose surrogates, which come from escapes, are no split pair,
    and which starts with a trail surrogate only if the scanned text
    starts with the escape of one. *)
Definition scanned_well (s out : string) : Prop :=
  exists ns, out = Utf8.text ns /\ Forall Utf8.valid ns
             /\ Utf8.split_pair ns = false
             /\ (low_ahead s = false -> head_low ns = false).

(** A member whose key and value have no split pair. *)
Definition joined_member (kv : string * value) : Prop :=
  pairs_joined (fst kv) = true /\ joined (snd kv) = true.

End Json.

(** ** The standalone document and the script

    The shortest decimal text of a [float] and the quoted form of a [str]
    (which the interpreter uses when it prints a list or a dict) are
    parameters; the clock is read once per document and is the argument
    [now]. *)

Section Rendering.

Variable float_repr : spec_float -> string.
Variable str_repr : string -> string.

Fixpoint py_repr (v : value) : string :=
  match v with
  | VNone => "None"
  | VBool b => if b then "True" else "False"
  | VInt z => Fmt.decimal z
  | VFloat f => float_repr f
  | VStr s => str_repr s
  | VList l => "[" ++ String.concat ", " (map py_repr l) ++ "]"
  | VDict kvs =>
      "{" ++ String.concat ", "
               (map (fun kv : string * value => let (k, x) := kv in
                               str_repr k ++ ": " ++ py_repr x) kvs) ++ "}"
  end.

(** [str(v)], which is what an empty format specification gives. *)
Definition py_str (v : value) : string :=
  match v with
  | VStr s => s
  | _ => py_repr v
  end.

(** The elements a [for] loop sees. *)
Definition py_iter (v : value) : result (list value) :=
  match v with
  | VList l => Ok l
  | VStr s => Ok (map VStr (Str.chars s))
  | VDict kvs => Ok (map (fun kv => VStr (fst kv)) kvs)
  | _ => Raise TypeError
  end.

Definition py_len (v : value) : result Z :=
  match v with
  | VList l => Ok (Z.of_nat (List.length l))
  | VStr s => Ok (Z.of_nat (List.length (Str.chars s)))
  | VDict kvs => Ok (Z.of_nat (List.length kvs))
  | _ => Raise TypeError
  end.

Definition card_open (heading : string) : string :=
  String.concat nl
    [""; "<div class=" ++ dq ++ "card" ++ dq ++ ">"; "<h2>" ++ heading ++ "</h2>"; ""].

Definition page_head : string :=
  String.concat nl
    [""; "<!DOCTYPE html>"; "<html>"; "<head>";
     "<meta charset=" ++ dq ++ "utf-8" ++ dq ++ ">"; ""].

Definition page_style : string :=
  String.concat nl
    [""; "<style>";
     "body {";
     "    font-family: Arial, sans-serif;";
     "    background: #0f172a;";
     "    color: #e5e7eb;";
     "    padding: 2rem;";
     "}";
     ".card {";
     "    background: #020617;";
     "    padding: 1.5rem;";
     "    border-radius: 12px;";
     "    margin-bottom: 1rem;";
     "}";
     "h1,h2 {";
     "    color: #22c55e;";
     "}";
     "</style>"; "</head>"; "<body>"; ""; ""].

Definition card_close : string := String.concat nl [""; "</div>"; ""].

Definition page_footer : string :=
  String.concat nl
    [""; "<footer style=" ++ dq
         ++ "margin-top:3rem;color:#94a3b8;font-size:0.8rem" ++ dq ++ ">";
     "Generated "].

Definition page_end : string :=
  String.concat nl [""; "</footer>"; ""; "</body>"; "</html>"; ""].

(** The text of the template before the time stamp, with the
    replacement fields filled in. *)
Definition page_before (company period_start period_end total_months
                        int_score int_rating vol_index vol_level
                        kite_score kite_level items : string) : string :=
  page_head ++ "<title>Bank Statement Analysis - " ++ company ++ "</title>"
  ++ page_style
  ++ "<h1>" ++ company ++ "</h1>" ++ nl
  ++ "<p>Period: " ++ period_start ++ " → " ++ period_end
  ++ " (" ++ total_months ++ " months)</p>" ++ nl
  ++ card_open "Integrity Score"
  ++ "<p>" ++ int_score ++ "% — " ++ int_rating ++ "</p>" ++ card_close
  ++ card_open "Volatility"
  ++ "<p>" ++ vol_index ++ "% — " ++ vol_level ++ "</p>" ++ card_close
  ++ card_open "Kite Flying Risk"
  ++ "<p>" ++ kite_score ++ " — " ++ kite_level ++ "</p>" ++ card_close
  ++ card_open "Observations"
  ++ "<ul>" ++ nl ++ items ++ nl ++ "</ul>" ++ card_close
  ++ page_footer.

Definition list_item (o : value) : string := "<li>" ++ py_str o ++ "</li>".

Definition generate_interactive_html (data : value) (now : string)
  : result string :=
  schema_version <- detect_schema_version data ;;
  r <- Py.get data "report_info" (VDict []) ;;
  accounts <- Py.get data "accounts" (VList []) ;;
  consolidated <- Py.get data "consolidated" (VDict []) ;;
  flags <- Py.get data "flags" (VDict []) ;;
  integrity <- Py.get data "integrity_score" (VDict []) ;;
  volatility <- Py.get data "volatility" (VDict []) ;;
  kite <- Py.get data "kite_flying" (VDict []) ;;
  observations <- Py.get data "observations" (VDict []) ;;
  recommendations <- Py.get data "recommendations" (VList []) ;;
  company <- resolve_company_name data "Company" ;;
  period_start <- Py.get r "period_start" (VStr "") ;;
  period_end <- Py.get r "period_end" (VStr "") ;;
  total_months <- Py.get r "total_months" (VInt 0) ;;
  int_score <- Py.get integrity "score" (VInt 0) ;;
  int_rating <- Py.get integrity "rating" (VStr "N/A") ;;
  vol_index <- Py.get volatility "overall_index" (VInt 0) ;;
  vol_level <- Py.get volatility "overall_level" (VStr "LOW") ;;
  kite_score <- Py.get kite "risk_score" (VInt 0) ;;
  kite_level <- Py.get kite "risk_level" (VStr "LOW") ;;
  vol_text <- Fmt.fixed0 vol_index ;;
  positive <- Py.get observations "positive" (VList []) ;;
  observed <- py_iter positive ;;
  Ok (page_before company (py_str period_start) (py_str period_end)
        (py_str total_months) (py_str int_score) (py_str int_rating)
        vol_text (py_str vol_level) (py_str kite_score) (py_str kite_level)
        (String.concat "" (map list_item observed))
      ++ now ++ page_end).

(** The document up to the time stamp: [generate_interactive_html]
    without its last replacement field. *)
Definition document_before (data : value) : result string :=
  schema_version <- detect_schema_version data ;;
  r <- Py.get data "report_info" (VDict []) ;;
  accounts <- Py.get data "accounts" (VList []) ;;
  consolidated <- Py.get data "consolidated" (VDict []) ;;
  flags <- Py.get data "flags" (VDict []) ;;
  integrity <- Py.get data "integrity_score" (VDict []) ;;
  volatility <- Py.get data "volatility" (VDict []) ;;
  kite <- Py.get data "kite_flying" (VDict []) ;;
  observations <- Py.get data "observations" (VDict []) ;;
  recommendations <- Py.get data "recommendations" (VList []) ;;
  company <- resolve_company_name data "Company" ;;
  period_start <- Py.get r "period_start" (VStr "") ;;
  period_end <- Py.get r "period_end" (VStr "") ;;
  total_months <- Py.get r "total_months" (VInt 0) ;;
  int_score <- Py.get integrity "score" (VInt 0) ;;
  int_rating <- Py.get integrity "rating" (VStr "N/A") ;;
  vol_index <- Py.get volatility "overall_index" (VInt 0) ;;
  vol_level <- Py.get volatility "overall_level" (VStr "LOW") ;;
  kite_score <- Py.get kite "risk_score" (VInt 0) ;;
  kite_level <- Py.get kite "risk_level" (VStr "LOW") ;;
  vol_text <- Fmt.fixed0 vol_index ;;
  positive <- Py.get observations "positive" (VList []) ;;
  observed <- py_iter positive ;;
  Ok (page_before company (py_str period_start) (py_str period_end)
        (py_str total_months) (py_str int_score) (py_str int_rating)
        vol_text (py_str vol_level) (py_str kite_score) (py_str kite_level)
        (String.concat "" (map list_item observed))).

(** *** The script

    The calls the script makes on the interface library, in order.  The
    library is not part of the script: a call is recorded with its
    arguments.  Of these calls, [metric] is the one that is handed a value
    of the document as it is; the library takes a number, a string or
    [None] there and raises [TypeError] for anything else.  A text with
    a surrogate is not one that the library can send to the browser; the
    calls are recorded with their texts whatever these are, and the
    documents that are said to be rendered have no surrogate.  The text
    [json.dumps(data, indent=2)] is recorded as the value and the
    indentation. *)

Inductive payload : Type :=
| JsonDump (v : value) (indent : nat)
| Text (s : string).

Inductive call : Type :=
| set_page_config (page_title page_icon layout : string)
| title (body : string)
| caption (body : string)
| file_uploader (label : string) (types : list string)
| error (body : string)
| info (body : string)
| stop
| success (body : string)
| markdown (body : string)
| columns (n : nat)
| metric (column : nat) (label : string) (v : value)
| download_button (column : nat) (label : string) (data : payload)
    (file_name mime : string).

(** What the file uploader hands to the script: nothing, a file that
    [json.load] rejects with a message, or a file that it parses. *)
Inductive upload : Type :=
| NoFile
| Unparsable (message : string)
| Parsed (v : value).

(** A run of the script: the calls made so far and how it went on. *)
Definition script (A : Type) : Type := (list call * result A)%type.

Definition emit (c : call) : script unit := ([c], Ok tt).

Definition eval {A : Type} (m : result A) : script A := ([], m).

Definition then_ {A B : Type} (m : script A) (k : A -> script B) : script B :=
  match m with
  | (cs, Ok a) => let (cs', r) := k a in ((cs ++ cs')%list, r)
  | (cs, Raise e) => (cs, Raise e)
  end.

Notation "x <~ m ;; k" := (then_ m (fun x => k))
  (at level 61, m at next level, right associativity).
Notation "m ;;; k" := (then_ m (fun _ => k))
  (at level 61, right associativity).

(** [column.metric(label, value)] *)
Definition st_metric (column : nat) (label : string) (v : value) : script unit :=
  match v with
  | VList _ | VDict _ => eval (Raise TypeError)
  | _ => emit (metric column label v)
  end.

Definition file_name (company extension : string) : string :=
  Str.replace " " "_" company ++ "_analysis." ++ extension.

Definition preamble : list call :=
  [set_page_config "Bank Statement Analysis v5.0" "🏦" "wide";
   title "🏦 Bank Statement Analysis v5.0";
   caption "Backwards compatible with v4.0 schema";
   file_uploader "Upload JSON Analysis Output" ["json"]].

(** The part of the script after the guard [if not data]. *)
Definition report (data : value) (now : string) : script unit :=
  schema_version <~ eval (detect_schema_version data) ;;
  company <~ eval (resolve_company_name data "Unknown") ;;
  emit (success ("Loaded: " ++ company ++ " (Schema v" ++ schema_version ++ ")")) ;;;
  r <~ eval (Py.get data "report_info" (VDict [])) ;;
  period_start <~ eval (Py.get r "period_start" (VStr "")) ;;
  period_end <~ eval (Py.get r "period_end" (VStr "")) ;;
  total_months <~ eval (Py.get r "total_months" (VInt 0)) ;;
  emit (markdown ("**" ++ company ++ "**  " ++ nl
                  ++ py_str period_start ++ " → " ++ py_str period_end
                  ++ "  " ++ nl ++ py_str total_months ++ " Months")) ;;;
  emit (columns 4) ;;;
  integrity <~ eval (Py.get data "integrity_score" (VDict [])) ;;
  score <~ eval (Py.get integrity "score" (VInt 0)) ;;
  st_metric 1 "Integrity" (VStr (py_str score ++ "%")) ;;;
  kite <~ eval (Py.get data "kite_flying" (VDict [])) ;;
  risk_score <~ eval (Py.get kite "risk_score" (VInt 0)) ;;
  st_metric 2 "Kite Risk" risk_score ;;;
  volatility <~ eval (Py.get data "volatility" (VDict [])) ;;
  overall_index <~ eval (Py.get volatility "overall_index" (VInt 0)) ;;
  vol_text <~ eval (Fmt.fixed0 overall_index) ;;
  st_metric 3 "Volatility" (VStr (vol_text ++ "%")) ;;;
  accounts <~ eval (Py.get data "accounts" (VList [])) ;;
  count <~ eval (py_len accounts) ;;
  st_metric 4 "Accounts" (VInt count) ;;;
  emit (markdown "---") ;;;
  emit (columns 2) ;;;
  emit (download_button 1 "📄 Download JSON" (JsonDump data 2)
          (file_name company "json") "application/json") ;;;
  html <~ eval (generate_interactive_html data now) ;;
  emit (download_button 2 "🌐 Download HTML" (Text html)
          (file_name company "html") "text/html").

Definition main (uploaded_file : upload) (now : string) : script unit :=
  let (data, parse_calls) :=
    match uploaded_file with
    | NoFile => (VNone, [])
    | Unparsable message => (VNone, [error ("Invalid JSON: " ++ message)])
    | Parsed v => (v, [])
    end in
  if negb (Py.truthy data) then
    ((preamble ++ parse_calls ++ [info "👆 Upload a JSON file to begin"; stop])%list,
     Ok tt)
  else
    let (cs, r) := report data now in ((preamble ++ parse_calls ++ cs)%list, r).

End Rendering.

(** The text of a download. *)
Definition payload_text (float_repr : spec_float -> string) (p : payload) : string :=
  match p with
  | JsonDump v indent => Json.dumps float_repr indent v
  | Text s => s
  end.

(** The texts that a call sends to the browser. *)
Definition texts (float_repr : spec_float -> string) (c : call) : list string :=
  match c with
  | set_page_config page_title page_icon layout => [page_title; page_icon; layout]
  | title body | caption body | error body | info body | success body
  | markdown body => [body]
  | file_uploader label types => label :: types
  | stop | columns _ => []
  | metric _ label (VStr s) => [label; s]
  | metric _ label _ => [label]
  | download_button _ label data file_name mime =>
      [label; payload_text float_repr data; file_name; mime]
  end.

(** No text of the calls holds a surrogate. *)
Definition sendable (float_repr : spec_float -> string) (calls : list call) : bool :=
  forallb (fun c => forallb Json.no_surrogate (texts float_repr c)) calls.

(** ** The documented behaviour

    Definitions that follow the words of the specification, to be
    compared with the functions above.  A path is followed through
    mappings only; a step that is not there makes the whole path absent. *)

Module Spec.

Definition field (k : string) (v : value) : option value :=
  match v with
  | VDict kvs => Py.assoc k kvs
  | _ => None
  end.

Fixpoint path (ks : list string) (v : value) : option value :=
  match ks with
  | [] => Some v
  | k :: rest =>
      match field k v with
      | Some x => path rest x
      | None => None
      end
  end.

Definition lookup (ks : list string) (dflt : value) (v : value) : value :=
  match path ks v with
  | Some x => x
  | None => dflt
  end.

(** A field is non-empty when it is there and not empty in the sense of
    the language (not null, false, zero, nor an empty string, sequence or
    mapping). *)
Definition non_empty (o : option value) : bool :=
  match o with
  | Some v => Py.truthy v
  | None => false
  end.

Definition first (o : option value) : option value :=
  match o with
  | Some (VList (x :: _)) => Some x
  | _ => None
  end.

Definition then_field (k : string) (o : option value) : option value :=
  match o with
  | Some v => field k v
  | None => None
  end.

Definition has_key (k : string) (o : option value) : bool :=
  match then_field k o with
  | Some _ => true
  | None => false
  end.

Definition rule1 (d : value) : bool :=
  match path ["report_info"; "schema_version"] d with
  | Some (VStr s) => String.prefix "5." s
  | _ => false
  end.

Definition rule2 (d : value) : bool :=
  non_empty (field "recurring_payments" d)
  || non_empty (field "non_bank_financing" d).

Definition rule3 (d : value) : bool :=
  let accounts := field "accounts" d in
  let monthly := then_field "monthly_summary" (first accounts) in
  non_empty accounts && non_empty monthly
  && has_key "highest_intraday" (first monthly).

(** First match wins. *)
Definition schema_version (d : value) : string :=
  if rule1 d then "5.0"
  else if rule2 d then "5.0"
  else if rule3 d then "5.0"
  else "4.0".

(** The six places of a company name, in priority order. *)
Definition company_paths : list (list string) :=
  [["report_info"; "company_name"];
   ["report_info"; "company"];
   ["report_info"; "entity_name"];
   ["company_name"];
   ["company"];
   ["entity_name"]].

(** A candidate qualifies when it is a string whose trimmed value is not
    empty and, in lower case, not in the blocklist; what is returned is
    the trimmed value. *)
Definition qualifies (o : option value) : option string :=
  match o with
  | Some (VStr raw) =>
      let s := Str.strip raw in
      if String.eqb s "" then None
      else if blocked (Str.lower s) then None
      else Some s
  | _ => None
  end.

Fixpoint first_some {A : Type} (l : list (option A)) : option A :=
  match l with
  | [] => None
  | Some a :: _ => Some a
  | None :: rest => first_some rest
  end.

Definition qualifying (d : value) : option string :=
  first_some (map (fun p => qualifies (path p d)) company_paths).

Definition company_name (d : value) (default : string) : string :=
  match d with
  | VDict _ =>
      match qualifying d with
      | Some s => s
      | None => default
      end
  | _ => default
  end.

End Spec.

(** ** Shapes of documents *)

Definition is_mapping (v : value) : bool :=
  match v with VDict _ => true | _ => false end.

Definition is_string (v : value) : bool :=
  match v with VStr _ => true | _ => false end.

Definition absent_or (shape : value -> bool) (o : option value) : bool :=
  match o with
  | None => true
  | Some v => shape v
  end.

(** A sequence that is empty or starts with an element of the shape. *)
Definition sequence_of (shape : value -> bool) (v : value) : bool :=
  match v with
  | VList [] => true
  | VList (x :: _) => shape x
  | _ => false
  end.

Definition report_info_shape (v : value) : bool :=
  is_mapping v && absent_or is_string (Spec.field "schema_version" v).

Definition account_shape (v : value) : bool :=
  is_mapping v
  && absent_or (sequence_of is_mapping) (Spec.field "monthly_summary" v).

(** The fields that the detector reads have, where they are present,
    the shape that the data model gives them; every one of them may be
    absent. *)
Definition shaped (d : value) : bool :=
  is_mapping d
  && absent_or report_info_shape (Spec.field "report_info" d)
  && absent_or (sequence_of account_shape) (Spec.field "accounts" d).

(** The guard of the resolver on [report_info]: absent, a mapping, or
    anything false. *)
Definition report_info_guarded (d : value) : bool :=
  absent_or (fun v => is_mapping v || negb (Py.truthy v))
    (Spec.field "report_info" d).

(** Instances of the two parameters of the renderer for the closed
    examples below, whose documents hold no float and no string inside a
    list or mapping that is printed. *)
Module Sample.

Definition float_repr (f : spec_float) : string := "0.0".
Definition str_repr (s : string) : string := "'" ++ s ++ "'".
Definition parse_float (s : string) : spec_float := S754_zero false.

(** A reading of the clock. *)
Definition now : string := "2024-05-01T09:30:00".

End Sample.

(** What [v.get(k)] gives for an entry that may be absent. *)
Definition or_none (o : option value) : value :=
  match o with
  | Some x => x
  | None => VNone
  end.

(** ** Stages of the detector

    The second and third test of [detect_schema_version], named so that
    each can be compared with its rule on its own. *)

Definition v5_fields (data : value) : result bool :=
  recurring <- Py.get data "recurring_payments" VNone ;;
  if Py.truthy recurring then Ok true
  else financing <- Py.get data "non_bank_financing" VNone ;;
       Ok (Py.truthy financing).

Definition intraday (data : value) : result bool :=
  accounts <- Py.get data "accounts" (VList []) ;;
  if Py.truthy accounts then
    first_account <- Py.item0 accounts ;;
    monthly <- Py.get first_account "monthly_summary" (VList []) ;;
    if Py.truthy monthly then
      first_month <- Py.item0 monthly ;;
      Py.contains_str "highest_intraday" first_month
    else Ok false
  else Ok false.

Definition after_rule1 (data : value) : result string :=
  a <- v5_fields data ;;
  if a then Ok "5.0" else
  b <- intraday data ;;
  if b then Ok "5.0" else Ok "4.0".

(** A document on which the detector meets a value of the wrong type
    before its first test: the document or [report_info] is not a
    mapping, or [schema_version] is not a string. *)
Definition mistyped (d : value) : bool :=
  negb (is_mapping d)
  || negb (absent_or is_mapping (Spec.field "report_info" d))
  || negb (absent_or is_string (Spec.path ["report_info"; "schema_version"] d)).

(** A field is read as empty when it is absent: the mapping with the
    field set to the value that stands for it. *)
Definition with_field (k : string) (e : value) (d : value) : value :=
  match d with
  | VDict kvs => VDict ((k, e) :: kvs)
  | _ => d
  end.

Definition stands_for_absent (k : string) (e : value) : Prop :=
  (k = "report_info" /\ e = VDict [])
  \/ (In k ["recurring_payments"; "non_bank_financing"; "accounts"]
      /\ Py.truthy e = false).

(** ** What is on the screen

    A run of the script with the text of the standalone document taken
    out of the one call that carries it. *)

Definition screen (c : call) : call :=
  match c with
  | download_button column label (Text _) name mime =>
      download_button column label (Text "") name mime
  | _ => c
  end.

Definition on_screen {A : Type} (run : script A) : script A :=
  (map screen (fst run), snd run).

Definition and_then {A : Type} (c : call) (run : script A) : script A :=
  (c :: fst run, snd run).

(** The integer [n] is a nearest one to [m * 2^e]. *)
Definition nearest_to (n : Z) (m : positive) (e : Z) : Prop :=
  ((0 <= e)%Z -> n = (Zpos m * 2 ^ e)%Z)
  /\ ((e < 0)%Z -> (Z.abs (2 * (n * 2 ^ (- e) - Zpos m)) <= 2 ^ (- e))%Z).

(** ** Documents that can be rendered

    What the generator and the script need beyond the shape that the
    detector needs: the four mappings that they read are mappings where
    present, the risk score is a value that a metric takes, the volatility
    index can be printed as a float, the positive observations can be
    iterated, and no string of the document has a surrogate. *)

Definition is_number (v : value) : bool :=
  match v with
  | VInt z => (Z.abs z <? 2 ^ 1023)%Z
  | VBool _ | VFloat _ => true
  | _ => false
  end.

Definition is_iterable (v : value) : bool :=
  match v with
  | VList _ | VStr _ | VDict _ => true
  | _ => false
  end.

(** A value that [metric] takes: a number, a string or [None]. *)
Definition is_metric_value (v : value) : bool :=
  match v with
  | VList _ | VDict _ => false
  | _ => true
  end.

Definition renderable (d : value) : bool :=
  Json.all_strings Json.no_surrogate d
  && absent_or is_mapping (Spec.field "integrity_score" d)
  && absent_or is_mapping (Spec.field "volatility" d)
  && absent_or is_mapping (Spec.field "kite_flying" d)
  && absent_or is_mapping (Spec.field "observations" d)
  && is_metric_value (Spec.lookup ["kite_flying"; "risk_score"] (VInt 0) d)
  && is_number (Spec.lookup ["volatility"; "overall_index"] (VInt 0) d)
  && is_iterable (Spec.lookup ["observations"; "positive"] (VList []) d).

(** The top-level fields that each function reads. *)
Definition detector_fields : list string :=
  ["report_info"; "recurring_payments"; "non_bank_financing"; "accounts"].

Definition resolver_fields : list string :=
  ["report_info"; "company_name"; "company"; "entity_name"].

(** Two mappings with the same entries at the given keys. *)
Definition same_fields (ks : list string) (a b : list (string * value)) : Prop :=
  forall k, In k ks -> Py.assoc k a = Py.assoc k b.

(** The first two rules of the detector. *)
Definition early_match (d : value) : bool := Spec.rule1 d || Spec.rule2 d.

(** A value without elements to look into: the test [in] raises on it. *)
Definition is_scalar (v : value) : bool :=
  match v with
  | VNone | VBool _ | VInt _ | VFloat _ => true
  | _ => false
  end.

Definition has_char (c : ascii) (s : string) : bool :=
  existsb (Ascii.eqb c) (list_ascii_of_string s).

(** ** Documents of the examples *)

Module Doc.

(** [{"report_info": {"schema_version": 5}, "recurring_payments": [1]}] *)
Definition numeric_version : value :=
  VDict [("report_info", VDict [("schema_version", VInt 5)]);
         ("recurring_payments", VList [VInt 1])].

(** [{"report_info": {"schema_version": 5}}] *)
Definition numeric_version_only : value :=
  VDict [("report_info", VDict [("schema_version", VInt 5)])].

(** [{"report_info": 5}] *)
Definition numeric_report_info : value :=
  VDict [("report_info", VInt 5)].

(** [{"report_info": "x", "company_name": "Acme"}] *)
Definition text_report_info : value :=
  VDict [("report_info", VStr "x"); ("company_name", VStr "Acme")].

(** [{"report_info": {"schema_version": "5.2"}}] *)
Definition version_5_2 : value :=
  VDict [("report_info", VDict [("schema_version", VStr "5.2")])].

(** [{"recurring_payments": [1]}] *)
Definition recurring : value :=
  VDict [("recurring_payments", VList [VInt 1])].

(** [{"accounts": [{"monthly_summary": [{"highest_intraday": 100}]}]}] *)
Definition with_intraday : value :=
  VDict [("accounts",
          VList [VDict [("monthly_summary",
                         VList [VDict [("highest_intraday", VInt 100)]])]])].

(** [{"accounts": [{"monthly_summary": [{"balance": 100}]}]}] *)
Definition without_intraday : value :=
  VDict [("accounts",
          VList [VDict [("monthly_summary",
                         VList [VDict [("balance", VInt 100)]])]])].

(** [{"report_info": {"company_name": "Acme"}, "company": "Other"}] *)
Definition two_names : value :=
  VDict [("report_info", VDict [("company_name", VStr "Acme")]);
         ("company", VStr "Other")].

(** [{"report_info": {"company_name": "UNKNOWN", "company": "   "},
      "entity_name": 7, "company": " Acme Ltd "}] *)
Definition placeholders : value :=
  VDict [("report_info", VDict [("company_name", VStr "UNKNOWN");
                                ("company", VStr "   ")]);
         ("entity_name", VInt 7);
         ("company", VStr " Acme Ltd ")].

(** [{"report_info": {"company_name": "<script>alert(1)</script>"},
      "observations": {"positive": ["<b>fine</b>"]}}] *)
Definition script_name : value :=
  VDict [("report_info", VDict [("company_name", VStr "<script>alert(1)</script>")]);
         ("observations", VDict [("positive", VList [VStr "<b>fine</b>"])])].

(** [{"volatility": {"overall_index": 9007199254740993}}], the index
    being [2^53 + 1] *)
Definition big_index : value :=
  VDict [("volatility", VDict [("overall_index", VInt 9007199254740993)])].

(** [{"volatility": {"overall_index": 12.5, "overall_level": "MEDIUM"},
      "accounts": [{}, {}]}] *)
Definition half_index : value :=
  VDict [("volatility", VDict [("overall_index", VFloat (S754_finite false 25 (-1)));
                               ("overall_level", VStr "MEDIUM")]);
         ("accounts", VList [VDict []; VDict []])].

(** [{"report_info": {"company_name": "UNKNOWN"}, "company": "n/a"}] *)
Definition no_name : value :=
  VDict [("report_info", VDict [("company_name", VStr "UNKNOWN")]);
         ("company", VStr "n/a")].

(** [{"report_info": {"schema_version": "5.2"}, "accounts": 7}] *)
Definition version_5_2_bad_accounts : value :=
  VDict [("report_info", VDict [("schema_version", VStr "5.2")]);
         ("accounts", VInt 7)].

(** [{"accounts": {"main": {}}}] *)
Definition accounts_mapping : value :=
  VDict [("accounts", VDict [("main", VDict [])])].

(** [{"accounts": [{"monthly_summary": ["no highest_intraday here"]}]}] *)
Definition month_text : value :=
  VDict [("accounts",
          VList [VDict [("monthly_summary",
                         VList [VStr "no highest_intraday here"])]])].

(** [{"volatility": {"overall_index": "12.5"}}] *)
Definition text_index : value :=
  VDict [("volatility", VDict [("overall_index", VStr "12.5")])].

(** [{"company": " Acme Ltd ", "observations": {"positive": "ok"}}] *)
Definition text_observations : value :=
  VDict [("company", VStr " Acme Ltd ");
         ("observations", VDict [("positive", VStr "ok")])].

(** [{"report_info": {"company_name": "Acme", "period_start": "2024-01"},
      "integrity_score": {"score": 85, "rating": "GOOD"},
      "volatility": {"overall_index": 12.5},
      "observations": {"positive": ["steady inflows", "no overdraft"]},
      "accounts": [{}]}] *)
Definition complete : value :=
  VDict [("report_info", VDict [("company_name", VStr "Acme");
                                ("period_start", VStr "2024-01")]);
         ("integrity_score", VDict [("score", VInt 85); ("rating", VStr "GOOD")]);
         ("volatility", VDict [("overall_index", VFloat (S754_finite false 25 (-1)))]);
         ("observations", VDict [("positive", VList [VStr "steady inflows";
                                                     VStr "no overdraft"])]);
         ("accounts", VList [VDict []])].

Definition quoted (s : string) : string := dq ++ s ++ dq.

(** The bytes of an upload:
    [{"report_info": {"company_name": "Acme Ltd"}, "accounts": [{}, {}],
      "integrity_score": {"score": 85}, "volatility": {"overall_index": 0.0}}] *)
Definition upload_text : string :=
  "{" ++ quoted "report_info" ++ ": {" ++ quoted "company_name" ++ ": "
  ++ quoted "Acme Ltd" ++ "}, " ++ quoted "accounts" ++ ": [{}, {}],"
  ++ nl ++ "  " ++ quoted "integrity_score" ++ ": {" ++ quoted "score" ++ ": 85}, "
  ++ quoted "volatility" ++ ": {" ++ quoted "overall_index" ++ ": 0.0}}".

(** What [json.load] makes of it. *)
Definition uploaded : value :=
  VDict [("report_info", VDict [("company_name", VStr "Acme Ltd")]);
         ("accounts", VList [VDict []; VDict []]);
         ("integrity_score", VDict [("score", VInt 85)]);
         ("volatility", VDict [("overall_index", VFloat (S754_zero false))])].

(** U+D83D and U+DE00, a lead and a trail surrogate, as two characters:
    the bytes ED A0 BD ED B8 80. *)
Definition two_surrogates : string :=
  String (ascii_of_nat 237) (String (ascii_of_nat 160) (String (ascii_of_nat 189)
    (String (ascii_of_nat 237) (String (ascii_of_nat 184)
       (String (ascii_of_nat 128) ""))))).

(** U+1F600, the character of that pair: the bytes F0 9F 98 80. *)
Definition one_character : string :=
  String (ascii_of_nat 240) (String (ascii_of_nat 159) (String (ascii_of_nat 152)
    (String (ascii_of_nat 128) ""))).

(** The bytes of an upload with the two surrogates in a string:
    [{"notes": "..."}] *)
Definition split_pair_text : string :=
  "{" ++ quoted "notes" ++ ": " ++ quoted two_surrogates ++ "}".

Definition split_pair : value := VDict [("notes", VStr two_surrogates)].

Definition joined_pair : value := VDict [("notes", VStr one_character)].

End Doc.

(** * Facts *)

(** ** The error monad *)

Lemma bind_Ok {A B : Type} (m : result A) (k : A -> result B) (b : B) :
  bind m k = Ok b -> exists a, m = Ok a /\ k a = Ok b.
Proof.
  destruct m as [a|e]; cbn [bind]; [|discriminate].
  intros H. exists a. split; [reflexivity|exact H].
Qed.

(** ** Schema detection *)

Lemma detect_unfold data :
  detect_schema_version data =
  (report_info <- Py.get data "report_info" (VDict []) ;;
   schema_version <- Py.get report_info "schema_version" (VStr "") ;;
   five <- Py.startswith schema_version "5." ;;
   if five then Ok "5.0" else after_rule1 data).
Proof.
  destruct data; reflexivity.
Qed.

Lemma v5_fields_rule2 kvs :
  v5_fields (VDict kvs) = Ok (Spec.rule2 (VDict kvs)).
Proof.
  unfold v5_fields, Spec.rule2, Spec.non_empty, Spec.field.
  cbn [Py.get bind].
  destruct (Py.assoc "recurring_payments" kvs) as [rp|];
    destruct (Py.assoc "non_bank_financing" kvs) as [fin|]; cbn [Py.truthy];
    try destruct (Py.truthy rp); try reflexivity.
Qed.

Lemma intraday_rule3 kvs :
  absent_or (sequence_of account_shape) (Spec.field "accounts" (VDict kvs)) = true ->
  intraday (VDict kvs) = Ok (Spec.rule3 (VDict kvs)).
Proof.
  unfold intraday, Spec.rule3, Spec.has_key, Spec.then_field, Spec.first,
    Spec.non_empty, absent_or, sequence_of.
  cbn [Py.get bind Spec.field].
  destruct (Py.assoc "accounts" kvs) as [acc|]; [|reflexivity].
  destruct acc as [| | | | |[|a0 rest]|]; try discriminate; [reflexivity|].
  unfold account_shape. destruct a0 as [| | | | | |fields]; try discriminate.
  cbn [is_mapping andb absent_or Spec.field Py.truthy Py.item0 Py.get bind].
  destruct (Py.assoc "monthly_summary" fields) as [monthly|]; [|reflexivity].
  destruct monthly as [| | | | |[|m0 more]|]; try discriminate; [reflexivity|].
  destruct m0; try discriminate. intros _.
  cbn [Py.truthy Py.item0 bind Py.contains_str Spec.field andb].
  destruct (Py.assoc "highest_intraday" _); reflexivity.
Qed.

Lemma after_rule1_rules kvs :
  absent_or (sequence_of account_shape) (Spec.field "accounts" (VDict kvs)) = true ->
  after_rule1 (VDict kvs) =
  Ok (if Spec.rule2 (VDict kvs) then "5.0"
      else if Spec.rule3 (VDict kvs) then "5.0" else "4.0").
Proof.
  intros Haccounts. unfold after_rule1. rewrite v5_fields_rule2. cbn [bind].
  destruct (Spec.rule2 _); [reflexivity|].
  rewrite (intraday_rule3 _ Haccounts). cbn [bind].
  destruct (Spec.rule3 _); reflexivity.
Qed.

Lemma detect_shaped d :
  shaped d = true -> detect_schema_version d = Ok (Spec.schema_version d).
Proof.
  destruct d as [| | | | | |kvs]; try discriminate.
  unfold shaped. cbn [is_mapping andb]. intros H.
  apply andb_prop in H as [Hinfo Haccounts].
  rewrite detect_unfold, (after_rule1_rules _ Haccounts). clear Haccounts.
  unfold Spec.schema_version, Spec.rule1.
  cbn [Py.get bind Spec.path Spec.field] in *.
  unfold absent_or, report_info_shape in Hinfo.
  destruct (Py.assoc "report_info" kvs) as [info|].
  - destruct info as [| | | | | |fields]; try discriminate.
    cbn [is_mapping andb absent_or Spec.field Py.get bind] in *.
    destruct (Py.assoc "schema_version" fields) as [sv|].
    + destruct sv; try discriminate. cbn [Py.startswith bind].
      destruct (String.prefix "5." s); reflexivity.
    + reflexivity.
  - reflexivity.
Qed.

Lemma schema_version_range d :
  Spec.schema_version d = "5.0" \/ Spec.schema_version d = "4.0".
Proof.
  unfold Spec.schema_version.
  destruct (Spec.rule1 d), (Spec.rule2 d), (Spec.rule3 d); auto.
Qed.

(** X9.  Whatever the document, the detector returns nothing but these two. *)
Lemma detect_range d v :
  detect_schema_version d = Ok v -> v = "5.0" \/ v = "4.0".
Proof.
  unfold detect_schema_version.
  repeat match goal with
  | |- context [bind ?m _] => destruct m as [?|?]; cbn [bind]; [|discriminate]
  | |- context [if ?b then _ else _] => destruct b
  end; intros [=]; auto.
Qed.

Lemma detect_mistyped d :
  mistyped d = true -> detect_schema_version d = Raise AttributeError.
Proof.
  unfold mistyped. rewrite detect_unfold.
  destruct d as [| | | | | |kvs]; try reflexivity.
  cbn [is_mapping negb orb Spec.path Spec.field Py.get bind absent_or].
  destruct (Py.assoc "report_info" kvs) as [info|]; [|discriminate].
  destruct info as [| | | | | |fields]; try reflexivity.
  cbn [is_mapping negb orb Spec.field Py.get bind absent_or].
  destruct (Py.assoc "schema_version" fields) as [sv|]; [|discriminate].
  destruct sv; try reflexivity. discriminate.
Qed.

Lemma detect_absent_field kvs k e :
  stands_for_absent k e -> Py.assoc k kvs = None ->
  detect_schema_version (with_field k e (VDict kvs))
  = detect_schema_version (VDict kvs).
Proof.
  intros [[-> ->]|[Hk He]] Habsent.
  - unfold detect_schema_version. cbn. rewrite Habsent. reflexivity.
  - unfold detect_schema_version.
    destruct Hk as [<-|[<-|[<-|[]]]];
      cbn [with_field Py.get Py.assoc String.eqb Ascii.eqb Bool.eqb bind];
      rewrite Habsent.
    + rewrite He. reflexivity.
    + rewrite He. cbn [Py.truthy].
      destruct (Py.truthy match Py.assoc "recurring_payments" kvs with
                          | Some x => x | None => VNone end); reflexivity.
    + rewrite He. reflexivity.
Qed.

(** With a well-formed [report_info], the detector is its first rule and
    then the rest. *)
Lemma detect_after_rule1 kvs :
  absent_or report_info_shape (Spec.field "report_info" (VDict kvs)) = true ->
  detect_schema_version (VDict kvs)
  = if Spec.rule1 (VDict kvs) then Ok "5.0" else after_rule1 (VDict kvs).
Proof.
  rewrite detect_unfold. unfold Spec.rule1, absent_or, report_info_shape.
  cbn [Py.get bind Spec.path Spec.field].
  destruct (Py.assoc "report_info" kvs) as [info|]; [|reflexivity].
  destruct info as [| | | | | |fields]; try discriminate.
  cbn [is_mapping andb absent_or Spec.field Py.get bind].
  destruct (Py.assoc "schema_version" fields) as [sv|]; [|reflexivity].
  destruct sv; try discriminate. reflexivity.
Qed.

Lemma detect_late kvs :
  absent_or report_info_shape (Spec.field "report_info" (VDict kvs)) = true ->
  early_match (VDict kvs) = false ->
  detect_schema_version (VDict kvs)
  = (found <- intraday (VDict kvs) ;; Ok (if found then "5.0" else "4.0")).
Proof.
  intros Hinfo Hearly. apply orb_false_elim in Hearly as [H1 H2].
  rewrite (detect_after_rule1 _ Hinfo), H1.
  unfold after_rule1. rewrite v5_fields_rule2, H2. cbn [bind].
  destruct (intraday (VDict kvs)) as [[|]|]; reflexivity.
Qed.

Lemma detect_no_fields kvs :
  (forall k, In k detector_fields -> Py.assoc k kvs = None) ->
  detect_schema_version (VDict kvs) = Ok "4.0".
Proof.
  intros H. unfold detect_schema_version. cbn [Py.get].
  rewrite (H "report_info"), (H "recurring_payments"), (H "non_bank_financing"),
    (H "accounts") by (cbn; tauto).
  reflexivity.
Qed.

Lemma detect_absent_schema_version kvs info :
  Py.assoc "report_info" kvs = Some (VDict info) ->
  Py.assoc "schema_version" info = None ->
  detect_schema_version
    (with_field "report_info" (with_field "schema_version" (VStr "") (VDict info))
       (VDict kvs))
  = detect_schema_version (VDict kvs).
Proof.
  intros Hinfo Hversion. unfold detect_schema_version.
  cbn [with_field Py.get Py.assoc String.eqb Ascii.eqb Bool.eqb bind].
  rewrite Hinfo. cbn [Py.get bind]. rewrite Hversion. reflexivity.
Qed.

Lemma detect_absent_monthly_summary kvs account accounts :
  Py.assoc "accounts" kvs = Some (VList (VDict account :: accounts)) ->
  Py.assoc "monthly_summary" account = None ->
  detect_schema_version
    (with_field "accounts"
       (VList (with_field "monthly_summary" (VList []) (VDict account) :: accounts))
       (VDict kvs))
  = detect_schema_version (VDict kvs).
Proof.
  intros Haccounts Hmonthly. unfold detect_schema_version.
  cbn [with_field Py.get Py.assoc String.eqb Ascii.eqb Bool.eqb bind].
  rewrite Haccounts.
  cbn [Py.truthy Py.item0 Py.get Py.assoc String.eqb Ascii.eqb Bool.eqb bind].
  rewrite Hmonthly. reflexivity.
Qed.

Lemma detect_absent_highest_intraday kvs account accounts month months :
  absent_or report_info_shape (Spec.field "report_info" (VDict kvs)) = true ->
  early_match (VDict kvs) = false ->
  Py.assoc "accounts" kvs = Some (VList (VDict account :: accounts)) ->
  Py.assoc "monthly_summary" account = Some (VList (VDict month :: months)) ->
  Py.assoc "highest_intraday" month = None ->
  detect_schema_version (VDict kvs) = Ok "4.0".
Proof.
  intros Hinfo Hearly Haccounts Hmonthly Hkey.
  rewrite (detect_late _ Hinfo Hearly). unfold intraday.
  cbn [Py.get bind]. rewrite Haccounts. cbn [Py.truthy Py.item0 Py.get bind].
  rewrite Hmonthly. cbn [Py.truthy Py.item0 Py.contains_str bind].
  rewrite Hkey. reflexivity.
Qed.

(** ** Company name resolver *)

Lemma usable_qualifies (o : option value) :
  usable (or_none o) = Spec.qualifies o.
Proof.
  destruct o as [[| | | | raw | |]|]; try reflexivity.
  unfold usable, Spec.qualifies, or_none.
  destruct (String.eqb (Str.strip raw) ""); [reflexivity|].
  destruct (blocked (Str.lower (Str.strip raw))); reflexivity.
Qed.

Lemma first_usable_first_some (os : list (option value)) (default : string) :
  first_usable (map or_none os) default
  = match Spec.first_some (map Spec.qualifies os) with
    | Some s => s
    | None => default
    end.
Proof.
  induction os as [|o os IH]; [reflexivity|].
  cbn [map first_usable Spec.first_some].
  rewrite usable_qualifies.
  destruct (Spec.qualifies o); [reflexivity|exact IH].
Qed.

(** The candidates of the resolver when it gets past its guard. *)
Lemma resolve_candidates kvs default :
  report_info_guarded (VDict kvs) = true ->
  resolve_company_name (VDict kvs) default
  = Ok (first_usable
          (map (fun p => or_none (Spec.path p (VDict kvs))) Spec.company_paths)
          default).
Proof.
  unfold report_info_guarded, resolve_company_name, absent_or.
  cbn [Spec.field Py.get bind map Spec.company_paths Spec.path].
  destruct (Py.assoc "company_name" kvs), (Py.assoc "company" kvs),
    (Py.assoc "entity_name" kvs).
  all: destruct (Py.assoc "report_info" kvs) as [info|]; [|reflexivity].
  all: destruct info as [| | | | | |fields]; cbn [is_mapping orb negb].
  all: try (intros H; apply negb_true_iff in H; rewrite H; reflexivity).
  all: intros _; destruct fields as [|[k x] fields]; [reflexivity|].
  all: cbn [Py.truthy Py.get bind Spec.field].
  all: destruct (Py.assoc "company_name" _), (Py.assoc "company" _),
         (Py.assoc "entity_name" _); reflexivity.
Qed.

Lemma resolve_guarded d default :
  report_info_guarded d = true ->
  resolve_company_name d default = Ok (Spec.company_name d default).
Proof.
  destruct d as [| | | | | |kvs]; try reflexivity.
  intros H. rewrite (resolve_candidates _ _ H).
  unfold Spec.company_name, Spec.qualifying.
  rewrite <- (map_map (fun p => Spec.path p (VDict kvs)) or_none),
          <- (map_map (fun p => Spec.path p (VDict kvs)) Spec.qualifies).
  rewrite first_usable_first_some. reflexivity.
Qed.

(** A candidate that is nothing but white space is passed over. *)
Lemma qualifies_blank s :
  Str.blank s = true -> Spec.qualifies (Some (VStr s)) = None.
Proof.
  unfold Str.blank. intros H. apply String.eqb_eq in H.
  unfold Spec.qualifies, Str.strip. rewrite H. reflexivity.
Qed.

(** C1, as amended.  On every document whose fields have the shapes of
    the data model (each of them possibly absent), the detector returns
    what the four rules give, the first match winning, and that is "5.0"
    or "4.0". *)
Theorem detect_schema_version_rules (d : value) :
  shaped d = true ->
  detect_schema_version d = Ok (Spec.schema_version d)
  /\ (Spec.schema_version d = "5.0" \/ Spec.schema_version d = "4.0").
Proof.
  intros H. split; [exact (detect_shaped d H)|apply schema_version_range].
Qed.

Lemma detect_schema_version_rules_witness :
  shaped Doc.with_intraday = true
  /\ detect_schema_version Doc.with_intraday = Ok "5.0".
Proof.
  split; [reflexivity|].
  exact (proj1 (detect_schema_version_rules Doc.with_intraday eq_refl)).
Defined.

(** C1 as stated fails: with a number for [schema_version] the first
    rule does not match and the second one does, so the rules give "5.0",
    and the detector raises. *)
Lemma detect_schema_version_rules_counterexample :
  Spec.schema_version Doc.numeric_version = "5.0"
  /\ detect_schema_version Doc.numeric_version = Raise AttributeError.
Proof.
  split; reflexivity.
Qed.

(** C2: the resolver raises on a mapping whose [report_info] is a
    non-empty string, where the documented result is the top-level
    candidate "Acme". *)
Theorem resolve_company_name_text_report_info :
  resolve_company_name Doc.text_report_info "Unknown" = Raise AttributeError
  /\ Spec.company_name Doc.text_report_info "Unknown" = "Acme".
Proof.
  split; reflexivity.
Qed.

(** C3, as amended.  The resolver returns the documented name on every
    document that is not a mapping and on every mapping whose
    [report_info] is absent, a mapping or a false value, whatever the
    types of the candidates.  The detector has no guard on types: it
    returns on the documents of the recognised shape and raises
    [AttributeError] when the document or [report_info] is not a mapping
    or [schema_version] is not a string. *)
Theorem type_mismatches (d : value) (default : string) :
  (report_info_guarded d = true ->
   resolve_company_name d default = Ok (Spec.company_name d default))
  /\ (shaped d = true -> returns (detect_schema_version d) = true)
  /\ (mistyped d = true -> detect_schema_version d = Raise AttributeError).
Proof.
  split; [apply resolve_guarded|]. split.
  - intros Hs. rewrite (detect_shaped d Hs). reflexivity.
  - apply detect_mistyped.
Qed.

Lemma type_mismatches_witness :
  resolve_company_name Doc.placeholders "Unknown" = Ok "Acme Ltd"
  /\ returns (detect_schema_version Doc.placeholders) = true
  /\ detect_schema_version Doc.text_report_info = Raise AttributeError
  /\ detect_schema_version (VList [VInt 1]) = Raise AttributeError.
Proof.
  split; [|split; [|split]].
  - exact (proj1 (type_mismatches Doc.placeholders "Unknown") eq_refl).
  - exact (proj1 (proj2 (type_mismatches Doc.placeholders "Unknown")) eq_refl).
  - exact (proj2 (proj2 (type_mismatches Doc.text_report_info "Unknown")) eq_refl).
  - exact (proj2 (proj2 (type_mismatches (VList [VInt 1]) "Unknown")) eq_refl).
Defined.

(** C3 as stated fails: [schema_version] is a number, and the detector
    raises. *)
Lemma type_mismatches_counterexample :
  Spec.path ["report_info"; "schema_version"] Doc.numeric_version_only
  = Some (VInt 5)
  /\ detect_schema_version Doc.numeric_version_only = Raise AttributeError.
Proof.
  split; reflexivity.
Qed.

(** C5.  The detector never fails on a missing key.  On every mapping, a
    top-level field that is absent gives the same result as the field
    with its empty value, and so do an absent [schema_version] in
    [report_info] and an absent [monthly_summary] in the first account; an
    absent [highest_intraday] in the first month is a test that is not
    met.  With all four top-level fields absent the result is "4.0", in
    particular on the empty mapping; and on every document of the data
    model, whichever of its keys are absent, the detector returns "5.0"
    or "4.0". *)
Theorem detect_schema_version_missing_keys :
  (forall kvs k e, stands_for_absent k e -> Py.assoc k kvs = None ->
     detect_schema_version (with_field k e (VDict kvs))
     = detect_schema_version (VDict kvs))
  /\ (forall kvs info,
       Py.assoc "report_info" kvs = Some (VDict info) ->
       Py.assoc "schema_version" info = None ->
       detect_schema_version
         (with_field "report_info"
            (with_field "schema_version" (VStr "") (VDict info)) (VDict kvs))
       = detect_schema_version (VDict kvs))
  /\ (forall kvs account accounts,
       Py.assoc "accounts" kvs = Some (VList (VDict account :: accounts)) ->
       Py.assoc "monthly_summary" account = None ->
       detect_schema_version
         (with_field "accounts"
            (VList (with_field "monthly_summary" (VList []) (VDict account)
                    :: accounts)) (VDict kvs))
       = detect_schema_version (VDict kvs))
  /\ (forall kvs account accounts month months,
       absent_or report_info_shape (Spec.field "report_info" (VDict kvs)) = true ->
       early_match (VDict kvs) = false ->
       Py.assoc "accounts" kvs = Some (VList (VDict account :: accounts)) ->
       Py.assoc "monthly_summary" account = Some (VList (VDict month :: months)) ->
       Py.assoc "highest_intraday" month = None ->
       detect_schema_version (VDict kvs) = Ok "4.0")
  /\ (forall kvs, (forall k, In k detector_fields -> Py.assoc k kvs = None) ->
       detect_schema_version (VDict kvs) = Ok "4.0")
  /\ (forall d, shaped d = true ->
       exists v, detect_schema_version d = Ok v /\ (v = "5.0" \/ v = "4.0"))
  /\ detect_schema_version (VDict []) = Ok "4.0".
Proof.
  split; [exact detect_absent_field|].
  split; [exact detect_absent_schema_version|].
  split; [exact detect_absent_monthly_summary|].
  split; [exact detect_absent_highest_intraday|].
  split; [exact detect_no_fields|].
  split; [|reflexivity].
  intros d H. exists (Spec.schema_version d).
  split; [exact (detect_shaped d H)|apply schema_version_range].
Qed.

Lemma detect_schema_version_missing_keys_witness :
  detect_schema_version
    (with_field "accounts" (VList []) Doc.recurring)
  = detect_schema_version Doc.recurring
  /\ detect_schema_version Doc.without_intraday = Ok "4.0"
  /\ exists v, detect_schema_version Doc.recurring = Ok v
                /\ (v = "5.0" \/ v = "4.0").
Proof.
  destruct detect_schema_version_missing_keys
    as (Habsent & _ & _ & Hkey & _ & Hshaped & _).
  split; [|split].
  - apply Habsent; [|reflexivity].
    right. split; [|reflexivity]. cbn. auto.
  - exact (Hkey [("accounts",
                   VList [VDict [("monthly_summary",
                                  VList [VDict [("balance", VInt 100)]])]])]
                [("monthly_summary", VList [VDict [("balance", VInt 100)]])]
                [] [("balance", VInt 100)] []
                eq_refl eq_refl eq_refl eq_refl eq_refl).
  - exact (Hshaped Doc.recurring eq_refl).
Defined.

(** ** Substrings *)

Lemma prefix_app n b : String.prefix n (n ++ b) = true.
Proof.
  induction n as [|c n IH]; cbn [append String.prefix]; [destruct b; reflexivity|].
  destruct (ascii_dec c c) as [_|Hne]; [exact IH|contradiction].
Qed.

Lemma contains_prefix n s : String.prefix n s = true -> Py.contains n s = true.
Proof.
  intros H. destruct s; cbn [Py.contains]; rewrite H; reflexivity.
Qed.

Lemma contains_app_r n a s :
  Py.contains n s = true -> Py.contains n (a ++ s) = true.
Proof.
  intros H. induction a as [|c a IH]; [exact H|].
  cbn [append Py.contains]. rewrite IH. apply orb_true_r.
Qed.

Lemma contains_mid n a b : Py.contains n (a ++ n ++ b) = true.
Proof.
  apply contains_app_r, contains_prefix, prefix_app.
Qed.

Lemma prefix_app_l n s b :
  String.prefix n s = true -> String.prefix n (s ++ b) = true.
Proof.
  revert s. induction n as [|c n IH]; intros s H.
  - destruct (s ++ b); reflexivity.
  - destruct s as [|c' s]; [discriminate|].
    cbn [append String.prefix] in *.
    destruct (ascii_dec c c'); [apply IH, H|discriminate].
Qed.

Lemma contains_app_l n s b :
  Py.contains n s = true -> Py.contains n (s ++ b) = true.
Proof.
  induction s as [|c s IH]; intros H.
  - cbn [Py.contains] in H. rewrite orb_false_r in H.
    destruct n; [|discriminate]. destruct (EmptyString ++ b); reflexivity.
  - cbn [Py.contains] in H. apply orb_prop in H as [H|H].
    + apply contains_prefix, prefix_app_l, H.
    + cbn [append Py.contains]. rewrite (IH H). apply orb_true_r.
Qed.

Lemma contains_concat (n x : string) (l : list string) :
  In x l -> Py.contains n x = true -> Py.contains n (String.concat "" l) = true.
Proof.
  induction l as [|y l IH]; [intros []|].
  intros [->|Hin] Hn.
  - destruct l as [|z l]; [exact Hn|].
    cbn [String.concat]. apply contains_app_l, Hn.
  - destruct l as [|z l]; [destruct Hin|].
    cbn [String.concat]. apply contains_app_r. cbn [append]. apply IH; assumption.
Qed.

Lemma append_assoc (a b c : string) : (a ++ b) ++ c = a ++ b ++ c.
Proof.
  induction a as [|x a IH]; [reflexivity|]. cbn [append]. rewrite IH. reflexivity.
Qed.

Lemma prefix_under a n s :
  String.prefix n s = true -> String.prefix (a ++ n) (a ++ s) = true.
Proof.
  intros H. induction a as [|c a IH]; [exact H|].
  cbn [append String.prefix]. destruct (ascii_dec c c); [exact IH|contradiction].
Qed.

Lemma prefix_refl n : String.prefix n n = true.
Proof.
  induction n as [|c n IH]; [reflexivity|].
  cbn [String.prefix]. destruct (ascii_dec c c); [exact IH|contradiction].
Qed.

Ltac find_text :=
  repeat first
    [ apply contains_prefix;
      solve [ repeat apply prefix_under; first [apply prefix_app | apply prefix_refl] ]
    | apply contains_app_r ].

(** ** Rounding *)

Open Scope Z_scope.

Lemma nearest_even_near m k :
  0 < k -> Z.abs (2 * (Fmt.nearest_even m k * 2 ^ k - m)) <= 2 ^ k.
Proof.
  intros Hk. unfold Fmt.nearest_even.
  assert (Hpow : 2 ^ k = 2 * 2 ^ (k - 1)).
  { rewrite <- Z.pow_succ_r by lia. f_equal. lia. }
  assert (Hhalf : 0 < 2 ^ (k - 1)) by (apply Z.pow_pos_nonneg; lia).
  pose proof (Z.div_mod m (2 ^ k) ltac:(lia)) as Hdm.
  pose proof (Z.mod_pos_bound m (2 ^ k) ltac:(lia)) as Hr.
  set (q := m / 2 ^ k) in *. set (r := m mod 2 ^ k) in *.
  set (h := 2 ^ (k - 1)) in *.
  destruct (Z.ltb_spec r h); [lia|].
  destruct (Z.ltb_spec h r); [lia|].
  destruct (Z.even q); lia.
Qed.

Lemma int_to_float_exact z :
  Z.abs z <= 2 ^ 53 -> Fmt.int_to_float z = Ok z.
Proof.
  intros Hz. unfold Fmt.int_to_float.
  assert (Hr : (if Z.log2 (Z.abs z) + 1 - 53 <=? 0 then Z.abs z
                else Fmt.nearest_even (Z.abs z) (Z.log2 (Z.abs z) + 1 - 53)
                     * 2 ^ (Z.log2 (Z.abs z) + 1 - 53)) = Z.abs z).
  { destruct (Z.leb_spec (Z.log2 (Z.abs z) + 1 - 53) 0) as [|Hdrop]; [reflexivity|].
    assert (Hpos : 0 < Z.abs z).
    { destruct (Z.eq_dec (Z.abs z) 0) as [H0|]; [|lia].
      rewrite H0 in Hdrop. cbn in Hdrop. lia. }
    assert (Habs : Z.abs z = 2 ^ 53).
    { destruct (Z.eq_dec (Z.abs z) (2 ^ 53)) as [|Hne]; [assumption|].
      assert (Hlt : Z.abs z < 2 ^ 53) by lia.
      apply (Z.log2_lt_pow2 _ _ Hpos) in Hlt. lia. }
    rewrite Habs. reflexivity. }
  rewrite Hr.
  destruct (Z.leb_spec (2 ^ 1024) (Z.abs z)) as [Hbig|_].
  - assert (2 ^ 53 < 2 ^ 1024) by (apply Z.pow_lt_mono_r; lia). lia.
  - f_equal. rewrite Z.mul_comm. apply Z.abs_sgn.
Qed.

Close Scope Z_scope.

Lemma integral_nearest m e : nearest_to (Fmt.integral m e) m e.
Proof.
  unfold nearest_to, Fmt.integral. split; intros He.
  - destruct (Z.leb_spec 0 e); [reflexivity|lia].
  - destruct (Z.leb_spec 0 e); [lia|]. apply nearest_even_near. lia.
Qed.

(** ** Lookups with a default *)

Lemma get_get_lookup d k1 k2 dflt v x :
  Py.get d k1 (VDict []) = Ok v -> Py.get v k2 dflt = Ok x ->
  x = Spec.lookup [k1; k2] dflt d.
Proof.
  destruct d as [| | | | | |kvs]; try discriminate.
  unfold Spec.lookup. cbn [Py.get Spec.path Spec.field].
  destruct (Py.assoc k1 kvs) as [v'|]; intros [= <-].
  - destruct v' as [| | | | | |fields]; try discriminate.
    cbn [Py.get Spec.field]. intros [= <-].
    destruct (Py.assoc k2 fields); reflexivity.
  - cbn [Py.get Py.assoc]. intros [= <-]. reflexivity.
Qed.

Lemma detect_Ok_guarded d v :
  detect_schema_version d = Ok v -> report_info_guarded d = true.
Proof.
  rewrite detect_unfold. unfold report_info_guarded, absent_or.
  destruct d as [| | | | | |kvs]; try discriminate.
  cbn [Py.get bind Spec.field].
  destruct (Py.assoc "report_info" kvs) as [info|]; [|reflexivity].
  destruct info; try discriminate. reflexivity.
Qed.

Lemma get_lookup d k dflt x :
  Py.get d k dflt = Ok x -> x = Spec.lookup [k] dflt d.
Proof.
  destruct d as [| | | | | |kvs]; try discriminate.
  unfold Spec.lookup. cbn [Py.get Spec.path Spec.field].
  intros [= <-]. destruct (Py.assoc k kvs); reflexivity.
Qed.

Lemma company_name_default d default :
  Spec.qualifying d = None -> Spec.company_name d default = default.
Proof.
  intros H. unfold Spec.company_name. rewrite H. destruct d; reflexivity.
Qed.

(** ** Runs of the script *)

Lemma then_Ok {A B : Type} (m : script A) (k : A -> script B) calls (b : B) :
  then_ m k = (calls, Ok b) ->
  exists cs a cs', m = (cs, Ok a) /\ k a = (cs', Ok b) /\ calls = (cs ++ cs')%list.
Proof.
  destruct m as [cs [a|e]]; cbn [then_]; [|discriminate].
  destruct (k a) as [cs' r] eqn:Hk. intros [= <- ->].
  exists cs, a, cs'. auto.
Qed.

Lemma eval_Ok {A : Type} (m : result A) cs (a : A) :
  eval m = (cs, Ok a) -> cs = [] /\ m = Ok a.
Proof. unfold eval. intros [= <- ->]. auto. Qed.

Lemma emit_Ok c cs (u : unit) : emit c = (cs, Ok u) -> cs = [c].
Proof. unfold emit. intros [= <-]. reflexivity. Qed.

Lemma st_metric_Ok column label v cs (u : unit) :
  st_metric column label v = (cs, Ok u) -> cs = [metric column label v].
Proof. destruct v; cbn [st_metric]; intros H; try (apply emit_Ok in H; exact H);
  apply eval_Ok in H as [_ H]; discriminate H. Qed.

Ltac run_step H :=
  let cs := fresh "cs" in let a := fresh "a" in let cs' := fresh "cs" in
  let Hm := fresh "Hm" in let Hc := fresh "Hc" in
  apply then_Ok in H; destruct H as (cs & a & cs' & Hm & H & Hc);
  first [ apply eval_Ok in Hm; destruct Hm as [-> Hm]
        | apply emit_Ok in Hm; subst cs
        | apply st_metric_Ok in Hm; subst cs ];
  cbn [app] in Hc; subst; cbn beta in H.

Lemma then_eval_Ok {A B : Type} (a : A) (k : A -> script B) :
  then_ (eval (Ok a)) k = k a.
Proof. unfold eval. cbn [then_]. destruct (k a). reflexivity. Qed.

Lemma then_eval_Raise {A B : Type} (e : exn) (k : A -> script B) :
  then_ (eval (Raise e : result A)) k = ([], Raise e).
Proof. reflexivity. Qed.

Lemma then_emit {B : Type} (c : call) (k : unit -> script B) :
  then_ (emit c) k = and_then c (k tt).
Proof. unfold emit, and_then. cbn [then_]. destruct (k tt). reflexivity. Qed.

Lemma on_screen_and_then {A : Type} (c : call) (run : script A) :
  on_screen (and_then c run) = and_then (screen c) (on_screen run).
Proof. reflexivity. Qed.

(** ** The JSON library *)

Module JsonFacts.

Import Utf8 Json.

(** ** Bytes and characters *)

Ltac nlia := zify; Z.to_euclidean_division_equations; lia.

Lemma code_ascii n : (n < 256)%N -> Utf8.code (ascii_of_N n) = n.
Proof. apply N_ascii_embedding. Qed.

Lemma ascii_code c : ascii_of_N (Utf8.code c) = c.
Proof. apply ascii_N_embedding. Qed.

Lemma code_bound c : (Utf8.code c < 256)%N.
Proof. apply N_ascii_bounded. Qed.

Lemma byte_code c : Str.byte c = N.to_nat (Utf8.code c).
Proof. reflexivity. Qed.

Lemma byte_ascii n : (n < 256)%N -> Str.byte (ascii_of_N n) = N.to_nat n.
Proof. intros H. rewrite byte_code, code_ascii by exact H. reflexivity. Qed.

Lemma tail_ascii k : (k < 64)%N -> Utf8.tail (ascii_of_N (128 + k)) = Some k.
Proof.
  intros H. unfold Utf8.tail. rewrite code_ascii by lia.
  replace (128 <=? 128 + k)%N with true by (symmetry; apply N.leb_le; lia).
  replace (128 + k <=? 191)%N with true by (symmetry; apply N.leb_le; lia).
  cbn [andb]. f_equal. lia.
Qed.

Lemma tail_Some c t :
  Utf8.tail c = Some t -> (t < 64)%N /\ c = ascii_of_N (128 + t).
Proof.
  unfold Utf8.tail. pose proof (code_bound c) as Hb.
  destruct (128 <=? Utf8.code c)%N eqn:H1; [|discriminate].
  destruct (Utf8.code c <=? 191)%N eqn:H2; [|discriminate].
  cbn [andb]. intros [= <-].
  apply N.leb_le in H1, H2. split; [lia|].
  replace (128 + (Utf8.code c - 128))%N with (Utf8.code c) by lia.
  symmetry. apply ascii_code.
Qed.

Ltac ltb_true := symmetry; apply N.ltb_lt; nlia.
Ltac ltb_false := symmetry; apply N.ltb_ge; nlia.

Lemma next_encode n r :
  (n < 1114112)%N -> Utf8.next (Utf8.encode n ++ r) = Some (n, r).
Proof.
  intros Hn. unfold Utf8.encode.
  destruct (n <? 128)%N eqn:H1.
  { apply N.ltb_lt in H1. cbn [append]. unfold Utf8.next.
    rewrite code_ascii by nlia.
    replace (n <? 128)%N with true by ltb_true. reflexivity. }
  apply N.ltb_ge in H1.
  destruct (n <? 2048)%N eqn:H2.
  { apply N.ltb_lt in H2. cbn [append]. unfold Utf8.next.
    rewrite code_ascii by nlia.
    replace (192 + n / 64 <? 128)%N with false by ltb_false.
    replace (192 + n / 64 <? 194)%N with false by ltb_false.
    replace (192 + n / 64 <? 224)%N with true by ltb_true.
    rewrite tail_ascii by nlia. do 2 f_equal. nlia. }
  apply N.ltb_ge in H2.
  destruct (n <? 65536)%N eqn:H3.
  { apply N.ltb_lt in H3. cbn [append]. unfold Utf8.next.
    rewrite code_ascii by nlia.
    replace (224 + n / 4096 <? 128)%N with false by ltb_false.
    replace (224 + n / 4096 <? 194)%N with false by ltb_false.
    replace (224 + n / 4096 <? 224)%N with false by ltb_false.
    replace (224 + n / 4096 <? 240)%N with true by ltb_true.
    rewrite !tail_ascii by nlia.
    replace ((224 + n / 4096 - 224) * 4096 + (n / 64) mod 64 * 64 + n mod 64)%N
      with n by nlia.
    replace (n <? 2048)%N with false by ltb_false. reflexivity. }
  apply N.ltb_ge in H3. cbn [append]. unfold Utf8.next.
  rewrite code_ascii by nlia.
  replace (240 + n / 262144 <? 128)%N with false by ltb_false.
  replace (240 + n / 262144 <? 194)%N with false by ltb_false.
  replace (240 + n / 262144 <? 224)%N with false by ltb_false.
  replace (240 + n / 262144 <? 240)%N with false by ltb_false.
  replace (240 + n / 262144 <? 245)%N with true by ltb_true.
  rewrite !tail_ascii by nlia.
  replace ((240 + n / 262144 - 240) * 262144 + (n / 4096) mod 64 * 4096
           + (n / 64) mod 64 * 64 + n mod 64)%N with n by nlia.
  replace (n <? 65536)%N with false by ltb_false.
  replace (1114111 <? n)%N with false by ltb_false. reflexivity.
Qed.

Lemma next_Some s n r :
  Utf8.next s = Some (n, r) -> s = Utf8.encode n ++ r /\ (n < 1114112)%N.
Proof.
  destruct s as [|c1 r1]; [discriminate|]. unfold Utf8.next.
  pose proof (code_bound c1) as Hb. pose proof (ascii_code c1) as Hc.
  remember (Utf8.code c1) as b1 eqn:Hb1. clear Hb1.
  destruct (b1 <? 128)%N eqn:H1.
  { intros [= <- <-]. unfold Utf8.encode. rewrite H1, Hc.
    apply N.ltb_lt in H1. split; [reflexivity|nlia]. }
  apply N.ltb_ge in H1.
  destruct (b1 <? 194)%N eqn:H2; [discriminate|]. apply N.ltb_ge in H2.
  destruct (b1 <? 224)%N eqn:H3.
  { apply N.ltb_lt in H3. destruct r1 as [|c2 r2]; [discriminate|].
    destruct (Utf8.tail c2) as [t2|] eqn:Ht2; [|discriminate].
    apply tail_Some in Ht2 as [Hb2 ->]. intros [= <- <-].
    unfold Utf8.encode.
    replace ((b1 - 192) * 64 + t2 <? 128)%N with false by ltb_false.
    replace ((b1 - 192) * 64 + t2 <? 2048)%N with true by ltb_true.
    replace (192 + ((b1 - 192) * 64 + t2) / 64)%N with b1 by nlia.
    replace (((b1 - 192) * 64 + t2) mod 64)%N with t2 by nlia.
    rewrite Hc. split; [reflexivity|nlia]. }
  apply N.ltb_ge in H3.
  destruct (b1 <? 240)%N eqn:H4.
  { apply N.ltb_lt in H4. destruct r1 as [|c2 [|c3 r3]]; try discriminate.
    destruct (Utf8.tail c2) as [t2|] eqn:Ht2; [|discriminate].
    destruct (Utf8.tail c3) as [t3|] eqn:Ht3; [|discriminate].
    apply tail_Some in Ht2 as [Hb2 ->]. apply tail_Some in Ht3 as [Hb3 ->].
    set (m := ((b1 - 224) * 4096 + t2 * 64 + t3)%N).
    destruct (m <? 2048)%N eqn:Hm; [discriminate|]. apply N.ltb_ge in Hm.
    intros [= <- <-]. unfold Utf8.encode.
    replace (m <? 128)%N with false by ltb_false.
    replace (m <? 2048)%N with false by ltb_false.
    replace (m <? 65536)%N with true by (subst m; ltb_true).
    replace (224 + m / 4096)%N with b1 by (subst m; nlia).
    replace ((m / 64) mod 64)%N with t2 by (subst m; nlia).
    replace (m mod 64)%N with t3 by (subst m; nlia).
    rewrite Hc. split; [reflexivity|subst m; nlia]. }
  apply N.ltb_ge in H4.
  destruct (b1 <? 245)%N eqn:H5; [|discriminate].
  apply N.ltb_lt in H5. destruct r1 as [|c2 [|c3 [|c4 r4]]]; try discriminate.
  destruct (Utf8.tail c2) as [t2|] eqn:Ht2; [|discriminate].
  destruct (Utf8.tail c3) as [t3|] eqn:Ht3; [|discriminate].
  destruct (Utf8.tail c4) as [t4|] eqn:Ht4; [|discriminate].
  apply tail_Some in Ht2 as [Hb2 ->]. apply tail_Some in Ht3 as [Hb3 ->].
  apply tail_Some in Ht4 as [Hb4 ->].
  set (m := ((b1 - 240) * 262144 + t2 * 4096 + t3 * 64 + t4)%N).
  destruct (m <? 65536)%N eqn:Hm; [discriminate|]. apply N.ltb_ge in Hm.
  destruct (1114111 <? m)%N eqn:Hm'; [discriminate|]. apply N.ltb_ge in Hm'.
  cbn [orb]. intros [= <- <-]. unfold Utf8.encode.
  replace (m <? 128)%N with false by ltb_false.
  replace (m <? 2048)%N with false by ltb_false.
  replace (m <? 65536)%N with false by ltb_false.
  replace (240 + m / 262144)%N with b1 by (subst m; nlia).
  replace ((m / 4096) mod 64)%N with t2 by (subst m; nlia).
  replace ((m / 64) mod 64)%N with t3 by (subst m; nlia).
  replace (m mod 64)%N with t4 by (subst m; nlia).
  rewrite Hc. split; [reflexivity|nlia].
Qed.

(** ** Texts *)

Lemma app_empty s : s ++ "" = s.
Proof. induction s as [|c s IH]; [reflexivity|]. cbn [append]. rewrite IH. reflexivity. Qed.

Lemma app_assoc s t u : (s ++ t) ++ u = s ++ t ++ u.
Proof. induction s as [|c s IH]; [reflexivity|]. cbn [append]. rewrite IH. reflexivity. Qed.

Lemma concat_cons x l : String.concat "" (x :: l) = x ++ String.concat "" l.
Proof. destruct l; cbn [String.concat append]; [rewrite app_empty|]; reflexivity. Qed.

Lemma text_cons n ns : Utf8.text (n :: ns) = Utf8.encode n ++ Utf8.text ns.
Proof. unfold Utf8.text. cbn [map]. apply concat_cons. Qed.

Lemma length_app s t : String.length (s ++ t) = (String.length s + String.length t)%nat.
Proof. induction s as [|c s IH]; [reflexivity|]. cbn [append String.length]. rewrite IH. reflexivity. Qed.

Lemma continues_tail k : (k < 64)%N -> Str.continues (ascii_of_N (128 + k)) = true.
Proof.
  intros H. unfold Str.continues. rewrite byte_ascii by lia.
  apply andb_true_intro. split; apply Nat.leb_le; lia.
Qed.

Lemma continues_lead n :
  (n < 128 \/ 192 <= n)%N -> (n < 256)%N -> Str.continues (ascii_of_N n) = false.
Proof.
  intros H Hb. unfold Str.continues. rewrite byte_ascii by lia.
  apply andb_false_iff. destruct H; [left|right]; apply Nat.leb_gt; lia.
Qed.

Lemma continuation_tail k s :
  (k < 64)%N ->
  Str.continuation (String (ascii_of_N (128 + k)) s)
  = String (ascii_of_N (128 + k)) (Str.continuation s).
Proof. intros H. cbn [Str.continuation]. rewrite continues_tail by exact H. reflexivity. Qed.

Lemma chars_tail k s :
  (k < 64)%N -> Str.chars (String (ascii_of_N (128 + k)) s) = Str.chars s.
Proof. intros H. cbn [Str.chars]. rewrite continues_tail by exact H. reflexivity. Qed.

Lemma continuation_lead n s :
  (n < 128 \/ 192 <= n)%N -> (n < 256)%N ->
  Str.continuation (String (ascii_of_N n) s) = "".
Proof. intros H Hb. cbn [Str.continuation]. rewrite continues_lead by assumption. reflexivity. Qed.

Lemma chars_lead n s :
  (n < 128 \/ 192 <= n)%N -> (n < 256)%N ->
  Str.chars (String (ascii_of_N n) s)
  = String (ascii_of_N n) (Str.continuation s) :: Str.chars s.
Proof. intros H Hb. cbn [Str.chars]. rewrite continues_lead by assumption. reflexivity. Qed.

Lemma chars_encode n r :
  valid n -> clean r -> Str.chars (Utf8.encode n ++ r) = Utf8.encode n :: Str.chars r.
Proof.
  unfold valid, clean. intros Hn Hr. unfold Utf8.encode.
  destruct (n <? 128)%N eqn:H1.
  { apply N.ltb_lt in H1. cbn [append]. rewrite chars_lead by lia.
    rewrite Hr. reflexivity. }
  apply N.ltb_ge in H1. destruct (n <? 2048)%N eqn:H2.
  { apply N.ltb_lt in H2. cbn [append]. rewrite chars_lead by nlia.
    rewrite continuation_tail, chars_tail by nlia. rewrite Hr. reflexivity. }
  apply N.ltb_ge in H2. destruct (n <? 65536)%N eqn:H3.
  { apply N.ltb_lt in H3. cbn [append]. rewrite chars_lead by nlia.
    rewrite !continuation_tail, !chars_tail by nlia. rewrite Hr. reflexivity. }
  apply N.ltb_ge in H3. cbn [append]. rewrite chars_lead by nlia.
  rewrite !continuation_tail, !chars_tail by nlia. rewrite Hr. reflexivity.
Qed.

Lemma clean_encode n r : valid n -> clean (Utf8.encode n ++ r).
Proof.
  unfold valid, clean. intros Hn. unfold Utf8.encode.
  destruct (n <? 128)%N eqn:H1.
  { apply N.ltb_lt in H1. cbn [append]. apply continuation_lead; lia. }
  apply N.ltb_ge in H1. destruct (n <? 2048)%N eqn:H2.
  { apply N.ltb_lt in H2. cbn [append]. apply continuation_lead; nlia. }
  apply N.ltb_ge in H2. destruct (n <? 65536)%N eqn:H3.
  { apply N.ltb_lt in H3. cbn [append]. apply continuation_lead; nlia. }
  apply N.ltb_ge in H3. cbn [append]. apply continuation_lead; nlia.
Qed.

Lemma clean_text ns : Forall valid ns -> clean (Utf8.text ns).
Proof.
  intros H. destruct H as [|n ns Hn _]; [reflexivity|].
  rewrite text_cons. apply clean_encode, Hn.
Qed.

Lemma ord_encode n : valid n -> Utf8.ord (Utf8.encode n) = n.
Proof.
  intros H. unfold Utf8.ord. rewrite <- (app_empty (Utf8.encode n)).
  rewrite (next_encode _ _ H). reflexivity.
Qed.

Lemma codes_text ns : Forall valid ns -> Utf8.codes (Utf8.text ns) = ns.
Proof.
  unfold Utf8.codes. induction 1 as [|n ns Hn Hns IH]; [reflexivity|].
  rewrite text_cons, chars_encode by (try apply clean_text; assumption).
  cbn [map]. rewrite IH, ord_encode by exact Hn. reflexivity.
Qed.

(** ** Escapes *)

Lemma hex_value_digit d : (d < 16)%N -> hex_value (hex_digit d) = Some d.
Proof.
  intros H. unfold hex_value, hex_digit. destruct (d <? 10)%N eqn:Hd.
  - apply N.ltb_lt in Hd. rewrite code_ascii by lia.
    replace (48 <=? 48 + d)%N with true by (symmetry; apply N.leb_le; lia).
    replace (48 + d <=? 57)%N with true by (symmetry; apply N.leb_le; lia).
    cbn [andb]. f_equal. lia.
  - apply N.ltb_ge in Hd. rewrite code_ascii by lia.
    replace (48 + d <=? 57)%N with false by (symmetry; apply N.leb_gt; lia).
    replace (87 + d <=? 57)%N with false by (symmetry; apply N.leb_gt; lia).
    rewrite andb_false_r.
    replace (97 <=? 87 + d)%N with true by (symmetry; apply N.leb_le; lia).
    replace (87 + d <=? 102)%N with true by (symmetry; apply N.leb_le; lia).
    cbn [andb]. f_equal. lia.
Qed.

Lemma hex_value_bound c d : hex_value c = Some d -> (d < 16)%N.
Proof.
  unfold hex_value.
  destruct ((48 <=? Utf8.code c)%N && (Utf8.code c <=? 57)%N) eqn:H1.
  { apply andb_prop in H1 as [H1 H1']. apply N.leb_le in H1, H1'.
    intros [= <-]. lia. }
  destruct ((97 <=? Utf8.code c)%N && (Utf8.code c <=? 102)%N) eqn:H2.
  { apply andb_prop in H2 as [H2 H2']. apply N.leb_le in H2, H2'.
    intros [= <-]. lia. }
  destruct ((65 <=? Utf8.code c)%N && (Utf8.code c <=? 70)%N) eqn:H3; [|discriminate].
  apply andb_prop in H3 as [H3 H3']. apply N.leb_le in H3, H3'.
  intros [= <-]. lia.
Qed.

Lemma read_hex4_hex4 n r : (n < 65536)%N -> read_hex4 (hex4 n ++ r) = Some (n, r).
Proof.
  intros H. unfold hex4, read_hex4. cbn [append].
  rewrite !hex_value_digit by nlia. do 2 f_equal. nlia.
Qed.

Lemma read_hex4_bound s n r : read_hex4 s = Some (n, r) -> (n < 65536)%N.
Proof.
  unfold read_hex4. destruct s as [|c1 [|c2 [|c3 [|c4 rest]]]]; try discriminate.
  destruct (hex_value c1) as [a|] eqn:H1; [|discriminate].
  destruct (hex_value c2) as [b|] eqn:H2; [|discriminate].
  destruct (hex_value c3) as [c|] eqn:H3; [|discriminate].
  destruct (hex_value c4) as [d|] eqn:H4; [|discriminate].
  apply hex_value_bound in H1, H2, H3, H4. intros [= <- _]. lia.
Qed.

(** ** The string scanner on the encoder's text *)

Lemma next_ascii n rest :
  (n < 128)%N -> Utf8.next (String (ascii_of_N n) rest) = Some (n, rest).
Proof.
  intros H. unfold Utf8.next. rewrite code_ascii by lia.
  replace (n <? 128)%N with true by ltb_true. reflexivity.
Qed.

Lemma scan_char_backslash scan rest :
  scan_char scan (backslash ++ rest) = scan_escape scan rest.
Proof. reflexivity. Qed.

Lemma scan_char_quote scan rest : scan_char scan (dq ++ rest) = Ok ("", rest).
Proof. reflexivity. Qed.

Lemma scan_char_plain scan n rest :
  (32 <= n)%N -> (n <= 126)%N -> n <> 34%N -> n <> 92%N ->
  scan_char scan (String (ascii_of_N n) rest) = scanned scan n rest.
Proof.
  intros H1 H2 H3 H4. unfold scan_char. rewrite next_ascii by lia.
  apply N.eqb_neq in H3, H4. rewrite H3, H4.
  replace (n <? 32)%N with false by ltb_false. reflexivity.
Qed.

Lemma scan_unicode_hex4 scan n rest :
  (n < 65536)%N -> ahead_ok n rest ->
  scan_unicode scan (hex4 n ++ rest) = scanned scan n rest.
Proof.
  intros Hn Hok. unfold scan_unicode. rewrite read_hex4_hex4 by exact Hn.
  unfold ahead_ok in Hok. destruct (Utf8.is_high n); [|reflexivity].
  specialize (Hok eq_refl). destruct (escape_u rest) as [rest'|]; [|reflexivity].
  destruct Hok as (uni & rest2 & -> & ->). reflexivity.
Qed.

Lemma scan_unicode_pair scan v rest :
  (v < 1048576)%N ->
  scan_unicode scan
    (hex4 (55296 + v / 1024) ++ backslash ++ "u" ++ hex4 (56320 + v mod 1024) ++ rest)
  = scanned scan (65536 + v) rest.
Proof.
  intros Hv. unfold scan_unicode. rewrite read_hex4_hex4 by nlia.
  replace (Utf8.is_high (55296 + v / 1024)) with true.
  2: { symmetry. unfold Utf8.is_high. apply andb_true_intro.
       split; apply N.leb_le; nlia. }
  change (escape_u (backslash ++ "u" ++ hex4 (56320 + v mod 1024) ++ rest))
    with (Some (hex4 (56320 + v mod 1024) ++ rest)).
  cbv beta iota. rewrite read_hex4_hex4 by nlia.
  replace (Utf8.is_low (56320 + v mod 1024)) with true.
  2: { symmetry. unfold Utf8.is_low. apply andb_true_intro.
       split; apply N.leb_le; nlia. }
  unfold join_pair. f_equal. nlia.
Qed.

Lemma scan_char_escape scan n rest :
  valid n -> ahead_ok n rest ->
  scan_char scan (escape n ++ rest) = scanned scan n rest.
Proof.
  unfold valid. intros Hn Hok. unfold escape.
  destruct (n =? 34)%N eqn:E1; [apply N.eqb_eq in E1; subst n; reflexivity|].
  destruct (n =? 92)%N eqn:E2; [apply N.eqb_eq in E2; subst n; reflexivity|].
  destruct (n =? 10)%N eqn:E3; [apply N.eqb_eq in E3; subst n; reflexivity|].
  destruct (n =? 13)%N eqn:E4; [apply N.eqb_eq in E4; subst n; reflexivity|].
  destruct (n =? 9)%N eqn:E5; [apply N.eqb_eq in E5; subst n; reflexivity|].
  destruct (n =? 12)%N eqn:E6; [apply N.eqb_eq in E6; subst n; reflexivity|].
  destruct (n =? 8)%N eqn:E7; [apply N.eqb_eq in E7; subst n; reflexivity|].
  apply N.eqb_neq in E1, E2.
  destruct ((32 <=? n)%N && (n <=? 126)%N) eqn:E8.
  { apply andb_prop in E8 as [Ha Hb]. apply N.leb_le in Ha, Hb.
    cbn [append]. apply scan_char_plain; assumption. }
  destruct (n <? 65536)%N eqn:E9.
  { apply N.ltb_lt in E9.
    change ((backslash ++ "u" ++ hex4 n) ++ rest)
      with (backslash ++ String "u" (hex4 n ++ rest)).
    rewrite scan_char_backslash. unfold scan_escape.
    change (Ascii.eqb "u" "u") with true. cbv iota.
    apply scan_unicode_hex4; assumption. }
  apply N.ltb_ge in E9. cbv zeta.
  change ((backslash ++ "u" ++ hex4 (55296 + (n - 65536) / 1024)
           ++ backslash ++ "u" ++ hex4 (56320 + (n - 65536) mod 1024)) ++ rest)
    with (backslash
          ++ String "u" ((hex4 (55296 + (n - 65536) / 1024)
                          ++ backslash ++ "u"
                          ++ hex4 (56320 + (n - 65536) mod 1024)) ++ rest)).
  rewrite scan_char_backslash. unfold scan_escape.
  change (Ascii.eqb "u" "u") with true. cbv iota.
  rewrite !app_assoc.
  change (("u" ++ hex4 (56320 + (n - 65536) mod 1024)) ++ rest)
    with ("u" ++ hex4 (56320 + (n - 65536) mod 1024) ++ rest).
  rewrite scan_unicode_pair by lia. f_equal. lia.
Qed.

Lemma escapes_cons n ns : escapes (n :: ns) = escape n ++ escapes ns.
Proof. unfold escapes. cbn [map]. apply concat_cons. Qed.

Lemma escape_u_plain n rest :
  (n < 256)%N -> n <> 92%N -> escape_u (String (ascii_of_N n) rest) = None.
Proof.
  intros Hb Hn. unfold escape_u. destruct rest as [|u rest]; [reflexivity|].
  rewrite byte_ascii by exact Hb.
  replace (N.to_nat n =? 92)%nat with false; [reflexivity|].
  symmetry. apply Nat.eqb_neq. lia.
Qed.

Lemma ahead_escapes n ns rest :
  Forall valid ns -> Utf8.split_pair (n :: ns) = false ->
  ahead_ok n (escapes ns ++ dq ++ rest).
Proof.
  intros Hns Hsplit Hhigh. destruct Hns as [|m ns Hm Hns].
  { change (escapes [] ++ dq ++ rest) with (dq ++ rest).
    unfold escape_u, dq. cbn [append]. destruct rest; reflexivity. }
  cbn [Utf8.split_pair] in Hsplit. rewrite Hhigh in Hsplit.
  apply orb_false_iff in Hsplit as [Hlow _]. cbn [andb] in Hlow.
  rewrite escapes_cons, app_assoc. set (X := escapes ns ++ dq ++ rest).
  unfold valid in Hm. unfold escape.
  destruct (m =? 34)%N eqn:E1; [reflexivity|].
  destruct (m =? 92)%N eqn:E2; [reflexivity|].
  destruct (m =? 10)%N eqn:E3; [reflexivity|].
  destruct (m =? 13)%N eqn:E4; [reflexivity|].
  destruct (m =? 9)%N eqn:E5; [reflexivity|].
  destruct (m =? 12)%N eqn:E6; [reflexivity|].
  destruct (m =? 8)%N eqn:E7; [reflexivity|].
  apply N.eqb_neq in E1, E2.
  destruct ((32 <=? m)%N && (m <=? 126)%N) eqn:E8.
  { apply andb_prop in E8 as [Ha Hb]. apply N.leb_le in Ha, Hb.
    cbn [append]. rewrite escape_u_plain by lia. exact I. }
  destruct (m <? 65536)%N eqn:E9.
  { apply N.ltb_lt in E9.
    change (escape_u ((backslash ++ "u" ++ hex4 m) ++ X))
      with (Some (hex4 m ++ X)).
    exists m, X. split; [apply read_hex4_hex4; exact E9|exact Hlow]. }
  apply N.ltb_ge in E9. cbv zeta.
  change (escape_u ((backslash ++ "u" ++ hex4 (55296 + (m - 65536) / 1024)
           ++ backslash ++ "u" ++ hex4 (56320 + (m - 65536) mod 1024)) ++ X))
    with (Some ((hex4 (55296 + (m - 65536) / 1024)
                 ++ backslash ++ "u" ++ hex4 (56320 + (m - 65536) mod 1024)) ++ X)).
  rewrite app_assoc. eexists _, _. split; [apply read_hex4_hex4; nlia|].
  unfold Utf8.is_low. apply andb_false_iff. left. apply N.leb_gt. nlia.
Qed.

Lemma split_pair_tail n ns :
  Utf8.split_pair (n :: ns) = false -> Utf8.split_pair ns = false.
Proof.
  destruct ns as [|m ns]; [reflexivity|]. cbn [Utf8.split_pair].
  intros H. apply orb_false_iff in H as [_ H]. exact H.
Qed.

(** The scanner reads back the characters that the encoder wrote. *)
Lemma scanstring_escapes ns :
  Forall valid ns -> Utf8.split_pair ns = false ->
  forall fuel rest, (List.length ns < fuel)%nat ->
    scanstring fuel (escapes ns ++ dq ++ rest) = Ok (Utf8.text ns, rest).
Proof.
  induction 1 as [|n ns Hn Hns IH]; intros Hsplit fuel rest Hfuel.
  - destruct fuel as [|fuel]; [inversion Hfuel|]. reflexivity.
  - destruct fuel as [|fuel]; [inversion Hfuel|]. cbn [List.length] in Hfuel.
    cbn [scanstring]. rewrite escapes_cons, app_assoc.
    rewrite scan_char_escape
      by (try apply ahead_escapes; assumption).
    unfold scanned. rewrite IH by (try (eapply split_pair_tail; eassumption); lia).
    cbn [bind fst snd]. rewrite text_cons. reflexivity.
Qed.

Lemma encode_basestring_ascii_text ns :
  Forall valid ns ->
  encode_basestring_ascii (Utf8.text ns) = dq ++ escapes ns ++ dq.
Proof.
  intros H. unfold encode_basestring_ascii. rewrite codes_text by exact H. reflexivity.
Qed.

(** ** Numbers *)

Lemma stops_head c s :
  stops (String c s) = true ->
  is_digit c = false /\ Ascii.eqb c "." = false /\ Ascii.eqb c "e" = false
  /\ Ascii.eqb c "E" = false /\ Ascii.eqb c "+" = false /\ Ascii.eqb c "-" = false.
Proof.
  cbn [stops]. intros H. apply negb_true_iff in H.
  repeat (apply orb_false_iff in H as [H ?]). repeat split; assumption.
Qed.

Lemma digits_app s r :
  stops r = true -> digits (s ++ r) = (fst (digits s), snd (digits s) ++ r).
Proof.
  intros Hr. induction s as [|c s IH].
  - cbn [append digits fst snd]. destruct r as [|c r]; [reflexivity|].
    apply stops_head in Hr as (Hd & _). cbn [digits]. rewrite Hd. reflexivity.
  - cbn [append digits]. destruct (is_digit c); [|reflexivity].
    rewrite IH. destruct (digits s) as [ds t]. reflexivity.
Qed.

Lemma digits_split s : s = fst (digits s) ++ snd (digits s).
Proof.
  induction s as [|c s IH]; [reflexivity|]. cbn [digits].
  destruct (is_digit c); [|reflexivity].
  destruct (digits s) as [ds t]. cbn [fst snd append] in *. rewrite <- IH. reflexivity.
Qed.

Lemma integer_app s r whole t :
  stops r = true -> integer s = Some (whole, t) ->
  integer (s ++ r) = Some (whole, t ++ r).
Proof.
  intros Hr. unfold integer. destruct s as [|c s]; [discriminate|].
  cbn [append].
  assert (H : forall sign u,
    match u with
    | "" => None
    | String c0 r' =>
        if Ascii.eqb c0 "0" then Some (sign ++ "0", r')
        else if is_digit c0
             then let (ds, r'') := digits r' in Some (sign ++ String c0 ds, r'')
             else None
    end = Some (whole, t) ->
    match u ++ r with
    | "" => None
    | String c0 r' =>
        if Ascii.eqb c0 "0" then Some (sign ++ "0", r')
        else if is_digit c0
             then let (ds, r'') := digits r' in Some (sign ++ String c0 ds, r'')
             else None
    end = Some (whole, t ++ r)).
  { intros sign [|c0 u]; [discriminate|]. cbn [append].
    destruct (Ascii.eqb c0 "0"); [intros [= <- <-]; reflexivity|].
    destruct (is_digit c0); [|discriminate].
    rewrite (digits_app u r Hr). destruct (digits u) as [ds u'].
    cbn [fst snd]. intros [= <- <-]. reflexivity. }
  destruct (Ascii.eqb c "-").
  - apply (H "-" s).
  - apply (H "" (String c s)).
Qed.

Lemma integer_split s whole t : integer s = Some (whole, t) -> s = whole ++ t.
Proof.
  unfold integer.
  assert (H : forall sign u,
    match u with
    | "" => None
    | String c0 r' =>
        if Ascii.eqb c0 "0" then Some (sign ++ "0", r')
        else if is_digit c0
             then let (ds, r'') := digits r' in Some (sign ++ String c0 ds, r'')
             else None
    end = Some (whole, t) -> sign ++ u = whole ++ t).
  { intros sign [|c0 u]; [discriminate|].
    destruct (Ascii.eqb c0 "0") eqn:E0.
    { apply Ascii.eqb_eq in E0. subst c0. intros [= <- <-].
      rewrite app_assoc. reflexivity. }
    destruct (is_digit c0); [|discriminate].
    pose proof (digits_split u) as Hu. destruct (digits u) as [ds u'].
    cbn [fst snd] in Hu. intros [= <- <-]. rewrite app_assoc, Hu. reflexivity. }
  destruct s as [|c s]; [discriminate|].
  destruct (Ascii.eqb c "-") eqn:Ec.
  - apply Ascii.eqb_eq in Ec. subst c. apply (H "-" s).
  - apply (H "" (String c s)).
Qed.

Lemma fraction_app s r :
  stops r = true -> fraction (s ++ r) = (fst (fraction s), snd (fraction s) ++ r).
Proof.
  intros Hr. destruct s as [|c s].
  - cbn [append fraction fst snd]. destruct r as [|c r]; [reflexivity|].
    apply stops_head in Hr as (_ & Hp & _). cbn [fraction]. rewrite Hp. reflexivity.
  - cbn [append fraction]. destruct (Ascii.eqb c "."); [|reflexivity].
    rewrite (digits_app s r Hr). destruct (digits s) as [[|d ds] t]; reflexivity.
Qed.

Lemma fraction_split s : s = fst (fraction s) ++ snd (fraction s).
Proof.
  destruct s as [|c s]; [reflexivity|]. cbn [fraction].
  destruct (Ascii.eqb c "."); [|reflexivity].
  pose proof (digits_split s) as Hs. destruct (digits s) as [[|d ds] t]; [reflexivity|].
  cbn [fst snd append] in *. rewrite <- Hs. reflexivity.
Qed.

Lemma exponent_app s r :
  stops r = true -> exponent (s ++ r) = (fst (exponent s), snd (exponent s) ++ r).
Proof.
  intros Hr. destruct s as [|c s].
  - cbn [append exponent fst snd]. destruct r as [|c r]; [reflexivity|].
    apply stops_head in Hr as (_ & _ & He & HE & _). cbn [exponent].
    rewrite He, HE. reflexivity.
  - cbn [append exponent]. destruct (Ascii.eqb c "e" || Ascii.eqb c "E"); [|reflexivity].
    destruct s as [|c' s].
    + cbn [append]. destruct r as [|c0 r]; [reflexivity|].
      apply stops_head in Hr as (Hd & _ & _ & _ & Hplus & Hminus).
      rewrite Hplus, Hminus. cbn [orb digits]. rewrite Hd. reflexivity.
    + cbn [append]. destruct (Ascii.eqb c' "+" || Ascii.eqb c' "-").
      * rewrite (digits_app s r Hr). destruct (digits s) as [[|d ds] t]; reflexivity.
      * change (String c' (s ++ r)) with (String c' s ++ r).
        rewrite (digits_app (String c' s) r Hr).
        destruct (digits (String c' s)) as [[|d ds] t]; reflexivity.
Qed.

Lemma exponent_split s : s = fst (exponent s) ++ snd (exponent s).
Proof.
  destruct s as [|c s]; [reflexivity|]. cbn [exponent].
  destruct (Ascii.eqb c "e" || Ascii.eqb c "E"); [|reflexivity].
  destruct s as [|c' s].
  - reflexivity.
  - destruct (Ascii.eqb c' "+" || Ascii.eqb c' "-").
    + pose proof (digits_split s) as Hs.
      destruct (digits s) as [[|d ds] t]; [reflexivity|].
      cbn [fst snd append] in *. rewrite <- Hs. reflexivity.
    + pose proof (digits_split (String c' s)) as Hs.
      destruct (digits (String c' s)) as [[|d ds] t]; [reflexivity|].
      cbn [fst snd append] in *. rewrite <- Hs. reflexivity.
Qed.

Section Numbers.

Variable parse_float : string -> spec_float.

Lemma match_number_float s r :
  float_literal s = true -> stops r = true ->
  match_number parse_float (s ++ r) = Some (VFloat (parse_float s), r).
Proof.
  unfold float_literal, match_number. intros Hs Hr.
  destruct (integer s) as [[whole t]|] eqn:Hi; [|discriminate].
  rewrite (integer_app _ _ _ _ Hr Hi).
  rewrite (fraction_app _ _ Hr). pose proof (fraction_split t) as Hf.
  destruct (fraction t) as [frac t1]. cbn [fst snd] in *.
  rewrite (exponent_app _ _ Hr). pose proof (exponent_split t1) as He.
  destruct (exponent t1) as [exp t2]. cbn [fst snd] in *.
  apply andb_prop in Hs as [Hend Hsome]. apply String.eqb_eq in Hend. subst t2.
  apply negb_true_iff in Hsome. rewrite Hsome. cbn [append].
  rewrite app_empty in He. subst t1. subst t.
  apply integer_split in Hi. subst s. reflexivity.
Qed.

Lemma fraction_stops r : stops r = true -> fraction r = ("", r).
Proof. intros H. apply (fraction_app "" r H). Qed.

Lemma exponent_stops r : stops r = true -> exponent r = ("", r).
Proof. intros H. apply (exponent_app "" r H). Qed.

Lemma digits_uint d r :
  stops r = true ->
  digits (NilEmpty.string_of_uint d ++ r) = (NilEmpty.string_of_uint d, r).
Proof.
  intros Hr. induction d; cbn [NilEmpty.string_of_uint append].
  1: { destruct r as [|c r]; [reflexivity|].
       apply stops_head in Hr as (Hd & _). cbn [digits]. rewrite Hd. reflexivity. }
  all: cbn [digits]; match goal with |- context [is_digit ?c] =>
         change (is_digit c) with true end; cbv iota; rewrite IHd; reflexivity.
Qed.

Lemma nzhead_head d d' : nzhead d <> D0 d'.
Proof. induction d; cbn [nzhead]; try discriminate. exact IHd. Qed.

Lemma to_uint_head p :
  exists c t, NilEmpty.string_of_uint (Pos.to_uint p) = String c t
              /\ is_digit c = true /\ Ascii.eqb c "0" = false
              /\ Ascii.eqb c "-" = false
              /\ exists d, t = NilEmpty.string_of_uint d.
Proof.
  assert (Hnorm : unorm (Pos.to_uint p) = Pos.to_uint p).
  { rewrite <- (Unsigned.to_of (Pos.to_uint p)), Unsigned.of_to. reflexivity. }
  pose proof (Unsigned.to_uint_nonnil p) as Hnil.
  pose proof (Unsigned.to_uint_nonzero p) as Hzero.
  destruct (Pos.to_uint p) as [|d|d|d|d|d|d|d|d|d|d]; [congruence|..].
  1: { exfalso. unfold unorm in Hnorm. cbn [nzhead] in Hnorm.
       destruct (nzhead d) eqn:Hd; apply (nzhead_head d d); congruence. }
  all: eexists _, _; split; [reflexivity|]; repeat split; eauto.
Qed.

Lemma decimal_string z :
  Fmt.decimal z = "0"
  \/ exists sign c d,
       Fmt.decimal z = sign ++ String c (NilEmpty.string_of_uint d)
       /\ (sign = "" \/ sign = "-")
       /\ is_digit c = true /\ Ascii.eqb c "0" = false /\ Ascii.eqb c "-" = false.
Proof.
  unfold Fmt.decimal. destruct z as [|p|p]; [left; reflexivity|right..].
  - destruct (to_uint_head p) as (c & t & Hp & Hd & H0 & Hm & d & ->).
    exists "", c, d.
    cbn [Z.to_int NilZero.string_of_int]. unfold NilZero.string_of_uint.
    pose proof (Unsigned.to_uint_nonnil p) as Hnil.
    destruct (Pos.to_uint p); [congruence|..]; rewrite Hp; auto.
  - destruct (to_uint_head p) as (c & t & Hp & Hd & H0 & Hm & d & ->).
    exists "-", c, d.
    cbn [Z.to_int NilZero.string_of_int]. unfold NilZero.string_of_uint.
    pose proof (Unsigned.to_uint_nonnil p) as Hnil.
    destruct (Pos.to_uint p); [congruence|..]; rewrite Hp; auto.
Qed.

Lemma integer_decimal z r :
  stops r = true -> integer (Fmt.decimal z ++ r) = Some (Fmt.decimal z, r).
Proof.
  intros Hr. destruct (decimal_string z)
    as [->|(sign & c & d & -> & Hsign & Hd & H0 & Hm)]; [reflexivity|].
  unfold integer. destruct Hsign as [-> | ->]; cbn [append].
  - rewrite Hm, H0, Hd. rewrite (digits_uint d r Hr). reflexivity.
  - change (Ascii.eqb "-" "-") with true. cbv iota.
    rewrite H0, Hd. rewrite (digits_uint d r Hr). reflexivity.
Qed.

Lemma parse_int_decimal z : parse_int (Fmt.decimal z) = z.
Proof.
  unfold parse_int, Fmt.decimal. rewrite NilZero.isi.
  - apply DecimalZ.of_to.
  - destruct z as [|p|p]; cbn [Z.to_int]; try discriminate.
    intros [= H]. exact (Unsigned.to_uint_nonnil p H).
  - destruct z as [|p|p]; cbn [Z.to_int]; try discriminate.
    intros [= H]. exact (Unsigned.to_uint_nonnil p H).
Qed.

Lemma match_number_decimal z r :
  stops r = true ->
  match_number parse_float (Fmt.decimal z ++ r) = Some (VInt z, r).
Proof.
  intros Hr. unfold match_number.
  rewrite (integer_decimal z r Hr), (fraction_stops r Hr), (exponent_stops r Hr).
  cbn [String.eqb andb]. rewrite parse_int_decimal. reflexivity.
Qed.

End Numbers.

Lemma value_ind' (P : value -> Prop) :
  P VNone -> (forall b, P (VBool b)) -> (forall z, P (VInt z)) ->
  (forall f, P (VFloat f)) -> (forall s, P (VStr s)) ->
  (forall l, Forall P l -> P (VList l)) ->
  (forall kvs, Forall (fun kv => P (snd kv)) kvs -> P (VDict kvs)) ->
  forall v, P v.
Proof.
  intros HN HB HI HF HS HL HD. fix IH 1.
  intros [| b | z | f | s | l | kvs];
    [exact HN|apply HB|apply HI|apply HF|apply HS|..].
  - apply HL. revert l. fix IHl 1. intros [|x l]; constructor; [apply IH|apply IHl].
  - apply HD. revert kvs. fix IHk 1. intros [|[k x] kvs]; constructor;
      [apply IH|apply IHk].
Qed.

Lemma substring_all s : String.substring 0 (String.length s) s = s.
Proof.
  induction s as [|c s IH]; [reflexivity|].
  cbn [String.length String.substring]. rewrite IH. reflexivity.
Qed.

Lemma after_app p rest : after (String.length p) (p ++ rest) = rest.
Proof.
  unfold after. induction p as [|c p IH].
  - cbn [append String.length]. rewrite Nat.sub_0_r. apply substring_all.
  - cbn [append String.length String.substring Nat.sub]. exact IH.
Qed.

Lemma skip_ws_spaces n s : skip_ws (spaces n ++ s) = skip_ws s.
Proof. induction n as [|n IH]; [reflexivity|]. cbn [spaces append skip_ws]. exact IH. Qed.

Lemma skip_ws_newline_indent indent level s :
  skip_ws (newline_indent indent level ++ s) = skip_ws s.
Proof.
  unfold newline_indent. rewrite app_assoc.
  change (skip_ws (nl ++ spaces (indent * level) ++ s))
    with (skip_ws (spaces (indent * level) ++ s)).
  apply skip_ws_spaces.
Qed.

Lemma value_head_facts c :
  value_head c = true ->
  is_ws c = false /\ Ascii.eqb c "]" = false /\ Ascii.eqb c "}" = false
  /\ Ascii.eqb c "," = false /\ Ascii.eqb c ":" = false.
Proof.
  destruct c as [[] [] [] [] [] [] [] []]; intros H;
    solve [discriminate H | repeat split; reflexivity].
Qed.

Lemma skip_ws_opens s : opens s = true -> skip_ws s = s.
Proof.
  destruct s as [|c s]; [discriminate|]. cbn [opens skip_ws].
  intros H. apply value_head_facts in H as (-> & _). reflexivity.
Qed.

Lemma opens_app s t : opens s = true -> opens (s ++ t) = true.
Proof. destruct s; [discriminate|]. intros H. exact H. Qed.

Lemma stops_newline_indent indent level s : stops (newline_indent indent level ++ s) = true.
Proof. reflexivity. Qed.

Lemma stops_comma s : stops ("," ++ s) = true.
Proof. reflexivity. Qed.

(** ** The scanner on the encoder's text *)

Section RoundTrip.

Variable float_repr : spec_float -> string.
Variable parse_float : string -> spec_float.

Local Abbreviation scan_value_of := (scan_value parse_float).
Local Abbreviation scan_once_of := (scan_once parse_float).
Local Abbreviation encode_at := (iterencode float_repr 2).
Local Abbreviation wf := (well_formed float_repr parse_float).

Lemma scan_value_number fuel scan c t :
  number_head c = true ->
  scan_value_of fuel scan (String c t)
  = match match_number parse_float (String c t) with
    | Some x => Ok x
    | None =>
        if String.prefix "-Infinity" (String c t)
        then Ok (VFloat (S754_infinity true), after 9 (String c t))
        else Raise ValueError
    end.
Proof.
  destruct c as [[] [] [] [] [] [] [] []]; intros H;
    solve [discriminate H | reflexivity].
Qed.

Lemma integer_head s whole t :
  integer s = Some (whole, t) ->
  exists c u, s = String c u /\ number_head c = true.
Proof.
  unfold integer, number_head. destruct s as [|c s]; [discriminate|].
  intros H. exists c, s. split; [reflexivity|].
  destruct (Ascii.eqb c "-"); [reflexivity|]. cbn [orb].
  destruct (Ascii.eqb c "0") eqn:E0.
  - apply Ascii.eqb_eq in E0. subst c. reflexivity.
  - destruct (is_digit c); [reflexivity|discriminate].
Qed.

Lemma float_literal_head s :
  float_literal s = true -> exists c u, s = String c u /\ number_head c = true.
Proof.
  unfold float_literal. destruct (integer s) as [[whole t]|] eqn:H; [|discriminate].
  intros _. exact (integer_head _ _ _ H).
Qed.

Lemma decimal_head z :
  exists c u, Fmt.decimal z = String c u /\ number_head c = true.
Proof.
  apply (integer_head (Fmt.decimal z) (Fmt.decimal z) "").
  rewrite <- (app_empty (Fmt.decimal z)) at 1. apply integer_decimal. reflexivity.
Qed.

Lemma number_head_value c : number_head c = true -> value_head c = true.
Proof.
  unfold number_head, value_head. intros H. apply orb_prop in H as [-> | ->];
    rewrite ?orb_true_r; reflexivity.
Qed.

Lemma scan_once_int fuel z rest :
  stops rest = true ->
  scan_once_of (S fuel) (Fmt.decimal z ++ rest) = Ok (VInt z, rest).
Proof.
  intros Hr. destruct (decimal_head z) as (c & u & Hz & Hc).
  cbn [scan_once]. pose proof (match_number_decimal parse_float z rest Hr) as Hm.
  rewrite Hz in *. cbn [append] in *. rewrite (scan_value_number _ _ _ _ Hc), Hm.
  reflexivity.
Qed.

Lemma scan_once_float fuel f rest :
  float_kept float_repr parse_float f -> stops rest = true ->
  scan_once_of (S fuel) (floatstr float_repr f ++ rest) = Ok (VFloat f, rest).
Proof.
  intros Hf Hr. cbn [scan_once].
  assert (Hfinite : is_finite f = true ->
            scan_value_of fuel (scan_once_of fuel) (float_repr f ++ rest)
            = Ok (VFloat f, rest)).
  { intros H. destruct (Hf H) as [Hlit Hback].
    destruct (float_literal_head _ Hlit) as (c & u & Hs & Hc).
    pose proof (match_number_float parse_float _ rest Hlit Hr) as Hm.
    rewrite Hback in Hm. rewrite Hs in *. cbn [append] in *.
    rewrite (scan_value_number _ _ _ _ Hc), Hm. reflexivity. }
  destruct f as [s|[]| |s m e]; cbn [floatstr].
  - apply Hfinite. reflexivity.
  - rewrite <- (after_app "-Infinity" rest) at 2. destruct rest; reflexivity.
  - rewrite <- (after_app "Infinity" rest) at 2. destruct rest; reflexivity.
  - rewrite <- (after_app "NaN" rest) at 2. destruct rest; reflexivity.
  - apply Hfinite. reflexivity.
Qed.

Lemma scan_once_none fuel rest :
  scan_once_of (S fuel) ("null" ++ rest) = Ok (VNone, rest).
Proof. rewrite <- (after_app "null" rest) at 2. destruct rest; reflexivity. Qed.

Lemma scan_once_bool fuel (b : bool) rest :
  scan_once_of (S fuel) ((if b then "true" else "false") ++ rest)
  = Ok (VBool b, rest).
Proof.
  destruct b.
  - rewrite <- (after_app "true" rest) at 2. destruct rest; reflexivity.
  - rewrite <- (after_app "false" rest) at 2. destruct rest; reflexivity.
Qed.

Lemma scan_once_str fuel s rest :
  is_text s -> pairs_joined s = true -> (1 + List.length (Utf8.codes s) <= fuel)%nat ->
  scan_once_of (S fuel) (encode_basestring_ascii s ++ rest) = Ok (VStr s, rest).
Proof.
  intros (ns & -> & Hns) Hj Hfuel. unfold pairs_joined in Hj.
  rewrite codes_text in Hj, Hfuel by exact Hns. apply negb_true_iff in Hj.
  rewrite encode_basestring_ascii_text by exact Hns.
  cbn [scan_once]. rewrite !app_assoc.
  change (scan_value_of fuel (scan_once_of fuel) (dq ++ escapes ns ++ dq ++ rest))
    with (x <- scanstring fuel (escapes ns ++ dq ++ rest) ;; Ok (VStr (fst x), snd x)).
  rewrite scanstring_escapes by (try assumption; lia). reflexivity.
Qed.

Lemma opens_encode level v : wf v -> opens (encode_at level v) = true.
Proof.
  destruct v as [|[]|z|f|s|[|x l]|[|kv kvs]]; try reflexivity.
  - intros _. destruct (decimal_head z) as (c & u & Hz & Hc).
    cbn [iterencode]. rewrite Hz. apply number_head_value, Hc.
  - intros Hf. cbn [iterencode well_formed] in *.
    destruct f as [s|[]| |s m e]; try reflexivity; cbn [floatstr].
    + destruct (Hf eq_refl) as [Hlit _].
      destruct (float_literal_head _ Hlit) as (c & u & -> & Hc).
      apply number_head_value, Hc.
    + destruct (Hf eq_refl) as [Hlit _].
      destruct (float_literal_head _ Hlit) as (c & u & -> & Hc).
      apply number_head_value, Hc.
Qed.

End RoundTrip.

Lemma concat_two sep x y l :
  String.concat sep (x :: y :: l) = x ++ sep ++ String.concat sep (y :: l).
Proof. reflexivity. Qed.

Section Containers.

Variable scan : string -> result (value * string).
Variable string_at : string -> result (string * string).

Lemma elements_last k x s r rest :
  scan s = Ok (x, r) -> skip_ws r = "]" ++ rest ->
  elements scan (S k) s = Ok ([x], rest).
Proof. intros Hs Hr. cbn [elements]. rewrite Hs. cbn [bind fst snd]. rewrite Hr. reflexivity. Qed.

Lemma elements_more k x s r r' :
  scan s = Ok (x, r) -> skip_ws r = "," ++ r' ->
  elements scan (S k) s
  = xs <- elements scan k (skip_ws r') ;; Ok (x :: fst xs, snd xs).
Proof. intros Hs Hr. cbn [elements]. rewrite Hs. cbn [bind fst snd]. rewrite Hr. reflexivity. Qed.

Lemma members_last k key x s r1 r2 r3 rest :
  string_at s = Ok (key, r1) -> skip_ws r1 = ":" ++ r2 ->
  scan (skip_ws r2) = Ok (x, r3) -> skip_ws r3 = "}" ++ rest ->
  members scan string_at (S k) s = Ok ([(key, x)], rest).
Proof.
  intros H1 H2 H3 H4. cbn [members]. rewrite H1. cbn [bind fst snd]. rewrite H2.
  cbn [append Ascii.eqb Bool.eqb]. rewrite H3. cbn [bind fst snd]. rewrite H4.
  reflexivity.
Qed.

Lemma members_more k key x s r1 r2 r3 r4 r5 :
  string_at s = Ok (key, r1) -> skip_ws r1 = ":" ++ r2 ->
  scan (skip_ws r2) = Ok (x, r3) -> skip_ws r3 = "," ++ r4 ->
  skip_ws r4 = dq ++ r5 ->
  members scan string_at (S k) s
  = xs <- members scan string_at k r5 ;; Ok ((key, x) :: fst xs, snd xs).
Proof.
  intros H1 H2 H3 H4 H5. cbn [members]. rewrite H1. cbn [bind fst snd]. rewrite H2.
  cbn [append Ascii.eqb Bool.eqb]. rewrite H3. cbn [bind fst snd]. rewrite H4.
  cbn [append Ascii.eqb Bool.eqb]. rewrite H5. reflexivity.
Qed.

Variable enc : value -> string.
Variables inner outer : nat.

Local Abbreviation sep := ("," ++ newline_indent 2 inner).
Local Abbreviation reads := (Json.reads scan enc).
Local Abbreviation member := (Json.member enc).
Local Abbreviation reads_key := (Json.reads_key string_at).

Lemma opens_concat x items rest :
  reads x -> opens (String.concat sep (map enc (x :: items)) ++ rest) = true.
Proof.
  intros [Hx _]. destruct items; cbn [map]; [apply opens_app, Hx|].
  rewrite concat_two, !app_assoc. apply opens_app, Hx.
Qed.

Lemma elements_encoded items :
  items <> [] -> (forall x, In x items -> reads x) ->
  forall k rest, (List.length items <= k)%nat ->
    elements scan k
      (String.concat sep (map enc items) ++ newline_indent 2 outer ++ "]" ++ rest)
    = Ok (items, rest).
Proof.
  induction items as [|x items IH]; [congruence|]. intros _ Hall k rest Hk.
  destruct k as [|k]; [inversion Hk|]. cbn [List.length] in Hk.
  destruct (Hall x (or_introl eq_refl)) as [_ Hx].
  destruct items as [|y items].
  - cbn [map String.concat].
    apply (elements_last _ _ _ (newline_indent 2 outer ++ "]" ++ rest));
      [apply Hx; reflexivity|].
    rewrite skip_ws_newline_indent. reflexivity.
  - change (map enc (x :: y :: items)) with (enc x :: map enc (y :: items)).
    cbn [map]. rewrite concat_two, !app_assoc.
    change (enc y :: map enc items) with (map enc (y :: items)).
    erewrite (elements_more k x _
               (sep ++ String.concat sep (map enc (y :: items))
                ++ newline_indent 2 outer ++ "]" ++ rest)
               (newline_indent 2 inner ++ String.concat sep (map enc (y :: items))
                ++ newline_indent 2 outer ++ "]" ++ rest));
      [|apply Hx; reflexivity|reflexivity].
    rewrite skip_ws_newline_indent, skip_ws_opens
      by (apply opens_concat, Hall; right; left; reflexivity).
    rewrite IH; [reflexivity|discriminate| |cbn [List.length] in *; lia].
    intros z Hz. apply Hall. right. exact Hz.
Qed.

Lemma member_text k x rest :
  member (k, x) ++ rest = dq ++ key_tail k ++ ": " ++ enc x ++ rest.
Proof.
  unfold member, encode_basestring_ascii, key_tail, escapes.
  rewrite !app_assoc. reflexivity.
Qed.

Lemma concat_members kv kvs rest :
  String.concat sep (map member (kv :: kvs)) ++ rest
  = member kv
    ++ match kvs with
       | [] => ""
       | _ :: _ => sep ++ String.concat sep (map member kvs)
       end ++ rest.
Proof.
  destruct kvs as [|kv' kvs]; [reflexivity|].
  cbn [map]. rewrite concat_two, !app_assoc. reflexivity.
Qed.

Lemma members_encoded kvs :
  (forall k x, In (k, x) kvs -> reads_key k /\ reads x) ->
  forall k x n rest, (S (List.length kvs) <= n)%nat -> reads_key k -> reads x ->
    members scan string_at n
      (key_tail k ++ ": " ++ enc x
       ++ match kvs with
          | [] => ""
          | _ :: _ => sep ++ String.concat sep (map member kvs)
          end ++ newline_indent 2 outer ++ "}" ++ rest)
    = Ok ((k, x) :: kvs, rest).
Proof.
  induction kvs as [|[k' x'] kvs IH]; intros Hall k x n rest Hn Hk [Hopen Hx];
    (destruct n as [|n]; [inversion Hn|]); cbn [List.length] in Hn.
  - apply (members_last _ _ _ _
             (": " ++ enc x ++ "" ++ newline_indent 2 outer ++ "}" ++ rest)
             (" " ++ enc x ++ newline_indent 2 outer ++ "}" ++ rest)
             (newline_indent 2 outer ++ "}" ++ rest)).
    + apply Hk.
    + reflexivity.
    + change (skip_ws (" " ++ enc x ++ newline_indent 2 outer ++ "}" ++ rest))
        with (skip_ws (enc x ++ newline_indent 2 outer ++ "}" ++ rest)).
      rewrite skip_ws_opens by (apply opens_app, Hopen). apply Hx. reflexivity.
    + rewrite skip_ws_newline_indent. reflexivity.
  - destruct (Hall k' x' (or_introl eq_refl)) as [Hk' Hx'].
    cbv beta iota. rewrite !app_assoc, concat_members, member_text, !app_assoc.
    erewrite (members_more n k x _
             (": " ++ enc x ++ "," ++ newline_indent 2 inner ++ dq ++ key_tail k'
              ++ ": " ++ enc x'
              ++ match kvs with
                 | [] => ""
                 | _ :: _ => sep ++ String.concat sep (map member kvs)
                 end ++ newline_indent 2 outer ++ "}" ++ rest)
             (" " ++ enc x ++ "," ++ newline_indent 2 inner ++ dq ++ key_tail k'
              ++ ": " ++ enc x'
              ++ match kvs with
                 | [] => ""
                 | _ :: _ => sep ++ String.concat sep (map member kvs)
                 end ++ newline_indent 2 outer ++ "}" ++ rest)
             ("," ++ newline_indent 2 inner ++ dq ++ key_tail k'
              ++ ": " ++ enc x'
              ++ match kvs with
                 | [] => ""
                 | _ :: _ => sep ++ String.concat sep (map member kvs)
                 end ++ newline_indent 2 outer ++ "}" ++ rest)
             (newline_indent 2 inner ++ dq ++ key_tail k'
              ++ ": " ++ enc x'
              ++ match kvs with
                 | [] => ""
                 | _ :: _ => sep ++ String.concat sep (map member kvs)
                 end ++ newline_indent 2 outer ++ "}" ++ rest)
             (key_tail k'
              ++ ": " ++ enc x'
              ++ match kvs with
                 | [] => ""
                 | _ :: _ => sep ++ String.concat sep (map member kvs)
                 end ++ newline_indent 2 outer ++ "}" ++ rest)).
    + rewrite IH; [reflexivity| |lia|exact Hk'|exact Hx'].
      intros k0 x0 H0. apply Hall. right. exact H0.
    + apply Hk.
    + reflexivity.
    + match goal with
      | |- scan (skip_ws (" " ++ ?t)) = _ =>
          change (skip_ws (" " ++ t)) with (skip_ws t)
      end.
      rewrite skip_ws_opens by (apply opens_app, Hopen). apply Hx. reflexivity.
    + reflexivity.
    + rewrite skip_ws_newline_indent. reflexivity.
Qed.

End Containers.

(** ** The length of the encoder's text *)

Lemma all_in (Ps : list Prop) P : fold_right and True Ps -> In P Ps -> P.
Proof.
  induction Ps as [|Q Ps IH]; [intros _ []|]. cbn [fold_right].
  intros [HQ HPs] [->|H]; [exact HQ|exact (IH HPs H)].
Qed.


Lemma escape_length n : (1 <= String.length (escape n))%nat.
Proof.
  unfold escape.
  repeat match goal with
         | |- context [if ?b then _ else _] => destruct b
         end; cbn; lia.
Qed.

Lemma escapes_length ns : (List.length ns <= String.length (escapes ns))%nat.
Proof.
  induction ns as [|n ns IH]; [reflexivity|].
  rewrite escapes_cons, length_app. pose proof (escape_length n).
  cbn [List.length]. lia.
Qed.

Lemma string_length s :
  (2 + List.length (Utf8.codes s) <= String.length (encode_basestring_ascii s))%nat.
Proof.
  unfold encode_basestring_ascii. fold (escapes (Utf8.codes s)).
  rewrite !length_app. pose proof (escapes_length (Utf8.codes s)).
  cbn [dq String.length]. lia.
Qed.

Lemma concat_length sep l :
  (list_sum (map String.length l) <= String.length (String.concat sep l))%nat.
Proof.
  unfold list_sum. induction l as [|x l IH]; [reflexivity|].
  destruct l as [|y l]; [cbn; lia|].
  rewrite concat_two, !length_app. cbn [map fold_right] in *. lia.
Qed.

Lemma opens_length s : opens s = true -> (1 <= String.length s)%nat.
Proof. destruct s; [discriminate|]. cbn [String.length]. lia. Qed.

Lemma list_sum_le {A : Type} (f g : A -> nat) l :
  (forall x, In x l -> f x <= g x)%nat ->
  (list_sum (map f l) <= list_sum (map g l))%nat.
Proof.
  unfold list_sum. induction l as [|x l IH]; [reflexivity|]. intros H.
  cbn [map fold_right]. pose proof (H x (or_introl eq_refl)).
  assert (fold_right Nat.add 0 (map f l) <= fold_right Nat.add 0 (map g l))%nat.
  { apply IH. intros y Hy. apply H. right. exact Hy. }
  lia.
Qed.

Section Length.

Variable float_repr : spec_float -> string.
Variable parse_float : string -> spec_float.

Local Abbreviation encode_at := (iterencode float_repr 2).
Local Abbreviation wf := (well_formed float_repr parse_float).

Lemma size_length v :
  wf v -> forall level, (size v <= String.length (encode_at level v))%nat.
Proof.
  induction v as [|b|z|f|s|l IH|kvs IH] using value_ind'; intros Hwf level.
  - cbn. lia.
  - destruct b; cbn; lia.
  - apply (opens_length _ (opens_encode float_repr parse_float level (VInt z) Hwf)).
  - apply (opens_length _ (opens_encode float_repr parse_float level (VFloat f) Hwf)).
  - apply string_length.
  - destruct l as [|x l]; [cbn; lia|]. cbn [size iterencode].
    rewrite !length_app.
    pose proof (concat_length ("," ++ newline_indent 2 (S level))
                  (map (encode_at (S level)) (x :: l))) as Hc.
    rewrite map_map in Hc.
    assert (Hs : (list_sum (map size (x :: l))
                  <= list_sum (map (fun v => String.length (encode_at (S level) v))
                                 (x :: l)))%nat).
    { apply list_sum_le. intros y Hy. rewrite Forall_forall in IH.
      apply (IH y Hy). apply (all_in _ _ Hwf). apply in_map. exact Hy. }
    cbn [String.length]. lia.
  - destruct kvs as [|[k x] kvs]; [cbn; lia|]. cbn [size iterencode].
    rewrite !length_app. destruct Hwf as [_ Hwf].
    match goal with
    | |- context [String.concat ?sep (map ?f ?l)] =>
        pose proof (concat_length sep (map f l)) as Hc;
        set (body := String.concat sep (map f l)) in *
    end.
    rewrite map_map in Hc.
    match type of Hc with
    | (list_sum (map ?g _) <= _)%nat =>
        assert (Hs : (list_sum
                        (map (fun kv : string * value => let (k, x) := kv in
                                (2 + List.length (Utf8.codes k) + size x)%nat)
                           ((k, x) :: kvs))
                      <= list_sum (map g ((k, x) :: kvs)))%nat)
    end.
    { apply list_sum_le. intros [k' x'] Hin. rewrite !length_app.
      pose proof (string_length k'). rewrite Forall_forall in IH.
      assert (Hx' : wf x').
      { apply (all_in _ _ Hwf
                 (in_map (fun kv : string * value => let (k, x) := kv in
                            is_text k /\ wf x) _ _ Hin)). }
      pose proof (IH _ Hin Hx' (S level)) as Hlen. cbn [snd] in Hlen. lia. }
    cbn [String.length]. lia.
Qed.

End Length.

Lemma update_fresh k v kvs :
  ~ In k (map fst kvs) -> update k v kvs = (kvs ++ [(k, v)])%list.
Proof.
  induction kvs as [|[k' v'] kvs IH]; [reflexivity|]. cbn [map fst In].
  intros H. cbn [update List.app]. destruct (String.eqb_spec k k') as [->|_].
  - exfalso. apply H. left. reflexivity.
  - rewrite IH; [reflexivity|]. intros Hin. apply H. right. exact Hin.
Qed.

Lemma dict_from acc kvs :
  NoDup (map fst (acc ++ kvs)%list) ->
  fold_left (fun a kv => update (fst kv) (snd kv) a) kvs acc = (acc ++ kvs)%list.
Proof.
  revert acc. induction kvs as [|[k v] kvs IH]; intros acc H.
  - rewrite List.app_nil_r. reflexivity.
  - cbn [fold_left fst snd]. rewrite update_fresh.
    + rewrite IH; rewrite <- List.app_assoc; [reflexivity|exact H].
    + rewrite map_app in H. cbn [map fst] in H.
      apply NoDup_remove_2 in H. intros Hin. apply H.
      apply in_or_app. left. exact Hin.
Qed.

Lemma dict_nodup kvs : NoDup (map fst kvs) -> dict kvs = kvs.
Proof. intros H. apply (dict_from [] kvs H). Qed.

Lemma size_pos v : (1 <= size v)%nat.
Proof. destruct v; cbn [size]; lia. Qed.

Lemma list_sum_bound {A : Type} (f : A -> nat) l x :
  In x l -> (f x <= list_sum (map f l))%nat.
Proof.
  unfold list_sum. induction l as [|y l IH]; [intros []|]. cbn [map fold_right].
  intros [->|H]; [lia|]. specialize (IH H). lia.
Qed.

Lemma list_sum_length {A : Type} (f : A -> nat) l :
  (forall x, 1 <= f x)%nat -> (List.length l <= list_sum (map f l))%nat.
Proof.
  intros Hf. unfold list_sum. induction l as [|y l IH]; [reflexivity|].
  cbn [map fold_right List.length]. specialize (Hf y). lia.
Qed.

Section RoundTrip.

Variable float_repr : spec_float -> string.
Variable parse_float : string -> spec_float.

Local Abbreviation scan_value_of := (scan_value parse_float).
Local Abbreviation scan_once_of := (scan_once parse_float).
Local Abbreviation encode_at := (iterencode float_repr 2).
Local Abbreviation wf := (well_formed float_repr parse_float).

Lemma scan_value_array fuel scan level text :
  opens text = true ->
  scan_value_of fuel scan ("[" ++ newline_indent 2 level ++ text)
  = xs <- elements scan fuel text ;; Ok (VList (fst xs), snd xs).
Proof.
  intros H. unfold scan_value. cbn [append].
  change (is_quote "[") with false. change (Ascii.eqb "[" "{") with false.
  change (Ascii.eqb "[" "[") with true. cbv iota.
  rewrite skip_ws_newline_indent, (skip_ws_opens _ H).
  destruct text as [|c r]; [discriminate|]. cbn [opens] in H.
  apply value_head_facts in H as (_ & -> & _). reflexivity.
Qed.

Lemma scan_value_object fuel scan level text :
  scan_value_of fuel scan ("{" ++ newline_indent 2 level ++ dq ++ text)
  = xs <- members scan (scanstring fuel) fuel text ;;
    Ok (VDict (dict (fst xs)), snd xs).
Proof.
  unfold scan_value. cbn [append].
  change (is_quote "{") with false. change (Ascii.eqb "{" "{") with true.
  cbv iota. rewrite skip_ws_newline_indent. reflexivity.
Qed.

Lemma scan_encoded v :
  wf v -> joined v = true ->
  forall level fuel rest, (size v <= fuel)%nat -> stops rest = true ->
    scan_once_of fuel (encode_at level v ++ rest) = Ok (v, rest).
Proof.
  induction v as [|b|z|f|s|l IH|kvs IH] using value_ind';
    intros Hwf Hj level fuel rest Hfuel Hrest;
    (destruct fuel as [|fuel];
     [match type of Hfuel with
      | (size ?v <= _)%nat => pose proof (size_pos v)
      end; lia|]).
  - apply scan_once_none.
  - apply scan_once_bool.
  - apply scan_once_int, Hrest.
  - apply scan_once_float; assumption.
  - cbn [size] in Hfuel. apply scan_once_str; [exact Hwf|exact Hj|lia].
  - destruct l as [|x l]; [reflexivity|].
    cbn [size] in Hfuel. cbn [well_formed] in Hwf. cbn [joined all_strings] in Hj.
    assert (Hall : forall y, In y (x :: l) ->
              reads (scan_once_of fuel) (encode_at (S level)) y).
    { intros y Hy.
      assert (Hy_wf : wf y).
      { apply (all_in _ _ Hwf). apply in_map. exact Hy. }
      split; [apply (opens_encode float_repr parse_float), Hy_wf|]. intros rest' Hrest'.
      rewrite Forall_forall in IH. apply (IH y Hy); try assumption.
      - rewrite forallb_forall in Hj. apply Hj, Hy.
      - pose proof (list_sum_bound size _ _ Hy). lia. }
    cbn [iterencode scan_once]. rewrite !app_assoc.
    rewrite scan_value_array
      by (apply (opens_concat _ _ _ _ _ _ (Hall x (or_introl eq_refl)))).
    rewrite elements_encoded; [reflexivity|discriminate|exact Hall|].
    pose proof (list_sum_length size (x :: l) size_pos). lia.
  - destruct kvs as [|[k x] kvs]; [reflexivity|].
    cbn [size] in Hfuel. cbn [well_formed] in Hwf. destruct Hwf as [Hkeys Hwf].
    cbn [joined all_strings] in Hj.
    set (weight := fun kv : string * value => let (k, x) := kv in
                   (2 + List.length (Utf8.codes k) + size x)%nat) in *.
    assert (Hall : forall k' x', In (k', x') ((k, x) :: kvs) ->
              reads_key (scanstring fuel) k'
              /\ reads (scan_once_of fuel) (encode_at (S level)) x').
    { intros k' x' Hin.
      assert (Hin_wf : is_text k' /\ wf x').
      { apply (all_in _ _ Hwf).
        apply (in_map (fun kv : string * value => let (k, x) := kv in
                         is_text k /\ wf x) _ _ Hin). }
      destruct Hin_wf as [(ns & -> & Hns) Hx'].
      rewrite forallb_forall in Hj. specialize (Hj _ Hin).
      apply andb_prop in Hj as [Hjk Hjx].
      pose proof (list_sum_bound weight _ _ Hin) as Hw. cbn [weight] in Hw.
      split.
      - intros rest'. unfold key_tail. rewrite app_assoc.
        unfold pairs_joined in Hjk. rewrite codes_text in * by exact Hns.
        apply negb_true_iff in Hjk.
        apply scanstring_escapes; [exact Hns|exact Hjk|lia].
      - split; [apply (opens_encode float_repr parse_float), Hx'|]. intros rest' Hrest'.
        rewrite Forall_forall in IH. apply (IH _ Hin); try assumption. cbn [snd]. lia. }
    cbn [iterencode scan_once].
    change (map (fun kv : string * value => let (k0, x0) := kv in
                   encode_basestring_ascii k0 ++ ": " ++ encode_at (S level) x0)
              ((k, x) :: kvs))
      with (map (member (encode_at (S level))) ((k, x) :: kvs)).
    match goal with
    | |- scan_value _ _ _ ?text = _ =>
        replace text
          with ("{" ++ newline_indent 2 (S level) ++ dq
                ++ key_tail k ++ ": " ++ encode_at (S level) x
                ++ match kvs with
                   | [] => ""
                   | _ :: _ =>
                       ("," ++ newline_indent 2 (S level))
                       ++ String.concat ("," ++ newline_indent 2 (S level))
                            (map (member (encode_at (S level))) kvs)
                   end ++ newline_indent 2 level ++ "}" ++ rest)
    end.
    2: { symmetry. rewrite !app_assoc, concat_members, member_text.
         rewrite !app_assoc. reflexivity. }
    rewrite scan_value_object.
    destruct (Hall k x (or_introl eq_refl)) as [Hk Hx].
    rewrite members_encoded; [|intros k' x' H'; apply Hall; right; exact H'| |exact Hk|exact Hx].
    + cbn [bind fst snd]. rewrite dict_nodup by exact Hkeys. reflexivity.
    + assert (Hlen : (List.length ((k, x) :: kvs)
                      <= list_sum (map weight ((k, x) :: kvs)))%nat).
      { apply list_sum_length. intros [k0 x0]. cbn [weight]. lia. }
      cbn [List.length] in Hlen. lia.
Qed.

Lemma prefix_bom_encode v : wf v -> String.prefix bom (encode_at 0 v) = false.
Proof.
  intros H. pose proof (opens_encode float_repr parse_float 0 v H) as Ho.
  destruct (encode_at 0 v) as [|c r]; [reflexivity|]. cbn [opens] in Ho.
  destruct c as [[] [] [] [] [] [] [] []]; solve [discriminate Ho | reflexivity].
Qed.

Lemma loads_dumps v :
  wf v -> joined v = true -> loads parse_float (dumps float_repr 2 v) = Ok v.
Proof.
  intros Hwf Hj. unfold loads, dumps. rewrite (prefix_bom_encode v Hwf).
  rewrite skip_ws_opens by (apply (opens_encode float_repr parse_float), Hwf).
  rewrite <- (app_empty (encode_at 0 v)) at 2.
  rewrite scan_encoded; try assumption; try reflexivity.
  pose proof (size_length float_repr parse_float v Hwf 0). lia.
Qed.

End RoundTrip.

(** ** What the decoder returns *)

Lemma is_text_empty : is_text "".
Proof. exists []. split; [reflexivity|constructor]. Qed.

Lemma is_text_cons n s : valid n -> is_text s -> is_text (Utf8.encode n ++ s).
Proof.
  intros Hn (ns & -> & Hns). exists (n :: ns).
  split; [symmetry; apply text_cons|constructor; assumption].
Qed.

Section StringScanner.

Variable scan : string -> result (string * string).
Hypothesis scan_text : forall s out r, scan s = Ok (out, r) -> is_text out.

Lemma scanned_text n s out r :
  valid n -> scanned scan n s = Ok (out, r) -> is_text out.
Proof.
  intros Hn. unfold scanned. destruct (scan s) as [[out' r']|] eqn:Hs; [|discriminate].
  cbn [bind fst snd]. intros [= <- <-]. apply is_text_cons; [exact Hn|].
  exact (scan_text _ _ _ Hs).
Qed.

Lemma unescape_valid e n : unescape e = Some n -> valid n.
Proof.
  unfold unescape, valid.
  repeat match goal with
         | |- (if ?b then _ else _) = _ -> _ => destruct b; [intros [= <-]; lia|]
         end.
  discriminate.
Qed.

Lemma join_pair_valid high low :
  Utf8.is_high high = true -> Utf8.is_low low = true -> valid (join_pair high low).
Proof.
  unfold Utf8.is_high, Utf8.is_low, join_pair, valid. intros Hh Hl.
  apply andb_prop in Hh as [Hh1 Hh2]. apply andb_prop in Hl as [Hl1 Hl2].
  apply N.leb_le in Hh1, Hh2, Hl1, Hl2. lia.
Qed.

Lemma scan_unicode_text s out r : scan_unicode scan s = Ok (out, r) -> is_text out.
Proof.
  unfold scan_unicode. destruct (read_hex4 s) as [[uni rest]|] eqn:H1; [|discriminate].
  assert (Huni : valid uni) by (apply read_hex4_bound in H1; unfold valid; lia).
  destruct (Utf8.is_high uni) eqn:Hhigh; [|apply scanned_text, Huni].
  destruct (escape_u rest) as [rest'|]; [|apply scanned_text, Huni].
  destruct (read_hex4 rest') as [[uni2 rest2]|]; [|discriminate].
  destruct (Utf8.is_low uni2) eqn:Hlow; [|apply scanned_text, Huni].
  apply scanned_text, join_pair_valid; assumption.
Qed.

Lemma scan_escape_text s out r : scan_escape scan s = Ok (out, r) -> is_text out.
Proof.
  unfold scan_escape. destruct s as [|e rest]; [discriminate|].
  destruct (Ascii.eqb e "u"); [apply scan_unicode_text|].
  destruct (unescape e) as [n|] eqn:He; [|discriminate].
  apply scanned_text, (unescape_valid _ _ He).
Qed.

Lemma scan_char_text s out r : scan_char scan s = Ok (out, r) -> is_text out.
Proof.
  unfold scan_char. destruct (Utf8.next s) as [[n rest]|] eqn:Hn; [|discriminate].
  apply next_Some in Hn as [_ Hn].
  destruct (n =? 34)%N; [intros [= <- _]; apply is_text_empty|].
  destruct (n =? 92)%N; [apply scan_escape_text|].
  destruct (n <? 32)%N; [discriminate|]. apply scanned_text, Hn.
Qed.

End StringScanner.

Lemma scanstring_text fuel : forall s out r,
  scanstring fuel s = Ok (out, r) -> is_text out.
Proof.
  induction fuel as [|fuel IH]; [discriminate|]. intros s out r.
  cbn [scanstring]. apply scan_char_text. exact IH.
Qed.

Section Decoder.

Variable float_repr : spec_float -> string.
Variable parse_float : string -> spec_float.

(** The text of a finite float, as the language documents it: it is a
    number with a fraction or an exponent, and it is read back as the
    same float. *)
Hypothesis repr_float : forall s, float_kept float_repr parse_float (parse_float s).

Local Abbreviation wf := (well_formed float_repr parse_float).
Local Abbreviation wf_member := (Json.wf_member float_repr parse_float).

Lemma wf_list l : Forall wf l -> wf (VList l).
Proof.
  cbn [well_formed]. induction 1 as [|x l Hx _ IH]; [exact I|].
  cbn [map fold_right]. split; assumption.
Qed.

Lemma wf_dict kvs : NoDup (map fst kvs) -> Forall wf_member kvs -> wf (VDict kvs).
Proof.
  cbn [well_formed]. intros Hk H. split; [exact Hk|]. clear Hk.
  induction H as [|[k x] kvs Hkv _ IH]; [exact I|].
  cbn [map fold_right]. split; [exact Hkv|exact IH].
Qed.

Lemma update_keys k v kvs :
  In k (map fst kvs) -> map fst (update k v kvs) = map fst kvs.
Proof.
  induction kvs as [|[k' v'] kvs IH]; [intros []|]. cbn [map fst update].
  destruct (String.eqb_spec k k') as [->|Hne]; [reflexivity|].
  intros [H|H]; [congruence|]. cbn [map fst]. rewrite IH by exact H. reflexivity.
Qed.

Lemma update_nodup k v kvs :
  NoDup (map fst kvs) -> NoDup (map fst (update k v kvs)).
Proof.
  intros H. destruct (in_dec string_dec k (map fst kvs)) as [Hin|Hout].
  - rewrite update_keys by exact Hin. exact H.
  - rewrite update_fresh by exact Hout. rewrite map_app. cbn [map fst].
    apply NoDup_app; [exact H|repeat constructor; intros []|].
    intros a Ha [<-|[]]. exact (Hout Ha).
Qed.

Lemma update_members k v kvs :
  wf_member (k, v) -> Forall wf_member kvs -> Forall wf_member (update k v kvs).
Proof.
  intros Hkv H. induction H as [|[k' v'] kvs Hx Hkvs IH];
    [cbn [update]; constructor; [exact Hkv|constructor]|].
  cbn [update]. destruct (String.eqb k k'); constructor; assumption.
Qed.

Lemma dict_wf pairs :
  Forall wf_member pairs ->
  NoDup (map fst (dict pairs)) /\ Forall wf_member (dict pairs).
Proof.
  unfold dict. intros H.
  assert (Hgen : forall acc, NoDup (map fst acc) -> Forall wf_member acc ->
            NoDup (map fst (fold_left (fun a kv => update (fst kv) (snd kv) a) pairs acc))
            /\ Forall wf_member
                 (fold_left (fun a kv => update (fst kv) (snd kv) a) pairs acc)).
  { induction H as [|[k v] pairs Hkv _ IH]; intros acc Hn Ha; [split; assumption|].
    cbn [fold_left fst snd]. apply IH;
      [apply update_nodup, Hn|apply update_members; assumption]. }
  apply Hgen; constructor.
Qed.

Lemma match_number_wf s v r : match_number parse_float s = Some (v, r) -> wf v.
Proof.
  unfold match_number. destruct (integer s) as [[whole t]|]; [|discriminate].
  destruct (fraction t) as [frac t1]. destruct (exponent t1) as [exp t2].
  destruct (String.eqb frac "" && String.eqb exp ""); intros [= <- _].
  - exact I.
  - apply repr_float.
Qed.

Section Values.

Variable scan : string -> result (value * string).
Hypothesis scan_wf : forall s v r, scan s = Ok (v, r) -> wf v.
Variable string_at : string -> result (string * string).
Hypothesis string_at_text : forall s out r, string_at s = Ok (out, r) -> is_text out.

Lemma elements_wf k : forall s items r,
  elements scan k s = Ok (items, r) -> Forall wf items.
Proof.
  induction k as [|k IH]; [discriminate|]. intros s items r. cbn [elements].
  destruct (scan s) as [[x rx]|] eqn:Hs; [|discriminate]. cbn [bind fst snd].
  apply scan_wf in Hs.
  destruct (skip_ws rx) as [|c r']; [discriminate|].
  destruct (Ascii.eqb c "]"); [intros [= <- _]; constructor; [exact Hs|constructor]|].
  destruct (Ascii.eqb c ","); [|discriminate].
  destruct (elements scan k (skip_ws r')) as [[xs rs]|] eqn:Hxs; [|discriminate].
  cbn [bind fst snd]. intros [= <- _]. constructor; [exact Hs|exact (IH _ _ _ Hxs)].
Qed.

Lemma members_wf k : forall s pairs r,
  members scan string_at k s = Ok (pairs, r) -> Forall wf_member pairs.
Proof.
  induction k as [|k IH]; [discriminate|]. intros s pairs r. cbn [members].
  destruct (string_at s) as [[key rk]|] eqn:Hk; [|discriminate]. cbn [bind fst snd].
  apply string_at_text in Hk.
  destruct (skip_ws rk) as [|colon r1]; [discriminate|].
  destruct (Ascii.eqb colon ":"); [|discriminate].
  destruct (scan (skip_ws r1)) as [[x rx]|] eqn:Hs; [|discriminate].
  cbn [bind fst snd]. apply scan_wf in Hs.
  destruct (skip_ws rx) as [|c r2]; [discriminate|].
  destruct (Ascii.eqb c "}");
    [intros [= <- _]; constructor; [split; assumption|constructor]|].
  destruct (Ascii.eqb c ","); [|discriminate].
  destruct (skip_ws r2) as [|q r3]; [discriminate|].
  destruct (is_quote q); [|discriminate].
  destruct (members scan string_at k r3) as [[xs rs]|] eqn:Hxs; [|discriminate].
  cbn [bind fst snd]. intros [= <- _].
  constructor; [split; assumption|exact (IH _ _ _ Hxs)].
Qed.

Lemma scan_value_wf fuel s v r :
  scan_value parse_float fuel scan s = Ok (v, r) ->
  (forall t out u, scanstring fuel t = Ok (out, u) -> is_text out) ->
  string_at = scanstring fuel -> wf v.
Proof.
  intros H Hstr Hat. unfold scan_value in H. destruct s as [|c rest]; [discriminate|].
  destruct (is_quote c).
  { destruct (scanstring fuel rest) as [[out u]|] eqn:Hs; [|discriminate].
    cbn [bind fst snd] in H. injection H as <- _. exact (Hstr _ _ _ Hs). }
  destruct (Ascii.eqb c "{").
  { destruct (skip_ws rest) as [|c' r']; [discriminate|].
    destruct (Ascii.eqb c' "}"); [injection H as <- _; apply wf_dict; constructor|].
    destruct (is_quote c'); [|discriminate].
    destruct (members scan (scanstring fuel) fuel r') as [[pairs u]|] eqn:Hm;
      [|discriminate].
    cbn [bind fst snd] in H. injection H as <- _.
    rewrite <- Hat in Hm. apply members_wf in Hm.
    destruct (dict_wf _ Hm) as [Hn Hf]. apply wf_dict; assumption. }
  destruct (Ascii.eqb c "[").
  { destruct (skip_ws rest) as [|c' r']; [discriminate|].
    destruct (Ascii.eqb c' "]"); [injection H as <- _; exact I|].
    destruct (elements scan fuel (String c' r')) as [[items u]|] eqn:He;
      [|discriminate].
    cbn [bind fst snd] in H. injection H as <- _.
    apply wf_list. exact (elements_wf _ _ _ _ He). }
  destruct (String.prefix "null" (String c rest)); [injection H as <- _; exact I|].
  destruct (String.prefix "true" (String c rest)); [injection H as <- _; exact I|].
  destruct (String.prefix "false" (String c rest)); [injection H as <- _; exact I|].
  destruct (match_number parse_float (String c rest)) as [[x u]|] eqn:Hn.
  { injection H as <- _. exact (match_number_wf _ _ _ Hn). }
  destruct (String.prefix "NaN" (String c rest));
    [injection H as <- _; intros Hf; discriminate Hf|].
  destruct (String.prefix "Infinity" (String c rest));
    [injection H as <- _; intros Hf; discriminate Hf|].
  destruct (String.prefix "-Infinity" (String c rest));
    [injection H as <- _; intros Hf; discriminate Hf|discriminate].
Qed.

End Values.

Lemma scan_once_wf fuel : forall s v r,
  scan_once parse_float fuel s = Ok (v, r) -> wf v.
Proof.
  induction fuel as [|fuel IH]; [discriminate|]. intros s v r H.
  cbn [scan_once] in H.
  apply (scan_value_wf (scan_once parse_float fuel) IH (scanstring fuel)
           (scanstring_text fuel) fuel s v r H (scanstring_text fuel) eq_refl).
Qed.

Lemma loads_wf text d : loads parse_float text = Ok d -> wf d.
Proof.
  unfold loads.
  set (body := if String.prefix bom text then after 3 text else text).
  destruct (scan_once parse_float (S (String.length body)) (skip_ws body))
    as [[v r]|] eqn:H; [|discriminate].
  cbn [bind fst snd]. destruct (skip_ws r); [|discriminate].
  intros [= <-]. exact (scan_once_wf _ _ _ _ H).
Qed.

(** Re-parsing the export of a parsed document whose surrogates are not
    split pairs gives the document again. *)
Lemma loads_dumps_loads text d :
  loads parse_float text = Ok d -> joined d = true ->
  loads parse_float (dumps float_repr 2 d) = Ok d.
Proof. intros H Hj. apply loads_dumps; [exact (loads_wf _ _ H)|exact Hj]. Qed.

End Decoder.

(** ** What the decoder leaves of its text *)

Lemma leaves_length s r : leaves s r -> (String.length r < String.length s)%nat.
Proof. intros (p & -> & Hp). rewrite length_app. lia. Qed.

Lemma leaves_trans s r t : leaves s r -> leaves r t -> leaves s t.
Proof.
  intros (p & -> & Hp) (q & -> & Hq). exists (p ++ q).
  split; [rewrite app_assoc; reflexivity|rewrite length_app; lia].
Qed.

Lemma leaves_app p s r : leaves s r -> leaves (p ++ s) r.
Proof.
  intros (q & -> & Hq). exists (p ++ q).
  split; [rewrite app_assoc; reflexivity|rewrite length_app; lia].
Qed.

Lemma leaves_cons c s : leaves (String c s) s.
Proof. exists (String c ""). split; [reflexivity|cbn; lia]. Qed.

Lemma skip_ws_split s : exists p, s = p ++ skip_ws s.
Proof.
  induction s as [|c s (p & IH)]; [exists ""; reflexivity|].
  cbn [skip_ws]. destruct (is_ws c); [|exists ""; reflexivity].
  exists (String c p). cbn [append]. rewrite <- IH. reflexivity.
Qed.

Lemma leaves_skip_ws s r : leaves s r -> leaves s (skip_ws r).
Proof.
  intros (p & -> & Hp). destruct (skip_ws_split r) as (q & Hq).
  exists (p ++ q). split; [rewrite app_assoc, <- Hq; reflexivity|rewrite length_app; lia].
Qed.

Lemma skip_ws_leaves s r : leaves (skip_ws s) r -> leaves s r.
Proof.
  intros H. destruct (skip_ws_split s) as (q & Hq). rewrite Hq.
  apply leaves_app, H.
Qed.

Lemma skip_ws_length s : (String.length (skip_ws s) <= String.length s)%nat.
Proof.
  destruct (skip_ws_split s) as (q & Hq). rewrite Hq at 2. rewrite length_app. lia.
Qed.

Lemma prefix_split p s : String.prefix p s = true -> exists r, s = p ++ r.
Proof.
  revert s. induction p as [|a p IH]; intros s; [exists s; reflexivity|].
  destruct s as [|b s]; [discriminate|]. cbn [String.prefix].
  destruct (ascii_dec a b) as [->|]; [|discriminate].
  intros H. destruct (IH s H) as (r & ->). exists r. reflexivity.
Qed.

Lemma prefix_after p s :
  (1 <= String.length p)%nat -> String.prefix p s = true ->
  leaves s (after (String.length p) s).
Proof.
  intros Hp H. destruct (prefix_split p s H) as (r & ->). rewrite after_app.
  exists p. split; [reflexivity|exact Hp].
Qed.

Lemma integer_nonempty s whole t :
  integer s = Some (whole, t) -> (1 <= String.length whole)%nat.
Proof.
  unfold integer. destruct s as [|c s]; [discriminate|].
  assert (H : forall sign u,
    match u with
    | "" => None
    | String c0 r' =>
        if Ascii.eqb c0 "0" then Some (sign ++ "0", r')
        else if is_digit c0
             then let (ds, r'') := digits r' in Some (sign ++ String c0 ds, r'')
             else None
    end = Some (whole, t) -> (1 <= String.length whole)%nat).
  { intros sign [|c0 u]; [discriminate|].
    destruct (Ascii.eqb c0 "0"); [intros [= <- _]; rewrite length_app; cbn; lia|].
    destruct (is_digit c0); [|discriminate]. destruct (digits u) as [ds u'].
    intros [= <- _]. rewrite length_app. cbn. lia. }
  destruct (Ascii.eqb c "-"); [apply (H "-" s)|apply (H "" (String c s))].
Qed.

Section LeavesDecoder.

Variable parse_float : string -> spec_float.

Lemma match_number_leaves s v r :
  match_number parse_float s = Some (v, r) -> leaves s r.
Proof.
  unfold match_number. destruct (integer s) as [[whole t]|] eqn:Hi; [|discriminate].
  pose proof (integer_split _ _ _ Hi) as Hs.
  pose proof (integer_nonempty _ _ _ Hi) as Hw.
  pose proof (fraction_split t) as Hf. destruct (fraction t) as [frac t1].
  pose proof (exponent_split t1) as He. destruct (exponent t1) as [exp t2].
  cbn [fst snd] in *. intros [= _ <-]. exists (whole ++ frac ++ exp).
  split; [|rewrite length_app; lia].
  rewrite Hs, Hf, He at 1. rewrite !app_assoc. reflexivity.
Qed.

Lemma read_hex4_leaves s n r : read_hex4 s = Some (n, r) -> leaves s r.
Proof.
  unfold read_hex4. destruct s as [|c1 [|c2 [|c3 [|c4 rest]]]]; try discriminate.
  destruct (hex_value c1), (hex_value c2), (hex_value c3), (hex_value c4);
    try discriminate.
  intros [= _ <-]. exists (String c1 (String c2 (String c3 (String c4 "")))).
  split; [reflexivity|cbn; lia].
Qed.

Lemma escape_u_leaves s r : escape_u s = Some r -> leaves s r.
Proof.
  unfold escape_u. destruct s as [|b [|u rest]]; try discriminate.
  destruct ((Str.byte b =? 92)%nat && Ascii.eqb u "u"); [|discriminate].
  intros [= <-]. exists (String b (String u "")). split; [reflexivity|cbn; lia].
Qed.

Lemma encode_length n : (1 <= String.length (Utf8.encode n))%nat.
Proof.
  unfold Utf8.encode.
  repeat match goal with
         | |- context [if ?b then _ else _] => destruct b
         end; cbn; lia.
Qed.

Lemma next_leaves s n r : Utf8.next s = Some (n, r) -> leaves s r.
Proof.
  intros H. apply next_Some in H as [-> _]. exists (Utf8.encode n).
  split; [reflexivity|apply encode_length].
Qed.

Section LeavesStrings.

Variable scan : string -> result (string * string).
Hypothesis scan_leaves : forall s out r, scan s = Ok (out, r) -> leaves s r.

Lemma scanned_leaves n s out r : scanned scan n s = Ok (out, r) -> leaves s r.
Proof.
  unfold scanned. destruct (scan s) as [[out' r']|] eqn:Hs; [|discriminate].
  cbn [bind fst snd]. intros [= _ <-]. exact (scan_leaves _ _ _ Hs).
Qed.

Lemma scan_unicode_leaves s out r : scan_unicode scan s = Ok (out, r) -> leaves s r.
Proof.
  unfold scan_unicode. destruct (read_hex4 s) as [[uni rest]|] eqn:H1; [|discriminate].
  apply read_hex4_leaves in H1.
  assert (Hlone : scanned scan uni rest = Ok (out, r) -> leaves s r).
  { intros H. exact (leaves_trans _ _ _ H1 (scanned_leaves _ _ _ _ H)). }
  destruct (Utf8.is_high uni); [|exact Hlone].
  destruct (escape_u rest) as [rest'|] eqn:H2; [|exact Hlone].
  apply escape_u_leaves in H2.
  destruct (read_hex4 rest') as [[uni2 rest2]|] eqn:H3; [|discriminate].
  apply read_hex4_leaves in H3.
  destruct (Utf8.is_low uni2); [|exact Hlone].
  intros H. apply scanned_leaves in H.
  exact (leaves_trans _ _ _ H1 (leaves_trans _ _ _ H2 (leaves_trans _ _ _ H3 H))).
Qed.

Lemma scan_escape_leaves s out r : scan_escape scan s = Ok (out, r) -> leaves s r.
Proof.
  unfold scan_escape. destruct s as [|e rest]; [discriminate|].
  destruct (Ascii.eqb e "u").
  - intros H. apply scan_unicode_leaves in H.
    exact (leaves_trans _ _ _ (leaves_cons e rest) H).
  - destruct (unescape e) as [n|]; [|discriminate].
    intros H. apply scanned_leaves in H.
    exact (leaves_trans _ _ _ (leaves_cons e rest) H).
Qed.

Lemma scan_char_leaves s out r : scan_char scan s = Ok (out, r) -> leaves s r.
Proof.
  unfold scan_char. destruct (Utf8.next s) as [[n rest]|] eqn:Hn; [|discriminate].
  apply next_leaves in Hn.
  destruct (n =? 34)%N; [intros [= _ <-]; exact Hn|].
  destruct (n =? 92)%N.
  { intros H. exact (leaves_trans _ _ _ Hn (scan_escape_leaves _ _ _ H)). }
  destruct (n <? 32)%N; [discriminate|].
  intros H. exact (leaves_trans _ _ _ Hn (scanned_leaves _ _ _ _ H)).
Qed.

End LeavesStrings.

Lemma scanstring_leaves fuel : forall s out r,
  scanstring fuel s = Ok (out, r) -> leaves s r.
Proof.
  induction fuel as [|fuel IH]; [discriminate|]. intros s out r.
  cbn [scanstring]. apply scan_char_leaves. exact IH.
Qed.

Section LeavesValues.

Variable scan : string -> result (value * string).
Hypothesis scan_leaves : forall s v r, scan s = Ok (v, r) -> leaves s r.
Variable string_at : string -> result (string * string).
Hypothesis string_at_leaves : forall s out r, string_at s = Ok (out, r) -> leaves s r.

Lemma elements_leaves k : forall s items r,
  elements scan k s = Ok (items, r) -> leaves s r.
Proof.
  induction k as [|k IH]; [discriminate|]. intros s items r. cbn [elements].
  destruct (scan s) as [[x rx]|] eqn:Hs; [|discriminate]. cbn [bind fst snd].
  apply scan_leaves in Hs. apply leaves_skip_ws in Hs.
  destruct (skip_ws rx) as [|c r']; [discriminate|].
  pose proof (leaves_trans _ _ _ Hs (leaves_cons c r')) as Hr'.
  destruct (Ascii.eqb c "]"); [intros [= _ <-]; exact Hr'|].
  destruct (Ascii.eqb c ","); [|discriminate].
  destruct (elements scan k (skip_ws r')) as [[xs rs]|] eqn:Hxs; [|discriminate].
  cbn [bind fst snd]. intros [= _ <-]. apply IH in Hxs.
  exact (leaves_trans _ _ _ Hr' (skip_ws_leaves _ _ Hxs)).
Qed.

Lemma members_leaves k : forall s pairs r,
  members scan string_at k s = Ok (pairs, r) -> leaves s r.
Proof.
  induction k as [|k IH]; [discriminate|]. intros s pairs r. cbn [members].
  destruct (string_at s) as [[key rk]|] eqn:Hk; [|discriminate]. cbn [bind fst snd].
  apply string_at_leaves in Hk. apply leaves_skip_ws in Hk.
  destruct (skip_ws rk) as [|colon r1]; [discriminate|].
  pose proof (leaves_trans _ _ _ Hk (leaves_cons colon r1)) as H1.
  destruct (Ascii.eqb colon ":"); [|discriminate].
  destruct (scan (skip_ws r1)) as [[x rx]|] eqn:Hs; [|discriminate].
  cbn [bind fst snd]. apply scan_leaves in Hs. apply skip_ws_leaves in Hs.
  apply leaves_skip_ws in Hs.
  destruct (skip_ws rx) as [|c r2]; [discriminate|].
  pose proof (leaves_trans _ _ _ H1
                (leaves_trans _ _ _ Hs (leaves_cons c r2))) as H2.
  destruct (Ascii.eqb c "}"); [intros [= _ <-]; exact H2|].
  destruct (Ascii.eqb c ","); [|discriminate].
  pose proof (leaves_skip_ws _ _ H2) as H3.
  destruct (skip_ws r2) as [|q r3]; [discriminate|].
  destruct (is_quote q); [|discriminate].
  destruct (members scan string_at k r3) as [[xs rs]|] eqn:Hxs; [|discriminate].
  cbn [bind fst snd]. intros [= _ <-]. apply IH in Hxs.
  exact (leaves_trans _ _ _ H3 (leaves_trans _ _ _ (leaves_cons q r3) Hxs)).
Qed.

End LeavesValues.

Lemma scan_value_leaves fuel scan s v r :
  (forall s v r, scan s = Ok (v, r) -> leaves s r) ->
  scan_value parse_float fuel scan s = Ok (v, r) -> leaves s r.
Proof.
  intros Hscan H. unfold scan_value in H. destruct s as [|c rest]; [discriminate|].
  pose proof (leaves_cons c rest) as Hc.
  destruct (is_quote c).
  { destruct (scanstring fuel rest) as [[out u]|] eqn:Hs; [|discriminate].
    cbn [bind fst snd] in H. injection H as _ <-.
    exact (leaves_trans _ _ _ Hc (scanstring_leaves _ _ _ _ Hs)). }
  destruct (Ascii.eqb c "{").
  { pose proof (leaves_skip_ws _ _ Hc) as Hw.
    destruct (skip_ws rest) as [|c' r']; [discriminate|].
    pose proof (leaves_trans _ _ _ Hw (leaves_cons c' r')) as Hr'.
    destruct (Ascii.eqb c' "}"); [injection H as _ <-; exact Hr'|].
    destruct (is_quote c'); [|discriminate].
    destruct (members scan (scanstring fuel) fuel r') as [[pairs u]|] eqn:Hm;
      [|discriminate].
    cbn [bind fst snd] in H. injection H as _ <-.
    apply (members_leaves _ Hscan _ (scanstring_leaves fuel)) in Hm.
    exact (leaves_trans _ _ _ Hr' Hm). }
  destruct (Ascii.eqb c "[").
  { pose proof (leaves_skip_ws _ _ Hc) as Hw.
    destruct (skip_ws rest) as [|c' r']; [discriminate|].
    pose proof (leaves_trans _ _ _ Hw (leaves_cons c' r')) as Hr'.
    destruct (Ascii.eqb c' "]"); [injection H as _ <-; exact Hr'|].
    destruct (elements scan fuel (String c' r')) as [[items u]|] eqn:He;
      [|discriminate].
    cbn [bind fst snd] in H. injection H as _ <-.
    apply (elements_leaves _ Hscan) in He.
    exact (leaves_trans _ _ _ Hw He). }
  destruct (String.prefix "null" (String c rest)) eqn:P1;
    [injection H as _ <-; apply (prefix_after "null"); [cbn; lia|exact P1]|].
  destruct (String.prefix "true" (String c rest)) eqn:P2;
    [injection H as _ <-; apply (prefix_after "true"); [cbn; lia|exact P2]|].
  destruct (String.prefix "false" (String c rest)) eqn:P3;
    [injection H as _ <-; apply (prefix_after "false"); [cbn; lia|exact P3]|].
  destruct (match_number parse_float (String c rest)) as [[x u]|] eqn:Hn.
  { injection H as _ <-. exact (match_number_leaves _ _ _ Hn). }
  destruct (String.prefix "NaN" (String c rest)) eqn:P4;
    [injection H as _ <-; apply (prefix_after "NaN"); [cbn; lia|exact P4]|].
  destruct (String.prefix "Infinity" (String c rest)) eqn:P5;
    [injection H as _ <-; apply (prefix_after "Infinity"); [cbn; lia|exact P5]|].
  destruct (String.prefix "-Infinity" (String c rest)) eqn:P6;
    [injection H as _ <-; apply (prefix_after "-Infinity"); [cbn; lia|exact P6]
    |discriminate].
Qed.

Lemma scan_once_leaves fuel : forall s v r,
  scan_once parse_float fuel s = Ok (v, r) -> leaves s r.
Proof.
  induction fuel as [|fuel IH]; [discriminate|]. intros s v r H.
  cbn [scan_once] in H. exact (scan_value_leaves _ _ _ _ _ IH H).
Qed.

End LeavesDecoder.

(** ** The fuel of the decoder is enough *)

Lemma fuelled_bind {A B : Type} (m : result A) (k : A -> result B) :
  fuelled m -> (forall a, m = Ok a -> fuelled (k a)) -> fuelled (bind m k).
Proof.
  unfold fuelled. destruct m as [a|e]; cbn [bind]; intros Hm Hk.
  - apply Hk. reflexivity.
  - intros [= ->]. apply Hm. reflexivity.
Qed.

Lemma fuelled_Ok {A : Type} (a : A) : fuelled (Ok a).
Proof. discriminate. Qed.

Lemma fuelled_ValueError {A : Type} : fuelled (@Raise A ValueError).
Proof. discriminate. Qed.

Section FuelStrings.

Variable scan : string -> result (string * string).

Lemma scanned_fuelled n s : fuelled (scan s) -> fuelled (scanned scan n s).
Proof. intros H. unfold scanned. apply fuelled_bind; [exact H|]. intros a _. apply fuelled_Ok. Qed.

Lemma scan_char_fuelled s :
  (forall r, leaves s r -> fuelled (scan r)) -> fuelled (scan_char scan s).
Proof.
  intros Hscan. unfold scan_char.
  destruct (Utf8.next s) as [[n rest]|] eqn:Hn; [|apply fuelled_ValueError].
  apply next_leaves in Hn.
  destruct (n =? 34)%N; [apply fuelled_Ok|].
  destruct (n =? 92)%N.
  { unfold scan_escape. destruct rest as [|e rest1]; [apply fuelled_ValueError|].
    pose proof (leaves_trans _ _ _ Hn (leaves_cons e rest1)) as H1.
    destruct (Ascii.eqb e "u").
    - unfold scan_unicode.
      destruct (read_hex4 rest1) as [[uni rest2]|] eqn:Hh; [|apply fuelled_ValueError].
      apply read_hex4_leaves in Hh.
      pose proof (leaves_trans _ _ _ H1 Hh) as H2.
      destruct (Utf8.is_high uni); [|apply scanned_fuelled, Hscan, H2].
      destruct (escape_u rest2) as [rest3|] eqn:He; [|apply scanned_fuelled, Hscan, H2].
      apply escape_u_leaves in He.
      destruct (read_hex4 rest3) as [[uni2 rest4]|] eqn:Hh2; [|apply fuelled_ValueError].
      apply read_hex4_leaves in Hh2.
      destruct (Utf8.is_low uni2); [|apply scanned_fuelled, Hscan, H2].
      apply scanned_fuelled, Hscan.
      exact (leaves_trans _ _ _ H2 (leaves_trans _ _ _ He Hh2)).
    - destruct (unescape e); [apply scanned_fuelled, Hscan, H1|apply fuelled_ValueError]. }
  destruct (n <? 32)%N; [apply fuelled_ValueError|].
  apply scanned_fuelled, Hscan, Hn.
Qed.

End FuelStrings.

Lemma scanstring_fuelled fuel : forall s,
  (String.length s < fuel)%nat -> fuelled (scanstring fuel s).
Proof.
  induction fuel as [|fuel IH]; intros s Hs; [inversion Hs|].
  cbn [scanstring]. apply scan_char_fuelled. intros r Hr. apply IH.
  apply leaves_length in Hr. lia.
Qed.

Section FuelValues.

Variable parse_float : string -> spec_float.
Variable scan : string -> result (value * string).
Variable string_at : string -> result (string * string).
Variable bound : nat.
Hypothesis scan_leaves : forall s v r, scan s = Ok (v, r) -> leaves s r.
Hypothesis string_at_leaves : forall s out r, string_at s = Ok (out, r) -> leaves s r.
Hypothesis scan_fuelled : forall s, (String.length s < bound)%nat -> fuelled (scan s).
Hypothesis string_at_fuelled :
  forall s, (String.length s < bound)%nat -> fuelled (string_at s).

Lemma elements_fuelled k : forall s,
  (String.length s < k)%nat -> (String.length s < bound)%nat ->
  fuelled (elements scan k s).
Proof.
  induction k as [|k IH]; intros s Hk Hb; [inversion Hk|]. cbn [elements].
  apply fuelled_bind; [apply scan_fuelled, Hb|]. intros [x rx] Hs. cbn [fst snd].
  apply scan_leaves, leaves_length in Hs. pose proof (skip_ws_length rx) as Hw.
  destruct (skip_ws rx) as [|c r']; [apply fuelled_ValueError|]. cbn [String.length] in Hw.
  destruct (Ascii.eqb c "]"); [apply fuelled_Ok|].
  destruct (Ascii.eqb c ","); [|apply fuelled_ValueError].
  pose proof (skip_ws_length r').
  apply fuelled_bind; [apply IH; lia|]. intros a _. apply fuelled_Ok.
Qed.

Lemma members_fuelled k : forall s,
  (String.length s < k)%nat -> (String.length s < bound)%nat ->
  fuelled (members scan string_at k s).
Proof.
  induction k as [|k IH]; intros s Hk Hb; [inversion Hk|]. cbn [members].
  apply fuelled_bind; [apply string_at_fuelled, Hb|]. intros [key rk] Hkey.
  cbn [fst snd]. apply string_at_leaves, leaves_length in Hkey.
  pose proof (skip_ws_length rk) as Hw.
  destruct (skip_ws rk) as [|colon r1]; [apply fuelled_ValueError|].
  cbn [String.length] in Hw.
  destruct (Ascii.eqb colon ":"); [|apply fuelled_ValueError].
  pose proof (skip_ws_length r1) as Hw1.
  apply fuelled_bind; [apply scan_fuelled; lia|]. intros [x rx] Hs. cbn [fst snd].
  apply scan_leaves, leaves_length in Hs. pose proof (skip_ws_length rx) as Hw2.
  destruct (skip_ws rx) as [|c r2]; [apply fuelled_ValueError|].
  cbn [String.length] in Hw2.
  destruct (Ascii.eqb c "}"); [apply fuelled_Ok|].
  destruct (Ascii.eqb c ","); [|apply fuelled_ValueError].
  pose proof (skip_ws_length r2) as Hw3.
  destruct (skip_ws r2) as [|q r3]; [apply fuelled_ValueError|].
  cbn [String.length] in Hw3.
  destruct (is_quote q); [|apply fuelled_ValueError].
  apply fuelled_bind; [apply IH; lia|]. intros a _. apply fuelled_Ok.
Qed.

End FuelValues.

Section FuelDecoder.

Variable parse_float : string -> spec_float.

Lemma scan_value_fuelled fuel scan s :
  (forall s v r, scan s = Ok (v, r) -> leaves s r) ->
  (forall s, (String.length s < fuel)%nat -> fuelled (scan s)) ->
  (String.length s <= fuel)%nat ->
  fuelled (scan_value parse_float fuel scan s).
Proof.
  intros Hleaves Hscan Hs. unfold scan_value.
  destruct s as [|c rest]; [apply fuelled_ValueError|]. cbn [String.length] in Hs.
  destruct (is_quote c).
  { apply fuelled_bind; [apply scanstring_fuelled; lia|]. intros a _. apply fuelled_Ok. }
  pose proof (skip_ws_length rest) as Hw.
  destruct (Ascii.eqb c "{").
  { destruct (skip_ws rest) as [|c' r']; [apply fuelled_ValueError|].
    cbn [String.length] in Hw.
    destruct (Ascii.eqb c' "}"); [apply fuelled_Ok|].
    destruct (is_quote c'); [|apply fuelled_ValueError].
    apply fuelled_bind; [|intros a _; apply fuelled_Ok].
    apply (members_fuelled scan (scanstring fuel) fuel Hleaves
             (scanstring_leaves fuel) Hscan (scanstring_fuelled fuel)); lia. }
  destruct (Ascii.eqb c "[").
  { destruct (skip_ws rest) as [|c' r']; [apply fuelled_ValueError|].
    cbn [String.length] in Hw.
    destruct (Ascii.eqb c' "]"); [apply fuelled_Ok|].
    apply fuelled_bind; [|intros a _; apply fuelled_Ok].
    apply (elements_fuelled scan fuel Hleaves Hscan); cbn [String.length]; lia. }
  destruct (String.prefix "null" (String c rest)); [apply fuelled_Ok|].
  destruct (String.prefix "true" (String c rest)); [apply fuelled_Ok|].
  destruct (String.prefix "false" (String c rest)); [apply fuelled_Ok|].
  destruct (match_number parse_float (String c rest)); [apply fuelled_Ok|].
  destruct (String.prefix "NaN" (String c rest)); [apply fuelled_Ok|].
  destruct (String.prefix "Infinity" (String c rest)); [apply fuelled_Ok|].
  destruct (String.prefix "-Infinity" (String c rest));
    [apply fuelled_Ok|apply fuelled_ValueError].
Qed.

Lemma scan_once_fuelled fuel : forall s,
  (String.length s < fuel)%nat -> fuelled (scan_once parse_float fuel s).
Proof.
  induction fuel as [|fuel IH]; intros s Hs; [inversion Hs|].
  cbn [scan_once]. apply scan_value_fuelled;
    [apply scan_once_leaves|exact IH|lia].
Qed.

(** The decoder never runs out of the fuel that [loads] gives it. *)
Lemma loads_fuelled text : fuelled (loads parse_float text).
Proof.
  unfold loads.
  set (body := if String.prefix bom text then after 3 text else text).
  apply fuelled_bind.
  - apply scan_once_fuelled. pose proof (skip_ws_length body). lia.
  - intros x _. destruct (skip_ws (snd x)); [apply fuelled_Ok|apply fuelled_ValueError].
Qed.

End FuelDecoder.

(** ** Uploads without surrogates *)

Lemma chars_encode_any n r :
  valid n ->
  Str.chars (Utf8.encode n ++ r) = (Utf8.encode n ++ Str.continuation r) :: Str.chars r.
Proof.
  unfold valid. intros Hn. unfold Utf8.encode.
  destruct (n <? 128)%N eqn:H1.
  { apply N.ltb_lt in H1. cbn [append]. rewrite chars_lead by lia. reflexivity. }
  apply N.ltb_ge in H1. destruct (n <? 2048)%N eqn:H2.
  { apply N.ltb_lt in H2. cbn [append]. rewrite chars_lead by nlia.
    rewrite continuation_tail, chars_tail by nlia. reflexivity. }
  apply N.ltb_ge in H2. destruct (n <? 65536)%N eqn:H3.
  { apply N.ltb_lt in H3. cbn [append]. rewrite chars_lead by nlia.
    rewrite !continuation_tail, !chars_tail by nlia. reflexivity. }
  apply N.ltb_ge in H3. cbn [append]. rewrite chars_lead by nlia.
  rewrite !continuation_tail, !chars_tail by nlia. reflexivity.
Qed.

Lemma codes_next s n r : Utf8.next s = Some (n, r) -> Utf8.codes s = n :: Utf8.codes r.
Proof.
  intros H. apply next_Some in H as [-> Hn]. unfold Utf8.codes.
  rewrite chars_encode_any by exact Hn. cbn [map]. unfold Utf8.ord.
  rewrite next_encode by exact Hn. reflexivity.
Qed.

Lemma no_surrogate_next s n r :
  no_surrogate s = true -> Utf8.next s = Some (n, r) ->
  Utf8.is_surrogate n = false /\ no_surrogate r = true.
Proof.
  unfold no_surrogate. intros Hs Hn. rewrite (codes_next _ _ _ Hn) in Hs.
  cbn [forallb] in Hs. apply andb_prop in Hs as [H1 H2].
  apply negb_true_iff in H1. split; assumption.
Qed.

Lemma no_surrogate_tail c s : no_surrogate (String c s) = true -> no_surrogate s = true.
Proof.
  unfold no_surrogate, Utf8.codes. cbn [Str.chars].
  destruct (Str.continues c); [exact (fun H => H)|].
  cbn [map forallb]. intros H. apply andb_prop in H as [_ H]. exact H.
Qed.

Lemma no_surrogate_app p r : no_surrogate (p ++ r) = true -> no_surrogate r = true.
Proof.
  induction p as [|c p IH]; [exact (fun H => H)|]. cbn [append].
  intros H. apply IH. exact (no_surrogate_tail _ _ H).
Qed.

Lemma no_surrogate_leaves s r : leaves s r -> no_surrogate s = true -> no_surrogate r = true.
Proof. intros (p & -> & _). apply no_surrogate_app. Qed.

Lemma no_surrogate_skip_ws s : no_surrogate s = true -> no_surrogate (skip_ws s) = true.
Proof.
  intros H. destruct (skip_ws_split s) as (p & Hp). rewrite Hp in H.
  exact (no_surrogate_app _ _ H).
Qed.

Lemma high_not_low n : Utf8.is_high n = true -> Utf8.is_low n = false.
Proof.
  unfold Utf8.is_high, Utf8.is_low. intros H. apply andb_prop in H as [_ H].
  apply N.leb_le in H. apply andb_false_iff. left. apply N.leb_gt. lia.
Qed.

Lemma not_surrogate n :
  Utf8.is_surrogate n = false -> Utf8.is_high n = false /\ Utf8.is_low n = false.
Proof.
  unfold Utf8.is_surrogate, Utf8.is_high, Utf8.is_low. intros H.
  apply andb_false_iff in H.
  split; apply andb_false_iff;
    destruct H as [H|H]; apply N.leb_gt in H;
    solve [left; apply N.leb_gt; lia | right; apply N.leb_gt; lia].
Qed.

Lemma join_pair_plain high low :
  Utf8.is_high high = true -> Utf8.is_low low = true ->
  Utf8.is_surrogate (join_pair high low) = false.
Proof.
  unfold Utf8.is_high, Utf8.is_low, Utf8.is_surrogate, join_pair. intros Hh Hl.
  apply andb_false_iff. right. apply N.leb_gt. lia.
Qed.

Lemma unescape_plain e n : unescape e = Some n -> Utf8.is_surrogate n = false.
Proof.
  unfold unescape.
  repeat match goal with
         | |- (if ?b then _ else _) = _ -> _ => destruct b; [intros [= <-]; reflexivity|]
         end.
  discriminate.
Qed.

Lemma split_pair_cons n ns :
  Utf8.split_pair ns = false ->
  (Utf8.is_high n = true -> head_low ns = false) ->
  Utf8.split_pair (n :: ns) = false.
Proof.
  intros Hns Hhead. destruct ns as [|m ns]; [reflexivity|].
  cbn [Utf8.split_pair] in *. rewrite Hns, orb_false_r.
  destruct (Utf8.is_high n); [|reflexivity]. cbn [head_low andb] in *.
  apply Hhead. reflexivity.
Qed.

Section JoinedStrings.

Variable scan : string -> result (string * string).
Hypothesis scan_well : forall s out r,
  no_surrogate s = true -> scan s = Ok (out, r) -> scanned_well s out.

Lemma scanned_scanned_well n s out r :
  valid n -> no_surrogate s = true ->
  (Utf8.is_high n = true -> low_ahead s = false) ->
  scanned scan n s = Ok (out, r) ->
  exists ns, out = Utf8.text (n :: ns) /\ Forall Utf8.valid (n :: ns)
             /\ Utf8.split_pair (n :: ns) = false.
Proof.
  intros Hn Hs Hhigh. unfold scanned.
  destruct (scan s) as [[out' r']|] eqn:Hscan; [|discriminate].
  cbn [bind fst snd]. intros [= <- _].
  destruct (scan_well _ _ _ Hs Hscan) as (ns & -> & Hns & Hsplit & Hhead).
  exists ns. split; [symmetry; apply text_cons|]. split; [constructor; assumption|].
  apply split_pair_cons; [exact Hsplit|]. intros H. apply Hhead, Hhigh, H.
Qed.

Lemma scan_char_well s out r :
  no_surrogate s = true -> scan_char scan s = Ok (out, r) -> scanned_well s out.
Proof.
  intros Hs. unfold scan_char.
  destruct (Utf8.next s) as [[n rest]|] eqn:Hn; [|discriminate].
  destruct (no_surrogate_next _ _ _ Hs Hn) as [Hplain Hrest].
  pose proof (next_Some _ _ _ Hn) as [Hsplit Hvalid].
  destruct (n =? 34)%N eqn:E34.
  { intros [= <- _]. exists []. repeat split; try reflexivity. constructor. }
  destruct (n =? 92)%N eqn:E92.
  2: { destruct (n <? 32)%N; [discriminate|]. intros H.
       destruct (not_surrogate _ Hplain) as [Hhigh Hlow].
       destruct (scanned_scanned_well n rest out r Hvalid Hrest) as (ns & -> & Hns & Hsp);
         [rewrite Hhigh; discriminate|exact H|].
       exists (n :: ns). repeat split; try assumption. intros _. exact Hlow. }
  apply N.eqb_eq in E92. subst n.
  unfold scan_escape. destruct rest as [|e rest1]; [discriminate|].
  pose proof (no_surrogate_tail _ _ Hrest) as Hrest1.
  assert (Hs_eq : s = String (ascii_of_nat 92) (String e rest1)) by exact Hsplit.
  destruct (Ascii.eqb e "u") eqn:Eu.
  2: { destruct (unescape e) as [n|] eqn:He; [|discriminate]. intros H.
       pose proof (unescape_plain _ _ He) as Hp.
       destruct (not_surrogate _ Hp) as [Hhigh Hlow].
       destruct (scanned_scanned_well n rest1 out r (unescape_valid _ _ He) Hrest1)
         as (ns & -> & Hns & Hsp); [rewrite Hhigh; discriminate|exact H|].
       exists (n :: ns). repeat split; try assumption. intros _. exact Hlow. }
  unfold scan_unicode.
  destruct (read_hex4 rest1) as [[uni rest2]|] eqn:Hh; [|discriminate].
  assert (Hahead : low_ahead s = Utf8.is_low uni).
  { rewrite Hs_eq. unfold low_ahead, escape_u. rewrite Eu.
    change ((Str.byte (ascii_of_nat 92) =? 92)%nat) with true. cbn [andb].
    rewrite Hh. reflexivity. }
  assert (Huni : valid uni) by (apply read_hex4_bound in Hh; unfold valid; lia).
  pose proof (no_surrogate_leaves _ _ (read_hex4_leaves _ _ _ Hh) Hrest1) as Hrest2.
  assert (Hlone : (Utf8.is_high uni = true -> low_ahead rest2 = false) ->
                  scanned scan uni rest2 = Ok (out, r) -> scanned_well s out).
  { intros Hhigh H.
    destruct (scanned_scanned_well uni rest2 out r Huni Hrest2 Hhigh H)
      as (ns & -> & Hns & Hsp).
    exists (uni :: ns). repeat split; try assumption.
    rewrite Hahead. exact (fun H => H). }
  destruct (Utf8.is_high uni) eqn:Hhigh; [|apply Hlone; discriminate].
  destruct (escape_u rest2) as [rest3|] eqn:He.
  2: { apply Hlone. intros _. unfold low_ahead. rewrite He. reflexivity. }
  destruct (read_hex4 rest3) as [[uni2 rest4]|] eqn:Hh2; [|discriminate].
  destruct (Utf8.is_low uni2) eqn:Hlow2.
  2: { apply Hlone. intros _. unfold low_ahead. rewrite He, Hh2. exact Hlow2. }
  intros H.
  pose proof (join_pair_plain _ _ Hhigh Hlow2) as Hp.
  destruct (not_surrogate _ Hp) as [Hjh Hjl].
  assert (Hrest4 : no_surrogate rest4 = true).
  { apply (no_surrogate_leaves rest3); [exact (read_hex4_leaves _ _ _ Hh2)|].
    exact (no_surrogate_leaves _ _ (escape_u_leaves _ _ He) Hrest2). }
  destruct (scanned_scanned_well _ rest4 out r
              (join_pair_valid _ _ Hhigh Hlow2) Hrest4)
    as (ns & -> & Hns & Hsp); [rewrite Hjh; discriminate|exact H|].
  exists (join_pair uni uni2 :: ns). repeat split; try assumption.
  intros _. exact Hjl.
Qed.

End JoinedStrings.

Lemma scanstring_well fuel : forall s out r,
  no_surrogate s = true -> scanstring fuel s = Ok (out, r) -> scanned_well s out.
Proof.
  induction fuel as [|fuel IH]; [discriminate|]. intros s out r.
  cbn [scanstring]. apply scan_char_well. exact IH.
Qed.

Lemma scanstring_joined fuel s out r :
  no_surrogate s = true -> scanstring fuel s = Ok (out, r) -> pairs_joined out = true.
Proof.
  intros Hs H. destruct (scanstring_well _ _ _ _ Hs H) as (ns & -> & Hns & Hsp & _).
  unfold pairs_joined. rewrite codes_text by exact Hns. rewrite Hsp. reflexivity.
Qed.

Section JoinedDecoder.

Variable parse_float : string -> spec_float.

Lemma joined_list l : Forall (fun x => joined x = true) l -> joined (VList l) = true.
Proof.
  intros H. cbn [joined all_strings]. apply forallb_forall.
  rewrite Forall_forall in H. exact H.
Qed.

Lemma joined_dict kvs : Forall joined_member kvs -> joined (VDict kvs) = true.
Proof.
  intros H. cbn [joined all_strings]. apply forallb_forall. intros [k x] Hin.
  rewrite Forall_forall in H. destruct (H _ Hin) as [Hk Hx]. cbn [fst snd] in *.
  rewrite Hk. exact Hx.
Qed.

Lemma update_joined k v kvs :
  joined_member (k, v) -> Forall joined_member kvs ->
  Forall joined_member (update k v kvs).
Proof.
  intros Hkv H. induction H as [|[k' v'] kvs Hx Hkvs IH];
    [cbn [update]; constructor; [exact Hkv|constructor]|].
  cbn [update]. destruct (String.eqb k k'); constructor; assumption.
Qed.

Lemma dict_joined pairs : Forall joined_member pairs -> Forall joined_member (dict pairs).
Proof.
  unfold dict. intros H.
  assert (Hgen : forall acc, Forall joined_member acc ->
            Forall joined_member
              (fold_left (fun a kv => update (fst kv) (snd kv) a) pairs acc)).
  { induction H as [|[k v] pairs Hkv _ IH]; intros acc Ha; [exact Ha|].
    cbn [fold_left fst snd]. apply IH, update_joined; assumption. }
  apply Hgen. constructor.
Qed.

Lemma match_number_joined s v r :
  match_number parse_float s = Some (v, r) -> joined v = true.
Proof.
  unfold match_number. destruct (integer s) as [[whole t]|]; [|discriminate].
  destruct (fraction t) as [frac t1]. destruct (exponent t1) as [exp t2].
  destruct (String.eqb frac "" && String.eqb exp ""); intros [= <- _]; reflexivity.
Qed.

Section JoinedValues.

Variable scan : string -> result (value * string).
Hypothesis scan_leaves : forall s v r, scan s = Ok (v, r) -> leaves s r.
Hypothesis scan_joined : forall s v r,
  no_surrogate s = true -> scan s = Ok (v, r) -> joined v = true.
Variable string_at : string -> result (string * string).
Hypothesis string_at_leaves : forall s out r, string_at s = Ok (out, r) -> leaves s r.
Hypothesis string_at_joined : forall s out r,
  no_surrogate s = true -> string_at s = Ok (out, r) -> pairs_joined out = true.

Lemma elements_joined k : forall s items r,
  no_surrogate s = true -> elements scan k s = Ok (items, r) ->
  Forall (fun x => joined x = true) items.
Proof.
  induction k as [|k IH]; [discriminate|]. intros s items r Hs. cbn [elements].
  destruct (scan s) as [[x rx]|] eqn:Hx; [|discriminate]. cbn [bind fst snd].
  pose proof (scan_joined _ _ _ Hs Hx) as Hj.
  pose proof (no_surrogate_skip_ws _
                (no_surrogate_leaves _ _ (scan_leaves _ _ _ Hx) Hs)) as Hrx.
  destruct (skip_ws rx) as [|c r']; [discriminate|].
  destruct (Ascii.eqb c "]"); [intros [= <- _]; constructor; [exact Hj|constructor]|].
  destruct (Ascii.eqb c ","); [|discriminate].
  destruct (elements scan k (skip_ws r')) as [[xs rs]|] eqn:Hxs; [|discriminate].
  cbn [bind fst snd]. intros [= <- _]. constructor; [exact Hj|].
  apply (IH _ _ _ (no_surrogate_skip_ws _ (no_surrogate_tail _ _ Hrx)) Hxs).
Qed.

Lemma members_joined k : forall s pairs r,
  no_surrogate s = true -> members scan string_at k s = Ok (pairs, r) ->
  Forall joined_member pairs.
Proof.
  induction k as [|k IH]; [discriminate|]. intros s pairs r Hs. cbn [members].
  destruct (string_at s) as [[key rk]|] eqn:Hk; [|discriminate]. cbn [bind fst snd].
  pose proof (string_at_joined _ _ _ Hs Hk) as Hjk.
  pose proof (no_surrogate_skip_ws _
                (no_surrogate_leaves _ _ (string_at_leaves _ _ _ Hk) Hs)) as Hrk.
  destruct (skip_ws rk) as [|colon r1]; [discriminate|].
  destruct (Ascii.eqb colon ":"); [|discriminate].
  pose proof (no_surrogate_skip_ws _ (no_surrogate_tail _ _ Hrk)) as Hr1.
  destruct (scan (skip_ws r1)) as [[x rx]|] eqn:Hx; [|discriminate].
  cbn [bind fst snd]. pose proof (scan_joined _ _ _ Hr1 Hx) as Hjx.
  pose proof (no_surrogate_skip_ws _
                (no_surrogate_leaves _ _ (scan_leaves _ _ _ Hx) Hr1)) as Hrx.
  destruct (skip_ws rx) as [|c r2]; [discriminate|].
  destruct (Ascii.eqb c "}");
    [intros [= <- _]; constructor; [split; assumption|constructor]|].
  destruct (Ascii.eqb c ","); [|discriminate].
  pose proof (no_surrogate_skip_ws _ (no_surrogate_tail _ _ Hrx)) as Hr2.
  destruct (skip_ws r2) as [|q r3]; [discriminate|].
  destruct (is_quote q); [|discriminate].
  destruct (members scan string_at k r3) as [[xs rs]|] eqn:Hxs; [|discriminate].
  cbn [bind fst snd]. intros [= <- _].
  constructor; [split; assumption|].
  exact (IH _ _ _ (no_surrogate_tail _ _ Hr2) Hxs).
Qed.

End JoinedValues.

Lemma scan_value_joined fuel scan s v r :
  (forall s v r, scan s = Ok (v, r) -> leaves s r) ->
  (forall s v r, no_surrogate s = true -> scan s = Ok (v, r) -> joined v = true) ->
  no_surrogate s = true ->
  scan_value parse_float fuel scan s = Ok (v, r) -> joined v = true.
Proof.
  intros Hleaves Hscan Hs H. unfold scan_value in H.
  destruct s as [|c rest]; [discriminate|].
  pose proof (no_surrogate_tail _ _ Hs) as Hrest.
  destruct (is_quote c).
  { destruct (scanstring fuel rest) as [[out u]|] eqn:Hstr; [|discriminate].
    cbn [bind fst snd] in H. injection H as <- _.
    exact (scanstring_joined _ _ _ _ Hrest Hstr). }
  pose proof (no_surrogate_skip_ws _ Hrest) as Hw.
  destruct (Ascii.eqb c "{").
  { destruct (skip_ws rest) as [|c' r']; [discriminate|].
    destruct (Ascii.eqb c' "}"); [injection H as <- _; reflexivity|].
    destruct (is_quote c'); [|discriminate].
    destruct (members scan (scanstring fuel) fuel r') as [[pairs u]|] eqn:Hm;
      [|discriminate].
    cbn [bind fst snd] in H. injection H as <- _.
    apply joined_dict, dict_joined.
    apply (members_joined scan Hleaves Hscan (scanstring fuel)
             (scanstring_leaves fuel) (scanstring_joined fuel)
             fuel r' pairs u (no_surrogate_tail _ _ Hw) Hm). }
  destruct (Ascii.eqb c "[").
  { destruct (skip_ws rest) as [|c' r']; [discriminate|].
    destruct (Ascii.eqb c' "]"); [injection H as <- _; reflexivity|].
    destruct (elements scan fuel (String c' r')) as [[items u]|] eqn:He;
      [|discriminate].
    cbn [bind fst snd] in H. injection H as <- _.
    apply joined_list.
    exact (elements_joined scan Hleaves Hscan fuel _ _ _ Hw He). }
  destruct (String.prefix "null" (String c rest)); [injection H as <- _; reflexivity|].
  destruct (String.prefix "true" (String c rest)); [injection H as <- _; reflexivity|].
  destruct (String.prefix "false" (String c rest)); [injection H as <- _; reflexivity|].
  destruct (match_number parse_float (String c rest)) as [[x u]|] eqn:Hn.
  { injection H as <- _. exact (match_number_joined _ _ _ Hn). }
  destruct (String.prefix "NaN" (String c rest)); [injection H as <- _; reflexivity|].
  destruct (String.prefix "Infinity" (String c rest));
    [injection H as <- _; reflexivity|].
  destruct (String.prefix "-Infinity" (String c rest));
    [injection H as <- _; reflexivity|discriminate].
Qed.

Lemma scan_once_joined fuel : forall s v r,
  no_surrogate s = true -> scan_once parse_float fuel s = Ok (v, r) ->
  joined v = true.
Proof.
  induction fuel as [|fuel IH]; [discriminate|]. intros s v r Hs H.
  cbn [scan_once] in H.
  exact (scan_value_joined _ _ _ _ _ (scan_once_leaves parse_float fuel) IH Hs H).
Qed.

(** A document parsed from an upload without surrogates has no split
    pair. *)
Lemma loads_joined text d :
  no_surrogate text = true -> loads parse_float text = Ok d -> joined d = true.
Proof.
  intros Ht. unfold loads.
  set (body := if String.prefix bom text then after 3 text else text).
  assert (Hbody : no_surrogate body = true).
  { subst body. destruct (String.prefix bom text) eqn:Hb; [|exact Ht].
    apply (no_surrogate_leaves text); [|exact Ht].
    apply (prefix_after bom text); [cbn; lia|exact Hb]. }
  destruct (scan_once parse_float (S (String.length body)) (skip_ws body))
    as [[v r]|] eqn:H; [|discriminate].
  cbn [bind fst snd]. destruct (skip_ws r); [|discriminate].
  intros [= <-].
  exact (scan_once_joined _ _ _ _ (no_surrogate_skip_ws _ Hbody) H).
Qed.

End JoinedDecoder.

End JsonFacts.

(** ** The standalone document and the script *)

Section RenderingFacts.

Variable float_repr : spec_float -> string.
Variable str_repr : string -> string.

Local Abbreviation str_of := (py_str float_repr str_repr).
Local Abbreviation html_of := (generate_interactive_html float_repr str_repr).
Local Abbreviation before := (document_before float_repr str_repr).
Local Abbreviation item := (list_item float_repr str_repr).
Local Abbreviation report_of := (report float_repr str_repr).
Local Abbreviation main_of := (main float_repr str_repr).

Lemma generate_before d now :
  html_of d now = (b <- before d ;; Ok (b ++ now ++ page_end)).
Proof.
  unfold generate_interactive_html, document_before.
  repeat match goal with
  | |- context [bind ?m _] => destruct m; cbn [bind]; try reflexivity
  end.
Qed.

(** What the generator returns is the template filled with the fields of
    the document, each with its default. *)
Lemma before_Ok d page :
  before d = Ok page ->
  exists company shown observed,
    resolve_company_name d "Company" = Ok company
    /\ Fmt.fixed0 (Spec.lookup ["volatility"; "overall_index"] (VInt 0) d) = Ok shown
    /\ py_iter (Spec.lookup ["observations"; "positive"] (VList []) d) = Ok observed
    /\ page =
       page_before company
         (str_of (Spec.lookup ["report_info"; "period_start"] (VStr "") d))
         (str_of (Spec.lookup ["report_info"; "period_end"] (VStr "") d))
         (str_of (Spec.lookup ["report_info"; "total_months"] (VInt 0) d))
         (str_of (Spec.lookup ["integrity_score"; "score"] (VInt 0) d))
         (str_of (Spec.lookup ["integrity_score"; "rating"] (VStr "N/A") d))
         shown
         (str_of (Spec.lookup ["volatility"; "overall_level"] (VStr "LOW") d))
         (str_of (Spec.lookup ["kite_flying"; "risk_score"] (VInt 0) d))
         (str_of (Spec.lookup ["kite_flying"; "risk_level"] (VStr "LOW") d))
         (String.concat "" (map item observed)).
Proof.
  unfold document_before. intros H.
  repeat (apply bind_Ok in H; destruct H as (? & ? & H)).
  injection H as <-.
  repeat match goal with
  | H1 : Py.get d ?k1 (VDict []) = Ok ?v, H2 : Py.get ?v ?k2 ?dflt = Ok ?x |- _ =>
      apply (get_get_lookup _ _ _ _ _ _ H1) in H2; subst x
  end.
  eauto 10.
Qed.

Lemma generate_Ok d now html :
  html_of d now = Ok html ->
  exists page, before d = Ok page /\ html = page ++ now ++ page_end.
Proof.
  rewrite generate_before. intros H.
  apply bind_Ok in H as (page & Hpage & [= <-]). eauto.
Qed.

Lemma main_completed d now calls :
  Py.truthy d = true -> main_of (Parsed d) now = (calls, Ok tt) ->
  exists cs, report_of d now = (cs, Ok tt) /\ calls = (preamble ++ cs)%list.
Proof.
  intros Ht. unfold main. rewrite Ht. cbn [negb].
  destruct (report _ _ d now) as [cs r]. intros [= <- ->].
  exists cs. split; reflexivity.
Qed.

Lemma in_preamble_app c cs : In c cs -> In c (preamble ++ cs)%list.
Proof. intros H. apply in_or_app. right. exact H. Qed.

(** Containment of the replacement fields in the page. *)
Section Page.
Variables company period_start period_end total_months int_score int_rating
  vol_index vol_level kite_score kite_level items rest : string.
Local Abbreviation page :=
  (page_before company period_start period_end total_months int_score
     int_rating vol_index vol_level kite_score kite_level items ++ rest).

Lemma page_title :
  Py.contains ("<title>Bank Statement Analysis - " ++ company ++ "</title>") page = true.
Proof. apply contains_app_l. unfold page_before. find_text. Qed.

Lemma page_heading :
  Py.contains ("<h1>" ++ company ++ "</h1>") page = true.
Proof. apply contains_app_l. unfold page_before. find_text. Qed.

Lemma page_rating :
  Py.contains (int_score ++ "% — " ++ int_rating ++ "</p>") page = true.
Proof. apply contains_app_l. unfold page_before. find_text. Qed.

Lemma page_volatility :
  Py.contains (card_open "Volatility" ++ "<p>" ++ vol_index ++ "% — "
               ++ vol_level ++ "</p>") page = true.
Proof. apply contains_app_l. unfold page_before. find_text. Qed.

Lemma page_kite :
  Py.contains (kite_score ++ " — " ++ kite_level ++ "</p>") page = true.
Proof. apply contains_app_l. unfold page_before. find_text. Qed.

Lemma page_items n :
  Py.contains n items = true -> Py.contains n page = true.
Proof.
  intros H. apply contains_app_l. unfold page_before.
  repeat first [ solve [apply contains_app_l; exact H] | apply contains_app_r ].
Qed.

End Page.

Lemma report_completed d now calls :
  report_of d now = (calls, Ok tt) ->
  exists version company r period_start period_end total_months
         integrity score kite risk_score volatility overall_index shown
         accounts count html,
    detect_schema_version d = Ok version
    /\ resolve_company_name d "Unknown" = Ok company
    /\ Py.get d "report_info" (VDict []) = Ok r
    /\ Py.get r "period_start" (VStr "") = Ok period_start
    /\ Py.get r "period_end" (VStr "") = Ok period_end
    /\ Py.get r "total_months" (VInt 0) = Ok total_months
    /\ Py.get d "integrity_score" (VDict []) = Ok integrity
    /\ Py.get integrity "score" (VInt 0) = Ok score
    /\ Py.get d "kite_flying" (VDict []) = Ok kite
    /\ Py.get kite "risk_score" (VInt 0) = Ok risk_score
    /\ Py.get d "volatility" (VDict []) = Ok volatility
    /\ Py.get volatility "overall_index" (VInt 0) = Ok overall_index
    /\ Fmt.fixed0 overall_index = Ok shown
    /\ Py.get d "accounts" (VList []) = Ok accounts
    /\ py_len accounts = Ok count
    /\ html_of d now = Ok html
    /\ calls =
       [success ("Loaded: " ++ company ++ " (Schema v" ++ version ++ ")");
        markdown ("**" ++ company ++ "**  " ++ nl
                  ++ str_of period_start ++ " → " ++ str_of period_end
                  ++ "  " ++ nl ++ str_of total_months ++ " Months");
        columns 4;
        metric 1 "Integrity" (VStr (str_of score ++ "%"));
        metric 2 "Kite Risk" risk_score;
        metric 3 "Volatility" (VStr (shown ++ "%"));
        metric 4 "Accounts" (VInt count);
        markdown "---";
        columns 2;
        download_button 1 "📄 Download JSON" (JsonDump d 2)
          (file_name company "json") "application/json";
        download_button 2 "🌐 Download HTML" (Text html)
          (file_name company "html") "text/html"].
Proof.
  intros H. unfold report in H.
  repeat run_step H.
  apply emit_Ok in H. subst.
  repeat eexists; eassumption.
Qed.

Lemma report_on_screen d now1 now2 :
  on_screen (report_of d now1) = on_screen (report_of d now2).
Proof.
  unfold report.
  repeat first
    [ rewrite !then_emit, !on_screen_and_then; apply (f_equal (and_then _))
    | progress cbn [st_metric]
    | rewrite !then_eval_Raise; reflexivity
    | match goal with
      | |- context [st_metric _ _ ?v] => is_var v; destruct v
      end
    | match goal with
      | |- context [then_ (eval ?m) _] =>
          lazymatch m with
          | generate_interactive_html _ _ _ _ => fail
          | _ => destruct m;
                 [ rewrite !then_eval_Ok; cbn beta
                 | rewrite !then_eval_Raise; reflexivity ]
          end
      end ].
  all: rewrite !generate_before.
  all: destruct (before d); cbn [bind];
    [ rewrite !then_eval_Ok; cbn beta; unfold on_screen, emit;
      cbn [fst snd map screen]; reflexivity
    | rewrite !then_eval_Raise; reflexivity ].
Qed.

(** C7.  The document that the generator returns is a text fixed by the
    uploaded document, then the time stamp, then the end of the page, so
    two runs differ in the time stamp only (and a run that raises does so
    whatever the clock); what the script puts on the screen does not
    depend on the clock at all. *)
Theorem rendering_deterministic (d : value) (uploaded_file : upload) :
  ((exists page, forall now, html_of d now = Ok (page ++ now ++ page_end))
   \/ (exists e, forall now, html_of d now = Raise e))
  /\ (forall now1 now2,
        on_screen (main_of uploaded_file now1) = on_screen (main_of uploaded_file now2)).
Proof.
  split.
  - destruct (before d) as [page|e] eqn:Hpage; [left; exists page|right; exists e];
      intros now; rewrite generate_before, Hpage; reflexivity.
  - intros now1 now2. unfold main.
    destruct uploaded_file as [|message|v]; [reflexivity|reflexivity|].
    destruct (negb (Py.truthy v)); [reflexivity|].
    pose proof (report_on_screen v now1 now2) as H.
    destruct (report _ _ v now1) as [cs1 r1],
             (report _ _ v now2) as [cs2 r2].
    unfold on_screen in *. cbn [fst snd] in *. injection H as Hcs Hr.
    rewrite !map_app, Hcs, Hr. reflexivity.
Qed.

(** C4, as amended.  Nothing is escaped: the document that the generator
    returns holds the resolved company name as it is, in the title and in
    the heading, the rating and the two levels as they are after their
    dash, and every string of [observations.positive] as it is between
    [<li>] and [</li>]. *)
Theorem strings_inserted_verbatim (d : value) (now html : string) :
  html_of d now = Ok html ->
  exists company,
    resolve_company_name d "Company" = Ok company
    /\ Py.contains ("<title>Bank Statement Analysis - " ++ company ++ "</title>")
         html = true
    /\ Py.contains ("<h1>" ++ company ++ "</h1>") html = true
    /\ (forall s, Spec.path ["integrity_score"; "rating"] d = Some (VStr s) ->
        Py.contains ("% — " ++ s ++ "</p>") html = true)
    /\ (forall s, Spec.path ["volatility"; "overall_level"] d = Some (VStr s) ->
        Py.contains ("% — " ++ s ++ "</p>") html = true)
    /\ (forall s, Spec.path ["kite_flying"; "risk_level"] d = Some (VStr s) ->
        Py.contains (" — " ++ s ++ "</p>") html = true)
    /\ (forall l o, Spec.path ["observations"; "positive"] d = Some (VList l) ->
        In (VStr o) l ->
        Py.contains ("<li>" ++ o ++ "</li>") html = true).
Proof.
  intros H. apply generate_Ok in H as (page & Hpage & ->).
  apply before_Ok in Hpage as (company & shown & observed & Hc & _ & Hobs & ->).
  exists company. split; [exact Hc|].
  split; [apply page_title|]. split; [apply page_heading|].
  unfold Spec.lookup in *.
  split; [|split; [|split]].
  - intros s ->. cbn [py_str].
    apply contains_app_l. unfold page_before. find_text.
  - intros s ->. cbn [py_str].
    apply contains_app_l. unfold page_before. find_text.
  - intros s ->. cbn [py_str].
    apply contains_app_l. unfold page_before. find_text.
  - intros l o Hl Hin. rewrite Hl in Hobs. injection Hobs as <-.
    apply page_items.
    apply (contains_concat _ (item (VStr o))).
    + apply in_map. exact Hin.
    + apply contains_prefix, prefix_refl.
Qed.

(** C8, as amended.  When the script runs to its end, the volatility
    tile and the volatility card of the document show
    [volatility.overall_index] (0 when absent) formatted with no
    fractional digit: a finite float as a nearest whole number, an
    integer of magnitude at most [2^53] as itself.  The other three tiles
    are the integrity score followed by a per cent sign, the kite-flying
    risk score as it is, and the length of [accounts]. *)
Theorem volatility_display (d : value) (now : string) (calls : list call) :
  Py.truthy d = true ->
  main_of (Parsed d) now = (calls, Ok tt) ->
  exists shown name html count,
    Fmt.fixed0 (Spec.lookup ["volatility"; "overall_index"] (VInt 0) d) = Ok shown
    /\ In (metric 3 "Volatility" (VStr (shown ++ "%"))) calls
    /\ In (download_button 2 "🌐 Download HTML" (Text html) name "text/html") calls
    /\ Py.contains (card_open "Volatility" ++ "<p>" ++ shown ++ "% — ") html = true
    /\ (Spec.path ["volatility"; "overall_index"] d = None -> shown = "0")
    /\ (forall z, Spec.path ["volatility"; "overall_index"] d = Some (VInt z) ->
        (Z.abs z <= 2 ^ 53)%Z -> shown = Fmt.decimal z)
    /\ (forall s m e,
        Spec.path ["volatility"; "overall_index"] d
        = Some (VFloat (S754_finite s m e)) ->
        exists n, shown = Fmt.sign s ++ Fmt.decimal n /\ nearest_to n m e)
    /\ In (metric 1 "Integrity"
             (VStr (str_of (Spec.lookup ["integrity_score"; "score"] (VInt 0) d)
                    ++ "%"))) calls
    /\ In (metric 2 "Kite Risk"
             (Spec.lookup ["kite_flying"; "risk_score"] (VInt 0) d)) calls
    /\ py_len (Spec.lookup ["accounts"] (VList []) d) = Ok count
    /\ In (metric 4 "Accounts" (VInt count)) calls.
Proof.
  intros Ht H. apply (main_completed _ _ _ Ht) in H as (cs & H & ->).
  apply report_completed in H
    as (version & company & r & ps & pe & tm & integrity & score & kite & risk
        & vol & index & shown & accounts & count & html
        & _ & _ & _ & _ & _ & _ & Hi & Hs & Hk & Hr & Hv & Hx & Hshown & Ha
        & Hcount & Hhtml & ->).
  apply (get_get_lookup _ _ _ _ _ _ Hi) in Hs.
  apply (get_get_lookup _ _ _ _ _ _ Hk) in Hr.
  apply (get_get_lookup _ _ _ _ _ _ Hv) in Hx.
  apply get_lookup in Ha. subst score risk index accounts.
  exists shown, (file_name company "html"), html, count.
  split; [exact Hshown|].
  split; [apply in_preamble_app; cbn; tauto|].
  split; [apply in_preamble_app; cbn; tauto|].
  split.
  { apply generate_Ok in Hhtml as (page & Hpage & ->).
    apply before_Ok in Hpage as (c & shown' & obs & _ & Hshown' & _ & ->).
    rewrite Hshown in Hshown'. injection Hshown' as <-.
    apply contains_app_l. unfold page_before. find_text. }
  unfold Spec.lookup in Hshown.
  split; [|split; [|split]].
  - intros Hnone. rewrite Hnone in Hshown. injection Hshown as <-. reflexivity.
  - intros z Hz Hsmall. rewrite Hz in Hshown. cbn [Fmt.fixed0] in Hshown.
    rewrite (int_to_float_exact _ Hsmall) in Hshown.
    injection Hshown as <-. reflexivity.
  - intros s m e Hf. rewrite Hf in Hshown. injection Hshown as <-.
    exists (Fmt.integral m e). split; [reflexivity|apply integral_nearest].
  - split; [apply in_preamble_app; cbn; tauto|].
    split; [apply in_preamble_app; cbn; tauto|].
    split; [exact Hcount|apply in_preamble_app; cbn; tauto].
Qed.

(** C9.  An upload whose parsed value is false (the empty mapping or
    sequence, zero, false, null, the empty string) gives the run of no
    upload at all: the preamble, the prompt, and the stop, with no error
    message and nothing detected, resolved or rendered. *)
Theorem empty_document_is_no_upload (v : value) (now : string) :
  Py.truthy v = false ->
  main_of (Parsed v) now = main_of NoFile now
  /\ main_of NoFile now
     = ((preamble ++ [info "👆 Upload a JSON file to begin"; stop])%list, Ok tt)
  /\ Forall (fun x => Py.truthy x = false)
       [VDict []; VList []; VInt 0; VBool false; VNone; VStr ""].
Proof.
  intros H. unfold main. rewrite H. cbn [negb Py.truthy].
  split; [reflexivity|]. split; [reflexivity|].
  repeat constructor.
Qed.

End RenderingFacts.

Lemma strings_inserted_verbatim_witness :
  exists html,
    generate_interactive_html Sample.float_repr Sample.str_repr Doc.script_name Sample.now
    = Ok html
    /\ Py.contains "<h1><script>alert(1)</script></h1>" html = true
    /\ Py.contains "<li><b>fine</b></li>" html = true.
Proof.
  destruct (generate_interactive_html Sample.float_repr Sample.str_repr
              Doc.script_name Sample.now) as [html|] eqn:H; [|discriminate].
  exists html. split; [reflexivity|].
  destruct (strings_inserted_verbatim _ _ _ _ _ H)
    as (company & Hc & _ & Hh & _ & _ & _ & Ho).
  injection Hc as <-. split; [exact Hh|].
  exact (Ho [VStr "<b>fine</b>"] "<b>fine</b>" eq_refl (or_introl eq_refl)).
Defined.

(** C4 as stated fails: the company name [<script>alert(1)</script>] is
    in the document with its angle brackets. *)
Lemma strings_inserted_verbatim_counterexample :
  resolve_company_name Doc.script_name "Company" = Ok "<script>alert(1)</script>"
  /\ exists html,
       generate_interactive_html Sample.float_repr Sample.str_repr
         Doc.script_name Sample.now = Ok html
       /\ Py.contains "<script>" html = true.
Proof.
  split; [reflexivity|]. eexists. split; [vm_compute; reflexivity|].
  vm_compute. reflexivity.
Qed.

Lemma volatility_display_witness :
  exists calls,
    main Sample.float_repr Sample.str_repr (Parsed Doc.half_index) Sample.now
    = (calls, Ok tt)
    /\ In (metric 3 "Volatility" (VStr "12%")) calls
    /\ In (metric 4 "Accounts" (VInt 2)) calls.
Proof.
  destruct (main Sample.float_repr Sample.str_repr (Parsed Doc.half_index) Sample.now)
    as [calls [[]|]] eqn:H; [|discriminate].
  exists calls. split; [reflexivity|].
  destruct (volatility_display _ _ Doc.half_index Sample.now calls eq_refl H)
    as (shown & name & html & count & Hshown & Hm & _ & _ & _ & _ & _ & _ & _
        & Hcount & Ha).
  injection Hshown as <-. injection Hcount as <-. split; assumption.
Defined.

(** C8 as stated fails: the index [2^53 + 1] is a whole number and the
    tile shows [2^53]. *)
Lemma volatility_display_counterexample :
  Spec.path ["volatility"; "overall_index"] Doc.big_index
  = Some (VInt 9007199254740993)
  /\ nth_error
       (fst (main Sample.float_repr Sample.str_repr (Parsed Doc.big_index) Sample.now)) 9
     = Some (metric 3 "Volatility" (VStr "9007199254740992%")).
Proof.
  split; [reflexivity|vm_compute; reflexivity].
Qed.

Lemma empty_document_is_no_upload_witness :
  main Sample.float_repr Sample.str_repr (Parsed (VList [])) Sample.now
  = main Sample.float_repr Sample.str_repr NoFile Sample.now.
Proof.
  exact (proj1 (empty_document_is_no_upload _ _ (VList []) Sample.now eq_refl)).
Defined.


(** * Further facts *)

(** ** More on strings *)

Lemma lstrip_after s :
  Str.lstrip s = match Str.after_space s with
                 | Some r => Str.lstrip r
                 | None => s
                 end.
Proof.
  destruct s as [|c1 [|c2 [|c3 r3]]]; cbn [Str.lstrip Str.after_space];
    try reflexivity.
  - destruct (Str.space1 c1); reflexivity.
  - destruct (Str.space1 c1); [reflexivity|].
    destruct (Str.space2 c1 c2); reflexivity.
  - destruct (Str.space1 c1); [reflexivity|].
    destruct (Str.space2 c1 c2); [reflexivity|].
    destruct (Str.space3 c1 c2 c3); reflexivity.
Qed.

Lemma after_space_shorter s r :
  Str.after_space s = Some r -> (String.length r < String.length s)%nat.
Proof.
  destruct s as [|c1 [|c2 [|c3 r3]]]; cbn [Str.after_space]; try discriminate.
  - destruct (Str.space1 c1); [|discriminate]. intros [= <-]. cbn. lia.
  - destruct (Str.space1 c1); [intros [= <-]; cbn; lia|].
    destruct (Str.space2 c1 c2); [|discriminate]. intros [= <-]. cbn. lia.
  - destruct (Str.space1 c1); [intros [= <-]; cbn; lia|].
    destruct (Str.space2 c1 c2); [intros [= <-]; cbn; lia|].
    destruct (Str.space3 c1 c2 c3); [|discriminate]. intros [= <-]. cbn. lia.
Qed.

Lemma after_space_app s r t :
  Str.after_space s = Some r -> Str.after_space (s ++ t) = Some (r ++ t).
Proof.
  destruct s as [|c1 [|c2 [|c3 r3]]]; try discriminate.
  - unfold Str.after_space at 1.
    destruct (Str.space1 c1) eqn:H1; [|discriminate]. intros [= <-].
    destruct t as [|t1 [|t2 t]]; unfold Str.after_space; cbn [append];
      rewrite H1; reflexivity.
  - unfold Str.after_space at 1. destruct (Str.space1 c1) eqn:H1.
    + intros [= <-]. destruct t; unfold Str.after_space; cbn [append];
        rewrite H1; reflexivity.
    + destruct (Str.space2 c1 c2) eqn:H2; [|discriminate]. intros [= <-].
      destruct t; unfold Str.after_space; cbn [append]; rewrite H1, H2;
        reflexivity.
  - unfold Str.after_space. cbn [append].
    destruct (Str.space1 c1) eqn:H1; [intros [= <-]; reflexivity|].
    destruct (Str.space2 c1 c2) eqn:H2; [intros [= <-]; reflexivity|].
    destruct (Str.space3 c1 c2 c3) eqn:H3; [|discriminate].
    intros [= <-]. reflexivity.
Qed.

Lemma lstrip_done s : Str.after_space (Str.lstrip s) = None.
Proof.
  remember (String.length s) as n eqn:Hn. revert s Hn.
  induction n as [n IH] using lt_wf_ind. intros s ->.
  rewrite lstrip_after. destruct (Str.after_space s) as [r|] eqn:Hs.
  - apply (IH _ (after_space_shorter _ _ Hs) r eq_refl).
  - exact Hs.
Qed.

Lemma blank_app a t : Str.lstrip a = "" -> Str.lstrip (a ++ t) = Str.lstrip t.
Proof.
  remember (String.length a) as n eqn:Hn. revert a Hn.
  induction n as [n IH] using lt_wf_ind. intros a -> Ha.
  rewrite lstrip_after in Ha. destruct (Str.after_space a) as [r|] eqn:Hs.
  - rewrite (lstrip_after (a ++ t)), (after_space_app _ _ t Hs).
    apply (IH _ (after_space_shorter _ _ Hs) r eq_refl Ha).
  - subst a. reflexivity.
Qed.

Lemma rstrip_split s :
  exists t, s = Str.rstrip s ++ t /\ Str.blank t = true.
Proof.
  induction s as [|c rest (t & Hrest & Ht)]; [exists ""; split; reflexivity|].
  cbn [Str.rstrip]. destruct (Str.blank (String c rest)) eqn:Hb.
  - exists (String c rest). split; [reflexivity|exact Hb].
  - exists t. split; [cbn [append]; rewrite <- Hrest; reflexivity|exact Ht].
Qed.

Lemma rstrip_idempotent s : Str.rstrip (Str.rstrip s) = Str.rstrip s.
Proof.
  induction s as [|c rest IH]; [reflexivity|].
  cbn [Str.rstrip]. destruct (Str.blank (String c rest)) eqn:Hb; [reflexivity|].
  cbn [Str.rstrip]. rewrite IH.
  destruct (Str.blank (String c (Str.rstrip rest))) eqn:Hb'; [|reflexivity].
  destruct (rstrip_split rest) as (t & Hrest & Ht).
  unfold Str.blank in *. apply String.eqb_eq in Hb', Ht.
  rewrite Hrest in Hb. change (String c (Str.rstrip rest ++ t))
    with (String c (Str.rstrip rest) ++ t) in Hb.
  rewrite (blank_app _ t Hb'), Ht in Hb. discriminate.
Qed.

Lemma lstrip_rstrip s :
  Str.after_space s = None -> Str.lstrip (Str.rstrip s) = Str.rstrip s.
Proof.
  intros Hs. rewrite lstrip_after.
  destruct (Str.after_space (Str.rstrip s)) as [r|] eqn:Hr; [|reflexivity].
  destruct (rstrip_split s) as (t & Hsplit & _).
  apply (after_space_app _ _ t) in Hr. rewrite <- Hsplit, Hs in Hr. discriminate.
Qed.

Lemma strip_idempotent s : Str.strip (Str.strip s) = Str.strip s.
Proof.
  unfold Str.strip.
  rewrite (lstrip_rstrip _ (lstrip_done s)). apply rstrip_idempotent.
Qed.

(** ** More on the resolver *)

Lemma usable_Some c s :
  usable c = Some s ->
  exists raw, c = VStr raw /\ s = Str.strip raw
              /\ s <> "" /\ blocked (Str.lower s) = false.
Proof.
  destruct c as [| | | | raw | |]; try discriminate.
  unfold usable.
  destruct (String.eqb (Str.strip raw) "") eqn:He; [discriminate|].
  destruct (blocked (Str.lower (Str.strip raw))) eqn:Hb; [discriminate|].
  intros [= <-]. exists raw. repeat split; try assumption.
  apply String.eqb_neq. exact He.
Qed.

Lemma first_usable_result cs default :
  first_usable cs default = default
  \/ exists c, In c cs /\ usable c = Some (first_usable cs default).
Proof.
  induction cs as [|c cs IH]; [left; reflexivity|].
  cbn [first_usable]. destruct (usable c) as [s|] eqn:Hc.
  - right. exists c. split; [left; reflexivity|exact Hc].
  - destruct IH as [IH|(c' & Hin & Hc')]; [left; exact IH|].
    right. exists c'. split; [right; exact Hin|exact Hc'].
Qed.

Lemma resolve_unguarded d default :
  report_info_guarded d = false ->
  resolve_company_name d default = Raise AttributeError.
Proof.
  unfold report_info_guarded, absent_or.
  destruct d as [| | | | | |kvs]; try discriminate.
  unfold resolve_company_name. cbn [Spec.field Py.get bind].
  destruct (Py.assoc "report_info" kvs) as [info|]; [|discriminate].
  destruct info as [| | | | | |fields]; cbn [is_mapping orb]; try discriminate.
  all: intros H; apply negb_false_iff in H; rewrite H; reflexivity.
Qed.

(** X1.  The resolver either follows the documented resolution or raises, and
    the guard on [report_info] decides which. *)
Theorem resolve_company_name_total (d : value) (default : string) :
  resolve_company_name d default
  = if report_info_guarded d then Ok (Spec.company_name d default)
    else Raise AttributeError.
Proof.
  destruct (report_info_guarded d) eqn:H.
  - apply resolve_guarded, H.
  - apply resolve_unguarded, H.
Qed.

(** X2.  A name that the resolver returns is the default, or it comes from one
    of the six places, trimmed, not empty and no placeholder. *)
Theorem resolve_company_name_result (d : value) (default s : string) :
  resolve_company_name d default = Ok s ->
  s = default
  \/ (Str.strip s = s /\ s <> "" /\ blocked (Str.lower s) = false
      /\ exists p raw, In p Spec.company_paths
                       /\ Spec.path p d = Some (VStr raw) /\ s = Str.strip raw).
Proof.
  destruct (report_info_guarded d) eqn:Hg.
  2: { rewrite (resolve_unguarded _ _ Hg). discriminate. }
  destruct d as [| | | | | |kvs]; try (intros [= <-]; left; reflexivity).
  rewrite (resolve_candidates _ _ Hg).
  set (cs := map (fun p => or_none (Spec.path p (VDict kvs))) Spec.company_paths).
  intros H. assert (Hs : first_usable cs default = s) by congruence. clear H.
  pose proof (first_usable_result cs default) as Hr.
  rewrite Hs in Hr. destruct Hr as [Hr|(c & Hin & Hc)]; [left; exact Hr|].
  right. apply usable_Some in Hc as (raw & -> & Hraw & Hne & Hb).
  split; [rewrite Hraw; apply strip_idempotent|].
  repeat split; try assumption.
  subst cs. apply in_map_iff in Hin as (p & Hp & Hin).
  exists p, raw. repeat split; try assumption.
  destruct (Spec.path p (VDict kvs)) as [x|]; [|discriminate].
  cbn [or_none] in Hp. rewrite Hp. reflexivity.
Qed.

(** X4.  The resolver reads four top-level fields and no other. *)
Theorem resolve_company_name_reads (a b : list (string * value)) (default : string) :
  same_fields resolver_fields a b ->
  resolve_company_name (VDict a) default = resolve_company_name (VDict b) default.
Proof.
  intros H. unfold resolve_company_name. cbn [Py.get].
  rewrite (H "report_info"), (H "company_name"), (H "company"), (H "entity_name")
    by (cbn; tauto).
  reflexivity.
Qed.

(** X5.  The detector reads four top-level fields and no other. *)
Theorem detect_schema_version_reads (a b : list (string * value)) :
  same_fields detector_fields a b ->
  detect_schema_version (VDict a) = detect_schema_version (VDict b).
Proof.
  intros H. unfold detect_schema_version. cbn [Py.get].
  rewrite (H "report_info"), (H "recurring_payments"), (H "non_bank_financing"),
    (H "accounts") by (cbn; tauto).
  reflexivity.
Qed.

(** ** More on the detector *)

(** X6.  The first match wins before the later fields are looked at: a
    document that meets the first or the second rule is a "5.0" document
    whatever [accounts] holds. *)
Theorem detect_schema_version_first_match (d : value) :
  is_mapping d = true ->
  absent_or report_info_shape (Spec.field "report_info" d) = true ->
  early_match d = true ->
  detect_schema_version d = Ok "5.0".
Proof.
  destruct d as [| | | | | |kvs]; try discriminate. intros _ Hinfo Hearly.
  rewrite (detect_after_rule1 _ Hinfo).
  destruct (Spec.rule1 (VDict kvs)) eqn:H1; [reflexivity|].
  unfold early_match in Hearly. rewrite H1 in Hearly. cbn [orb] in Hearly.
  unfold after_rule1. rewrite v5_fields_rule2, Hearly. reflexivity.
Qed.

Lemma detect_schema_version_first_match_witness :
  detect_schema_version Doc.version_5_2_bad_accounts = Ok "5.0".
Proof.
  exact (detect_schema_version_first_match Doc.version_5_2_bad_accounts
           eq_refl eq_refl eq_refl).
Defined.

(** X7.  Past the first two rules, a non-empty [accounts] that is not a
    sequence starting with a mapping makes the detector raise: [KeyError]
    for a mapping, [AttributeError] for a string or a sequence of another
    first element, [TypeError] for a number or a truth value. *)
Theorem detect_schema_version_bad_accounts (d x : value) :
  is_mapping d = true ->
  absent_or report_info_shape (Spec.field "report_info" d) = true ->
  early_match d = false ->
  Spec.field "accounts" d = Some x ->
  Py.truthy x = true ->
  sequence_of is_mapping x = false ->
  detect_schema_version d
  = Raise match x with
          | VDict _ => KeyError
          | VStr _ | VList _ => AttributeError
          | _ => TypeError
          end.
Proof.
  destruct d as [| | | | | |kvs]; try discriminate.
  intros _ Hinfo Hearly Hacc Ht Hseq.
  rewrite (detect_late _ Hinfo Hearly). unfold intraday.
  cbn [Spec.field] in Hacc. cbn [Py.get bind]. rewrite Hacc, Ht.
  destruct x as [| | | | s |l|fields]; try reflexivity.
  - destruct s; [discriminate|reflexivity].
  - destruct l as [|a0 l]; [discriminate|].
    cbn [sequence_of] in Hseq. cbn [Py.item0 bind].
    destruct a0; try discriminate; reflexivity.
Qed.

Lemma detect_schema_version_bad_accounts_witness :
  detect_schema_version Doc.accounts_mapping = Raise KeyError.
Proof.
  exact (detect_schema_version_bad_accounts Doc.accounts_mapping
           (VDict [("main", VDict [])])
           eq_refl eq_refl eq_refl eq_refl eq_refl eq_refl).
Defined.

(** X8.  Past the first two rules, with a first account that is a mapping
    whose [monthly_summary] starts with [m]: the membership test is a
    substring test when [m] is a string and an element test when it is a
    sequence, and it raises [TypeError] when [m] is null, a truth value or
    a number. *)
Theorem detect_schema_version_first_month (d m : value)
    (fields : list (string * value)) (accounts months : list value) :
  is_mapping d = true ->
  absent_or report_info_shape (Spec.field "report_info" d) = true ->
  early_match d = false ->
  Spec.field "accounts" d = Some (VList (VDict fields :: accounts)) ->
  Py.assoc "monthly_summary" fields = Some (VList (m :: months)) ->
  (forall s, m = VStr s ->
     detect_schema_version d
     = Ok (if Py.contains "highest_intraday" s then "5.0" else "4.0"))
  /\ (forall l, m = VList l ->
     detect_schema_version d
     = Ok (if existsb (Py.is_str "highest_intraday") l then "5.0" else "4.0"))
  /\ (is_scalar m = true -> detect_schema_version d = Raise TypeError).
Proof.
  destruct d as [| | | | | |kvs]; try discriminate.
  intros _ Hinfo Hearly Hacc Hmonths.
  rewrite (detect_late _ Hinfo Hearly). unfold intraday.
  cbn [Spec.field] in Hacc.
  cbn [Py.get bind]. rewrite Hacc. cbn [Py.truthy Py.item0 Py.get bind].
  rewrite Hmonths. cbn [Py.truthy Py.item0 bind].
  split; [|split].
  - intros s ->. cbn [Py.contains_str bind].
    destruct (Py.contains _ s); reflexivity.
  - intros l ->. cbn [Py.contains_str bind].
    destruct (existsb _ l); reflexivity.
  - destruct m; try discriminate; reflexivity.
Qed.

Lemma detect_schema_version_first_month_witness :
  detect_schema_version Doc.month_text = Ok "5.0".
Proof.
  exact (proj1 (detect_schema_version_first_month Doc.month_text
                  (VStr "no highest_intraday here")
                  [("monthly_summary", VList [VStr "no highest_intraday here"])]
                  [] [] eq_refl eq_refl eq_refl eq_refl eq_refl)
           "no highest_intraday here" eq_refl).
Defined.

(** ** More on formatting *)

Open Scope Z_scope.

Lemma nearest_even_le m k :
  0 < k -> 0 <= m -> Fmt.nearest_even m k <= m / 2 ^ k + 1.
Proof.
  intros Hk Hm. unfold Fmt.nearest_even.
  destruct (_ <? _); [lia|]. destruct (_ <? _); [lia|].
  destruct (Z.even _); lia.
Qed.

Lemma int_to_float_returns z :
  Z.abs z < 2 ^ 1023 -> returns (Fmt.int_to_float z) = true.
Proof.
  intros Hz. unfold Fmt.int_to_float.
  set (a := Z.abs z) in *. set (drop := Z.log2 a + 1 - 53).
  assert (Hbound : (if drop <=? 0 then a
                    else Fmt.nearest_even a drop * 2 ^ drop) < 2 ^ 1024).
  { assert (H1023 : 2 ^ 1023 < 2 ^ 1024) by (apply Z.pow_lt_mono_r; lia).
    destruct (Z.leb_spec drop 0) as [|Hdrop]; [lia|].
    assert (Ha : 0 < a) by (destruct (Z.eq_dec a 0) as [H0|];
                             [subst drop; rewrite H0 in Hdrop; cbn in Hdrop; lia
                             |subst a; lia]).
    pose proof (Z.log2_spec a Ha) as [_ Hup].
    assert (Hlog : Z.log2 a < 1023) by (apply Z.log2_lt_pow2; assumption).
    assert (Hsplit : 2 ^ Z.succ (Z.log2 a) = 2 ^ 53 * 2 ^ drop).
    { rewrite <- Z.pow_add_r by lia. f_equal. subst drop. lia. }
    assert (Hpos : 0 < 2 ^ drop) by (apply Z.pow_pos_nonneg; lia).
    assert (Hq : a / 2 ^ drop < 2 ^ 53).
    { apply Z.div_lt_upper_bound; [assumption|]. rewrite Z.mul_comm. lia. }
    pose proof (nearest_even_le a drop Hdrop ltac:(lia)) as Hn.
    assert (Hr : Fmt.nearest_even a drop * 2 ^ drop <= 2 ^ 53 * 2 ^ drop).
    { apply Z.mul_le_mono_nonneg_r; lia. }
    assert (Hmono : 2 ^ Z.succ (Z.log2 a) <= 2 ^ 1023)
      by (apply Z.pow_le_mono_r; lia).
    lia. }
  destruct (Z.leb_spec (2 ^ 1024)
              (if drop <=? 0 then a else Fmt.nearest_even a drop * 2 ^ drop));
    [lia|reflexivity].
Qed.

Close Scope Z_scope.

Lemma fixed0_number v :
  is_number v = true -> exists text, Fmt.fixed0 v = Ok text.
Proof.
  destruct v as [|b|z|f| | |]; try discriminate; cbn [is_number Fmt.fixed0].
  - eauto.
  - intros Hz. apply Z.ltb_lt in Hz. apply int_to_float_returns in Hz.
    destruct (Fmt.int_to_float z); [cbn [bind]; eauto|discriminate].
  - destruct f; eauto.
Qed.

(** ** More on lookups *)

Lemma get_top kvs k dflt :
  Py.get (VDict kvs) k dflt = Ok (Spec.lookup [k] dflt (VDict kvs)).
Proof.
  unfold Spec.lookup. cbn [Py.get Spec.path Spec.field].
  destruct (Py.assoc k kvs); reflexivity.
Qed.

Lemma get_nested kvs k k2 dflt :
  absent_or is_mapping (Spec.field k (VDict kvs)) = true ->
  Py.get (Spec.lookup [k] (VDict []) (VDict kvs)) k2 dflt
  = Ok (Spec.lookup [k; k2] dflt (VDict kvs)).
Proof.
  unfold Spec.lookup, absent_or. cbn [Spec.path Spec.field].
  destruct (Py.assoc k kvs) as [x|]; [|reflexivity].
  destruct x; try discriminate. intros _. cbn [Py.get Spec.field].
  destruct (Py.assoc k2 kvs0); reflexivity.
Qed.

Lemma shaped_guarded d : shaped d = true -> report_info_guarded d = true.
Proof.
  intros H. apply (detect_Ok_guarded d (Spec.schema_version d)).
  apply detect_shaped, H.
Qed.

Lemma shaped_report_info kvs :
  shaped (VDict kvs) = true ->
  absent_or is_mapping (Spec.field "report_info" (VDict kvs)) = true.
Proof.
  unfold shaped, absent_or, report_info_shape. cbn [is_mapping andb Spec.field].
  destruct (Py.assoc "report_info" kvs) as [x|]; [|reflexivity].
  destruct x; cbn [is_mapping andb]; try discriminate. reflexivity.
Qed.

Lemma shaped_accounts kvs :
  shaped (VDict kvs) = true ->
  exists l, Spec.lookup ["accounts"] (VList []) (VDict kvs) = VList l.
Proof.
  unfold shaped, absent_or, Spec.lookup. cbn [is_mapping andb Spec.field Spec.path].
  intros H. apply andb_prop in H as [_ H].
  destruct (Py.assoc "accounts" kvs) as [x|]; [|eauto].
  destruct x; try discriminate. eauto.
Qed.

Lemma qualifying_mapping d s :
  Spec.qualifying d = Some s -> exists kv kvs, d = VDict (kv :: kvs).
Proof.
  destruct d as [| | | | | |[|kv kvs]]; try discriminate. eauto.
Qed.

Lemma company_name_qualifying d default s :
  Spec.qualifying d = Some s -> Spec.company_name d default = s.
Proof.
  intros H. destruct (qualifying_mapping _ _ H) as (kv & kvs & ->).
  unfold Spec.company_name. rewrite H. reflexivity.
Qed.

(** ** Blanks *)

Lemma contains_char c s : Py.contains (String c "") s = has_char c s.
Proof.
  unfold has_char. induction s as [|c' s IH]; [reflexivity|].
  cbn [Py.contains String.prefix list_ascii_of_string existsb].
  rewrite IH. destruct (ascii_dec c c') as [->|Hne].
  - rewrite Ascii.eqb_refl. destruct s; reflexivity.
  - apply Ascii.eqb_neq in Hne. rewrite Hne. reflexivity.
Qed.

Lemma has_char_app c a b : has_char c (a ++ b) = has_char c a || has_char c b.
Proof.
  unfold has_char. induction a as [|x a IH]; [reflexivity|].
  cbn [append list_ascii_of_string existsb]. rewrite IH. apply orb_assoc.
Qed.

Lemma has_char_replace a b s :
  Ascii.eqb a b = false -> has_char a (Str.replace a b s) = false.
Proof.
  intros Hab. unfold has_char. induction s as [|c s IH]; [reflexivity|].
  cbn [Str.replace list_ascii_of_string existsb]. rewrite IH, orb_false_r.
  destruct (Ascii.eqb c a) eqn:Hc; [exact Hab|].
  rewrite Ascii.eqb_sym. exact Hc.
Qed.

(** X16.  The name of a download has a blank only if its extension has one. *)
Theorem file_name_blank (company extension : string) :
  Py.contains " " (file_name company extension) = Py.contains " " extension.
Proof.
  unfold file_name. rewrite !contains_char, !has_char_app.
  rewrite has_char_replace by reflexivity. reflexivity.
Qed.

(** ** More on the standalone document and the script *)

Lemma fst_and_then {A : Type} (c : call) (run : script A) :
  fst (and_then c run) = c :: fst run.
Proof. reflexivity. Qed.

Lemma st_metric_accepted column label v :
  is_metric_value v = true -> st_metric column label v = emit (metric column label v).
Proof. destruct v; try discriminate; reflexivity. Qed.

Section MoreRenderingFacts.

Variable float_repr : spec_float -> string.
Variable str_repr : string -> string.

Local Abbreviation str_of := (py_str float_repr str_repr).
Local Abbreviation html_of := (generate_interactive_html float_repr str_repr).
Local Abbreviation before := (document_before float_repr str_repr).
Local Abbreviation item := (list_item float_repr str_repr).
Local Abbreviation report_of := (report float_repr str_repr).
Local Abbreviation main_of := (main float_repr str_repr).

Ltac forward :=
  repeat first
    [ rewrite get_top
    | rewrite get_nested by assumption
    | progress cbn [bind] ].

Lemma before_renders d :
  shaped d = true -> renderable d = true -> exists page, before d = Ok page.
Proof.
  intros Hs Hr. destruct d as [| | | | | |kvs]; try discriminate.
  pose proof (shaped_report_info _ Hs) as Hinfo.
  unfold renderable in Hr.
  repeat (apply andb_prop in Hr as [Hr ?]).
  destruct (fixed0_number _ H0) as (shown & Hshown).
  unfold document_before.
  rewrite (detect_shaped _ Hs), (resolve_guarded _ _ (shaped_guarded _ Hs)).
  forward. rewrite Hshown. forward.
  destruct (Spec.lookup ["observations"; "positive"] (VList []) (VDict kvs));
    try discriminate; cbn [py_iter bind]; eauto.
Qed.

Lemma report_runs d now :
  shaped d = true -> renderable d = true ->
  exists calls, report_of d now = (calls, Ok tt).
Proof.
  intros Hs Hr. destruct (before_renders d Hs Hr) as (page & Hpage).
  destruct d as [| | | | | |kvs]; try discriminate.
  pose proof (shaped_report_info _ Hs) as Hinfo.
  destruct (shaped_accounts _ Hs) as (l & Hl).
  unfold renderable in Hr.
  repeat (apply andb_prop in Hr as [Hr ?]).
  destruct (fixed0_number _ H0) as (shown & Hshown).
  unfold report.
  rewrite (detect_shaped _ Hs), (resolve_guarded _ _ (shaped_guarded _ Hs)),
    !then_eval_Ok.
  repeat first
    [ rewrite get_top, then_eval_Ok
    | rewrite get_nested, then_eval_Ok by assumption
    | rewrite Hshown, then_eval_Ok
    | rewrite st_metric_accepted by (assumption || reflexivity)
    | rewrite then_emit ].
  rewrite Hl. cbn [py_len]. rewrite then_eval_Ok. cbn [st_metric].
  rewrite !then_emit, generate_before, Hpage. cbn [bind]. rewrite then_eval_Ok.
  eexists. reflexivity.
Qed.

(** X10.  On a document of the recognised shape that can be rendered, the
    generator returns a document and the script runs to its end. *)
Theorem rendering_succeeds (d : value) (now : string) :
  shaped d = true -> renderable d = true ->
  (exists html, html_of d now = Ok html)
  /\ (Py.truthy d = true -> exists calls, main_of (Parsed d) now = (calls, Ok tt)).
Proof.
  intros Hs Hr. split.
  - destruct (before_renders d Hs Hr) as (page & Hpage).
    rewrite generate_before, Hpage. cbn [bind]. eauto.
  - intros Ht. unfold main. rewrite Ht. cbn [negb].
    destruct (report_runs d now Hs Hr) as (calls & ->). eauto.
Qed.

(** X11.  An upload that is true and not a mapping (a non-empty sequence, a
    number, a string) stops the script with [AttributeError] right after
    the preamble. *)
Theorem non_mapping_upload (v : value) (now : string) :
  Py.truthy v = true -> is_mapping v = false ->
  main_of (Parsed v) now = (preamble, Raise AttributeError).
Proof.
  intros Ht Hm. unfold main. rewrite Ht. cbn [negb]. unfold report.
  rewrite (detect_mistyped v), then_eval_Raise.
  - reflexivity.
  - unfold mistyped. rewrite Hm. reflexivity.
Qed.

(** X12.  An index that cannot be printed as a float (a string, null, a
    sequence, a mapping, or an integer beyond the floats) lets neither the
    generator return nor the script reach its end. *)
Theorem unprintable_index (d x : value) (now : string) :
  Spec.path ["volatility"; "overall_index"] d = Some x ->
  returns (Fmt.fixed0 x) = false ->
  returns (html_of d now) = false
  /\ returns (snd (main_of (Parsed d) now)) = false.
Proof.
  intros Hx Hbad.
  assert (Hindex : forall shown,
            Fmt.fixed0 (Spec.lookup ["volatility"; "overall_index"] (VInt 0) d)
            <> Ok shown).
  { intros shown H. unfold Spec.lookup in H. rewrite Hx in H.
    rewrite H in Hbad. discriminate. }
  assert (Ht : Py.truthy d = true).
  { destruct d as [| | | | | |[|kv kvs]]; try discriminate. reflexivity. }
  split.
  - destruct (html_of d now) as [html|] eqn:H; [|reflexivity].
    apply generate_Ok in H as (page & Hpage & _).
    apply before_Ok in Hpage as (? & shown & ? & _ & Hshown & _).
    destruct (Hindex _ Hshown).
  - destruct (main_of (Parsed d) now) as [calls [[]|]] eqn:H; [|reflexivity].
    apply (main_completed _ _ _ _ _ Ht) in H as (cs & H & _).
    apply report_completed in H
      as (? & ? & ? & ? & ? & ? & ? & ? & ? & ? & vol & index & shown & ? & ? & ?
          & _ & _ & _ & _ & _ & _ & _ & _ & _ & _ & Hv & Hi & Hshown & _).
    apply (get_get_lookup _ _ _ _ _ _ Hv) in Hi. subst index.
    destruct (Hindex _ Hshown).
Qed.

(** X13.  When a candidate qualifies, its trimmed value is the name on both
    surfaces: the heading and title of the document, the banner, and
    (blanks replaced) the names of the two downloads. *)
Theorem resolved_name_everywhere (d : value) (now s : string) :
  Spec.qualifying d = Some s ->
  (forall html, html_of d now = Ok html ->
     Py.contains ("<title>Bank Statement Analysis - " ++ s ++ "</title>") html = true
     /\ Py.contains ("<h1>" ++ s ++ "</h1>") html = true)
  /\ (forall calls, main_of (Parsed d) now = (calls, Ok tt) ->
      exists version html,
        In (success ("Loaded: " ++ s ++ " (Schema v" ++ version ++ ")")) calls
        /\ In (download_button 1 "📄 Download JSON" (JsonDump d 2)
                 (file_name s "json") "application/json") calls
        /\ In (download_button 2 "🌐 Download HTML" (Text html)
                 (file_name s "html") "text/html") calls
        /\ Py.contains ("<h1>" ++ s ++ "</h1>") html = true).
Proof.
  intros Hq.
  assert (Hpage : forall html, html_of d now = Ok html ->
     Py.contains ("<title>Bank Statement Analysis - " ++ s ++ "</title>") html = true
     /\ Py.contains ("<h1>" ++ s ++ "</h1>") html = true).
  { intros html H. apply generate_Ok in H as (page & Hpage & ->).
    pose proof Hpage as Hdetect. unfold document_before in Hdetect.
    apply bind_Ok in Hdetect as (version & Hdetect & _).
    apply before_Ok in Hpage as (company & shown & observed & Hc & _ & _ & ->).
    rewrite (resolve_guarded _ _ (detect_Ok_guarded _ _ Hdetect)),
      (company_name_qualifying _ _ _ Hq) in Hc. injection Hc as <-.
    split; [apply page_title|apply page_heading]. }
  split; [exact Hpage|].
  intros calls H.
  assert (Ht : Py.truthy d = true)
    by (destruct (qualifying_mapping _ _ Hq) as (kv & kvs & ->); reflexivity).
  apply (main_completed _ _ _ _ _ Ht) in H as (cs & H & ->).
  apply report_completed in H
    as (version & company & r & ps & pe & tm & integrity & score & kite & risk
        & vol & index & shown & accounts & count & html
        & Hdetect & Hc & _ & _ & _ & _ & _ & _ & _ & _ & _ & _ & _ & _
        & _ & Hhtml & ->).
  rewrite (resolve_guarded _ _ (detect_Ok_guarded _ _ Hdetect)),
    (company_name_qualifying _ _ _ Hq) in Hc. injection Hc as <-.
  exists version, html.
  split; [apply in_preamble_app; cbn; tauto|].
  split; [apply in_preamble_app; cbn; tauto|].
  split; [apply in_preamble_app; cbn; tauto|].
  exact (proj2 (Hpage html Hhtml)).
Qed.

(** X14.  The observations panel: a sequence gives one item per element, in
    order; a string gives one item per character; an absent field gives
    an empty list. *)
Theorem observations_rendering (d : value) (now html : string) :
  html_of d now = Ok html ->
  (forall l, Spec.path ["observations"; "positive"] d = Some (VList l) ->
     Py.contains ("<ul>" ++ nl ++ String.concat "" (map item l) ++ nl ++ "</ul>")
       html = true)
  /\ (forall s, Spec.path ["observations"; "positive"] d = Some (VStr s) ->
     Py.contains
       ("<ul>" ++ nl
        ++ String.concat ""
             (map (fun c => "<li>" ++ c ++ "</li>") (Str.chars s))
        ++ nl ++ "</ul>") html = true)
  /\ (Spec.path ["observations"; "positive"] d = None ->
      Py.contains ("<ul>" ++ nl ++ nl ++ "</ul>") html = true).
Proof.
  intros H. apply generate_Ok in H as (page & Hpage & ->).
  apply before_Ok in Hpage as (company & shown & observed & _ & _ & Hobs & ->).
  unfold Spec.lookup in Hobs.
  split; [|split].
  - intros l Hl. rewrite Hl in Hobs. injection Hobs as <-.
    apply contains_app_l. unfold page_before. find_text.
  - intros s Hs. rewrite Hs in Hobs. injection Hobs as <-.
    rewrite map_map. apply contains_app_l. unfold page_before. find_text.
  - intros Hnone. rewrite Hnone in Hobs. injection Hobs as <-.
    change ("<ul>" ++ nl ++ nl ++ "</ul>")
      with ("<ul>" ++ nl ++ String.concat "" (map item []) ++ nl ++ "</ul>").
    apply contains_app_l. unfold page_before. find_text.
Qed.

Lemma report_banner d now version :
  detect_schema_version d = Ok version ->
  exists rest,
    fst (report_of d now)
    = success ("Loaded: " ++ Spec.company_name d "Unknown"
               ++ " (Schema v" ++ version ++ ")") :: rest.
Proof.
  intros Hdetect. unfold report.
  rewrite Hdetect, (resolve_guarded _ _ (detect_Ok_guarded _ _ Hdetect)),
    !then_eval_Ok, then_emit.
  match goal with
  | |- context [and_then ?c ?run] =>
      destruct run as [cs r] eqn:Hrun; exists cs
  end.
  reflexivity.
Qed.

(** X15.  Once the detector and the resolver have returned, the banner is on
    the screen, whatever happens afterwards. *)
Theorem banner_before_failure (d : value) (now version : string) :
  Py.truthy d = true ->
  detect_schema_version d = Ok version ->
  exists rest,
    fst (main_of (Parsed d) now)
    = (preamble
       ++ success ("Loaded: " ++ Spec.company_name d "Unknown"
                   ++ " (Schema v" ++ version ++ ")") :: rest)%list.
Proof.
  intros Ht Hdetect. unfold main. rewrite Ht. cbn [negb].
  destruct (report_banner d now version Hdetect) as (rest & Hrest).
  destruct (report_of d now) as [cs r]. cbn [fst] in *. subst cs.
  exists rest. reflexivity.
Qed.

(** C10.  When no candidate for the company name qualifies, the
    standalone document is titled and headed "Company", while the banner
    and the names of the two downloads have "Unknown".  The banner is the
    first call after the preamble as soon as the detector has returned on
    an upload that is true; a run that reaches its end has made both
    downloads, "Unknown_analysis.json" with the document and
    "Unknown_analysis.html" with the page headed "Company"; and on a
    document of the recognised shape that can be rendered the run does
    reach its end.  Both words are in the blocklist once in lower case. *)
Theorem fallback_names (d : value) (now : string) :
  Spec.qualifying d = None ->
  (forall html, html_of d now = Ok html ->
     Py.contains "<title>Bank Statement Analysis - Company</title>" html = true
     /\ Py.contains "<h1>Company</h1>" html = true)
  /\ (forall version, Py.truthy d = true -> detect_schema_version d = Ok version ->
      exists rest,
        fst (main_of (Parsed d) now)
        = (preamble
           ++ success ("Loaded: Unknown (Schema v" ++ version ++ ")") :: rest)%list)
  /\ (forall calls, Py.truthy d = true -> main_of (Parsed d) now = (calls, Ok tt) ->
      exists html,
        html_of d now = Ok html
        /\ In (download_button 1 "📄 Download JSON" (JsonDump d 2)
                 "Unknown_analysis.json" "application/json") calls
        /\ In (download_button 2 "🌐 Download HTML" (Text html)
                 "Unknown_analysis.html" "text/html") calls
        /\ Py.contains "<h1>Company</h1>" html = true)
  /\ (Py.truthy d = true -> shaped d = true -> renderable d = true ->
      exists calls, main_of (Parsed d) now = (calls, Ok tt))
  /\ blocked (Str.lower "Company") = true
  /\ blocked (Str.lower "Unknown") = true.
Proof.
  intros Hq.
  assert (Hpage : forall html, html_of d now = Ok html ->
     Py.contains "<title>Bank Statement Analysis - Company</title>" html = true
     /\ Py.contains "<h1>Company</h1>" html = true).
  { intros html H. apply generate_Ok in H as (page & Hpage & ->).
    pose proof Hpage as Hdetect. unfold document_before in Hdetect.
    apply bind_Ok in Hdetect as (version & Hdetect & _).
    apply before_Ok in Hpage as (company & shown & observed & Hc & _ & _ & ->).
    rewrite (resolve_guarded _ _ (detect_Ok_guarded _ _ Hdetect)),
      (company_name_default _ _ Hq) in Hc. injection Hc as <-.
    split; [apply (page_title "Company")|apply (page_heading "Company")]. }
  split; [exact Hpage|]. split; [|split; [|split; [|split; reflexivity]]].
  - intros version Ht Hdetect. unfold main. rewrite Ht. cbn [negb].
    destruct (report_banner d now version Hdetect) as (rest & Hrest).
    rewrite (company_name_default _ _ Hq) in Hrest.
    destruct (report_of d now) as [cs r]. cbn [fst] in *. subst cs.
    exists rest. reflexivity.
  - intros calls Ht H.
    apply (main_completed _ _ _ _ _ Ht) in H as (cs & H & ->).
    apply report_completed in H
      as (version & company & r & ps & pe & tm & integrity & score & kite & risk
          & vol & index & shown & accounts & count & html
          & Hdetect & Hc & _ & _ & _ & _ & _ & _ & _ & _ & _ & _ & _ & _
          & _ & Hhtml & ->).
    rewrite (resolve_guarded _ _ (detect_Ok_guarded _ _ Hdetect)),
      (company_name_default _ _ Hq) in Hc. injection Hc as <-.
    exists html.
    split; [exact Hhtml|].
    split; [apply in_preamble_app; cbn; tauto|].
    split; [apply in_preamble_app; cbn; tauto|].
    exact (proj2 (Hpage html Hhtml)).
  - intros Ht Hs Hr. unfold main. rewrite Ht. cbn [negb].
    destruct (report_runs d now Hs Hr) as (calls & ->). eauto.
Qed.

End MoreRenderingFacts.

(** ** The JSON export *)

(** C6, as amended.  Where the text of a finite float is a number that
    is read back as the same float, as the language documents: for every
    document that [json.load] returns and in which no string has a lead
    surrogate right before a trail surrogate as two characters,
    re-parsing the text of the JSON download, which is the document
    written with an indentation of two, gives the document again; so it
    does for every document that [json.load] returns on an upload that
    holds no surrogate, which every upload in UTF-8 proper is.  A run
    that reaches its end offers this download under the resolved company
    name with its blanks replaced by underscores, followed by
    "_analysis.json"; and on a document of the recognised shape that can
    be rendered the run does reach its end. *)
Theorem json_export_round_trip (float_repr : spec_float -> string)
  (str_repr : string -> string) (parse_float : string -> spec_float)
  (text : string) (d : value) (now : string) :
  (forall s, Json.float_kept float_repr parse_float (parse_float s)) ->
  Json.loads parse_float text = Ok d ->
  payload_text float_repr (JsonDump d 2) = Json.dumps float_repr 2 d
  /\ (Json.joined d = true ->
      Json.loads parse_float (payload_text float_repr (JsonDump d 2)) = Ok d)
  /\ (Json.no_surrogate text = true ->
      Json.loads parse_float (payload_text float_repr (JsonDump d 2)) = Ok d)
  /\ (forall calls,
        Py.truthy d = true ->
        main float_repr str_repr (Parsed d) now = (calls, Ok tt) ->
        exists company,
          resolve_company_name d "Unknown" = Ok company
          /\ In (download_button 1 "📄 Download JSON" (JsonDump d 2)
                   (Str.replace " " "_" company ++ "_analysis.json")
                   "application/json") calls)
  /\ (Py.truthy d = true -> shaped d = true -> renderable d = true ->
      exists calls, main float_repr str_repr (Parsed d) now = (calls, Ok tt)).
Proof.
  intros Hfloat Hload. split; [reflexivity|]. split; [|split; [|split]].
  - intros Hj. exact (JsonFacts.loads_dumps_loads _ _ Hfloat _ _ Hload Hj).
  - intros Htext.
    exact (JsonFacts.loads_dumps_loads _ _ Hfloat _ _ Hload
             (JsonFacts.loads_joined _ _ _ Htext Hload)).
  - intros calls Ht H.
    apply (main_completed _ _ _ _ _ Ht) in H as (cs & H & ->).
    apply report_completed in H
      as (version & company & r & ps & pe & tm & integrity & score & kite & risk
          & vol & index & shown & accounts & count & html
          & _ & Hc & _ & _ & _ & _ & _ & _ & _ & _ & _ & _ & _ & _
          & _ & _ & ->).
    exists company. split; [exact Hc|].
    apply in_preamble_app. cbn. tauto.
  - intros Ht Hs Hr. unfold main. rewrite Ht. cbn [negb].
    destruct (report_runs float_repr str_repr d now Hs Hr) as (calls & ->). eauto.
Qed.


(** ** Examples of the properties above *)

Lemma detect_range_witness :
  exists v, detect_schema_version Doc.month_text = Ok v
            /\ (v = "5.0" \/ v = "4.0").
Proof.
  exists "5.0". split; [reflexivity|].
  exact (detect_range Doc.month_text "5.0" eq_refl).
Defined.

Lemma resolve_company_name_result_witness :
  Str.strip "Acme Ltd" = "Acme Ltd" /\ blocked (Str.lower "Acme Ltd") = false.
Proof.
  destruct (resolve_company_name_result Doc.placeholders "Unknown" "Acme Ltd"
              eq_refl) as [H|(Hs & _ & Hb & _)]; [discriminate H|].
  split; assumption.
Defined.

Lemma resolve_company_name_reads_witness :
  resolve_company_name
    (VDict [("flags", VList [VStr "late"]); ("company", VStr "Acme")]) "Unknown"
  = resolve_company_name (VDict [("company", VStr "Acme")]) "Unknown".
Proof.
  apply resolve_company_name_reads.
  intros k [<-|[<-|[<-|[<-|[]]]]]; reflexivity.
Defined.

Lemma detect_schema_version_reads_witness :
  detect_schema_version
    (VDict [("flags", VList [VStr "late"]); ("recurring_payments", VList [VInt 1])])
  = detect_schema_version (VDict [("recurring_payments", VList [VInt 1])]).
Proof.
  apply detect_schema_version_reads.
  intros k [<-|[<-|[<-|[<-|[]]]]]; reflexivity.
Defined.

Lemma rendering_succeeds_witness :
  exists html,
    generate_interactive_html Sample.float_repr Sample.str_repr Doc.complete
      Sample.now = Ok html.
Proof.
  exact (proj1 (rendering_succeeds Sample.float_repr Sample.str_repr
                  Doc.complete Sample.now eq_refl eq_refl)).
Defined.

Lemma non_mapping_upload_witness :
  main Sample.float_repr Sample.str_repr (Parsed (VList [VInt 1])) Sample.now
  = (preamble, Raise AttributeError).
Proof.
  exact (non_mapping_upload Sample.float_repr Sample.str_repr (VList [VInt 1])
           Sample.now eq_refl eq_refl).
Defined.

Lemma unprintable_index_witness :
  returns (generate_interactive_html Sample.float_repr Sample.str_repr
             Doc.text_index Sample.now) = false
  /\ returns (snd (main Sample.float_repr Sample.str_repr
                     (Parsed Doc.text_index) Sample.now)) = false.
Proof.
  exact (unprintable_index Sample.float_repr Sample.str_repr Doc.text_index
           (VStr "12.5") Sample.now eq_refl eq_refl).
Defined.

Lemma resolved_name_everywhere_witness :
  exists html,
    generate_interactive_html Sample.float_repr Sample.str_repr
      Doc.text_observations Sample.now = Ok html
    /\ Py.contains "<h1>Acme Ltd</h1>" html = true.
Proof.
  destruct (generate_interactive_html Sample.float_repr Sample.str_repr
              Doc.text_observations Sample.now) as [html|] eqn:H; [|discriminate].
  exists html. split; [reflexivity|].
  exact (proj2 (proj1 (resolved_name_everywhere Sample.float_repr Sample.str_repr
                         Doc.text_observations Sample.now "Acme Ltd" eq_refl)
                  html H)).
Defined.

Lemma observations_rendering_witness :
  exists html,
    generate_interactive_html Sample.float_repr Sample.str_repr
      Doc.text_observations Sample.now = Ok html
    /\ Py.contains ("<ul>" ++ nl ++ "<li>o</li><li>k</li>" ++ nl ++ "</ul>") html
       = true.
Proof.
  destruct (generate_interactive_html Sample.float_repr Sample.str_repr
              Doc.text_observations Sample.now) as [html|] eqn:H; [|discriminate].
  exists html. split; [reflexivity|].
  exact (proj1 (proj2 (observations_rendering Sample.float_repr Sample.str_repr
                         Doc.text_observations Sample.now html H))
           "ok" eq_refl).
Defined.

Lemma banner_before_failure_witness :
  snd (main Sample.float_repr Sample.str_repr (Parsed Doc.text_index) Sample.now)
  = Raise ValueError
  /\ exists rest,
       fst (main Sample.float_repr Sample.str_repr (Parsed Doc.text_index)
              Sample.now)
       = (preamble ++ success "Loaded: Unknown (Schema v4.0)" :: rest)%list.
Proof.
  split; [reflexivity|].
  exact (banner_before_failure Sample.float_repr Sample.str_repr Doc.text_index
           Sample.now "4.0" eq_refl eq_refl).
Defined.

Lemma fallback_names_witness :
  exists calls html,
    main Sample.float_repr Sample.str_repr (Parsed Doc.no_name) Sample.now
    = (calls, Ok tt)
    /\ In (success "Loaded: Unknown (Schema v4.0)") calls
    /\ In (download_button 1 "📄 Download JSON" (JsonDump Doc.no_name 2)
             "Unknown_analysis.json" "application/json") calls
    /\ In (download_button 2 "🌐 Download HTML" (Text html)
             "Unknown_analysis.html" "text/html") calls
    /\ Py.contains "<title>Bank Statement Analysis - Company</title>" html = true
    /\ Py.contains "<h1>Company</h1>" html = true.
Proof.
  destruct (fallback_names Sample.float_repr Sample.str_repr Doc.no_name
              Sample.now eq_refl)
    as (Hpage & Hbanner & Hdownloads & Hruns & _).
  destruct (Hruns eq_refl eq_refl eq_refl) as (calls & Hcalls).
  destruct (Hbanner "4.0" eq_refl eq_refl) as (rest & Hrest).
  destruct (Hdownloads calls eq_refl Hcalls) as (html & Hhtml & Hjson & Hfile & _).
  exists calls, html.
  split; [exact Hcalls|].
  split.
  - rewrite Hcalls in Hrest. cbn [fst] in Hrest. rewrite Hrest.
    apply in_or_app. right. left. reflexivity.
  - split; [exact Hjson|]. split; [exact Hfile|]. exact (Hpage html Hhtml).
Defined.

Lemma json_export_round_trip_witness :
  Json.loads Sample.parse_float Doc.upload_text = Ok Doc.uploaded
  /\ Json.joined Doc.uploaded = true
  /\ Json.no_surrogate Doc.upload_text = true
  /\ Json.loads Sample.parse_float
       (payload_text Sample.float_repr (JsonDump Doc.uploaded 2))
     = Ok Doc.uploaded
  /\ exists calls,
       main Sample.float_repr Sample.str_repr (Parsed Doc.uploaded) Sample.now
       = (calls, Ok tt)
       /\ In (download_button 1 "📄 Download JSON" (JsonDump Doc.uploaded 2)
                "Acme_Ltd_analysis.json" "application/json") calls.
Proof.
  assert (Hfloat : forall s,
            Json.float_kept Sample.float_repr Sample.parse_float
              (Sample.parse_float s))
    by (intros s _; split; reflexivity).
  assert (Hload : Json.loads Sample.parse_float Doc.upload_text = Ok Doc.uploaded)
    by (vm_compute; reflexivity).
  destruct (json_export_round_trip Sample.float_repr Sample.str_repr
              Sample.parse_float Doc.upload_text Doc.uploaded Sample.now
              Hfloat Hload) as (_ & Hback & Hproper & Hname & Hruns).
  split; [exact Hload|]. split; [reflexivity|]. split; [reflexivity|].
  split; [exact (Hproper eq_refl)|]. clear Hproper Hback.
  destruct (Hruns eq_refl eq_refl eq_refl) as (calls & Hcalls).
  exists calls. split; [exact Hcalls|].
  destruct (Hname calls eq_refl Hcalls) as (company & Hc & Hin).
  injection Hc as <-. exact Hin.
Defined.

(** C6 as stated fails: the upload [{"notes": "..."}] with the
    surrogates U+D83D and U+DE00 as two characters is parsed, the script
    offers its export under "Unknown_analysis.json", and re-parsing the
    export gives the one character U+1F600 in their place.  The script
    shows nothing of the field [notes], and the export has the two
    surrogates as escapes: no text of the run holds a surrogate. *)
Lemma json_export_round_trip_counterexample :
  Json.loads Sample.parse_float Doc.split_pair_text = Ok Doc.split_pair
  /\ (exists calls,
        main Sample.float_repr Sample.str_repr (Parsed Doc.split_pair) Sample.now
        = (calls, Ok tt)
        /\ In (download_button 1 "📄 Download JSON" (JsonDump Doc.split_pair 2)
                 "Unknown_analysis.json" "application/json") calls
        /\ sendable Sample.float_repr calls = true)
  /\ Json.loads Sample.parse_float
       (payload_text Sample.float_repr (JsonDump Doc.split_pair 2))
     = Ok Doc.joined_pair
  /\ Doc.joined_pair <> Doc.split_pair.
Proof.
  split; [vm_compute; reflexivity|]. split; [|split].
  - eexists. split; [reflexivity|]. split; [cbn; tauto|vm_compute; reflexivity].
  - vm_compute. reflexivity.
  - discriminate.
Qed.
